(** * Vehicle-document OCR pipeline: extraction and consensus core

    A shallow embedding of [src/src/vehicle_ocr/preprocessor.py] and
    [src/src/vehicle_ocr/parser.py].

    - A Python [str] is a sequence of Unicode code points: [pystr].
    - A Python [float] is an IEEE-754 binary64 value: [spec_float] with the
      operations of [SpecFloat] at precision 53 and maximal exponent 1024.
    - An exception is a value of [exn]; code that can raise lives in
      [result].
    - The libraries the program calls (Tesseract, OpenCV, the Unicode
      tables behind [str.upper], [str.isalpha], [str.isdigit] and the
      regex class [\d]) are variables of the sections that need them;
      [Double] holds computable stand-ins for them.

    The definitions come first, in the order of the source files; the
    lemmas follow, grouped by component, and the last section runs the
    statements on concrete inputs. *)

From Stdlib Require Import String Ascii.
From Stdlib Require Import ZArith NArith List Bool Lia Sorted.
From Stdlib Require Import SpecFloat.
Import ListNotations.

(* ===================================================================== *)
(** * Python strings *)
(* ===================================================================== *)

(** One Unicode code point. *)
Definition char := N.

(** [str]: a sequence of code points. *)
Definition pystr := list char.

(** Source literals are written as they appear in the [.py] files (UTF-8);
    [py] decodes the bytes of a literal into code points (sequences of one,
    two and three bytes, which covers Latin and Cyrillic). *)
Fixpoint py (s : string) : pystr :=
  match s with
  | EmptyString => []
  | String a rest =>
      let b := N_of_ascii a in
      if (b <? 128)%N then b :: py rest
      else match rest with
           | EmptyString => [b]
           | String a2 rest2 =>
               let b2 := N_of_ascii a2 in
               if (b <? 224)%N then ((b - 192) * 64 + (b2 - 128))%N :: py rest2
               else match rest2 with
                    | EmptyString => [b; b2]
                    | String a3 rest3 =>
                        let b3 := N_of_ascii a3 in
                        ((b - 224) * 4096 + (b2 - 128) * 64 + (b3 - 128))%N :: py rest3
                    end
           end
  end.

(** A one-character literal. *)
Definition ch (s : string) : char := hd 0%N (py s).

Definition char_eqb (a b : char) : bool := N.eqb a b.

Fixpoint pystr_eqb (a b : pystr) : bool :=
  match a, b with
  | [], [] => true
  | x :: a', y :: b' => char_eqb x y && pystr_eqb a' b'
  | _, _ => false
  end.

(** [c in s] for a one-character [c]. *)
Definition contains (c : char) (s : pystr) : bool := existsb (char_eqb c) s.

(** A character range [lo-hi] of a regex class. *)
Definition in_range (lo hi : string) (c : char) : bool :=
  (ch lo <=? c)%N && (c <=? ch hi)%N.

(** [text.replace(old, new)] where [old] and [new] are one character
    each, which is every call of the program. *)
Definition replace1 (old new : char) (text : pystr) : pystr :=
  map (fun c => if char_eqb c old then new else c) text.

(** [text.split(sep)] for a one-character separator. *)
Fixpoint split_on (sep : char) (cur : pystr) (text : pystr) : list pystr :=
  match text with
  | [] => [rev cur]
  | c :: text' =>
      if char_eqb c sep then rev cur :: split_on sep [] text'
      else split_on sep (c :: cur) text'
  end.

Definition str_split (sep : char) (text : pystr) : list pystr := split_on sep [] text.

(** [text.replace(old, '')] for a one-character [old]. *)
Definition remove_char (old : char) (text : pystr) : pystr :=
  filter (fun c => negb (char_eqb c old)) text.

(** [s[i:j]] for [0 <= i <= j]. *)
Definition slice (i j : nat) (s : pystr) : pystr := firstn (j - i) (skipn i s).

(** Newline and space. *)
Definition NL : char := 10%N.
Definition SP : char := 32%N.

(* ===================================================================== *)
(** * Exceptions *)
(* ===================================================================== *)

(** The exceptions of class [Exception], the ones an [except Exception]
    catches, each with the text [str(e)] gives where the program builds
    it. [KeyboardInterrupt], [SystemExit] and the other exceptions that are
    not of that class are not modelled. *)
Inductive exn :=
| ValueError (msg : pystr)
| ZeroDivisionError
| OverflowError (msg : pystr)
| OtherError (tag : pystr).

Inductive result (A : Type) :=
| Ok (a : A)
| Raise (e : exn).
Arguments Ok {A} a.
Arguments Raise {A} e.

Definition bind {A B} (r : result A) (k : A -> result B) : result B :=
  match r with
  | Ok a => k a
  | Raise e => Raise e
  end.

Notation "x <- r ;; k" := (bind r (fun x => k))
  (at level 61, r at next level, right associativity).

(** A [for] loop whose body can raise. *)
Fixpoint foldM {A B} (f : B -> A -> result B) (xs : list A) (b : B) : result B :=
  match xs with
  | [] => Ok b
  | x :: xs' => b' <- f b x ;; foldM f xs' b'
  end.

(** [str(e)] as the program prints it. *)
Definition exn_str (e : exn) : pystr :=
  match e with
  | ValueError msg => msg
  | ZeroDivisionError => py "division by zero"
  | OverflowError msg => msg
  | OtherError tag => tag
  end.

(* ===================================================================== *)
(** * Python numbers *)
(* ===================================================================== *)

(** [float] is binary64. *)
Definition float := spec_float.
Definition prec : Z := 53.
Definition emax : Z := 1024.

Definition fmul : float -> float -> float := SFmul prec emax.
Definition fdiv : float -> float -> float := SFdiv prec emax.
Definition fleb : float -> float -> bool := SFleb.
Definition feqb : float -> float -> bool := SFeqb.

(** [float(n)] for an [int]: the nearest binary64, or [OverflowError]. *)
Definition float_of_int (n : Z) : result float :=
  match binary_normalize prec emax n 0 false with
  | S754_infinity _ =>
      Raise (OverflowError (py "int too large to convert to float"))
  | f => Ok f
  end.

(** [int(x)] for a [float]: truncation towards zero. *)
Definition int_of_float (x : float) : result Z :=
  match x with
  | S754_nan => Raise (ValueError (py "cannot convert float NaN to integer"))
  | S754_infinity _ =>
      Raise (OverflowError (py "cannot convert float infinity to integer"))
  | S754_zero _ => Ok 0%Z
  | S754_finite s m e => Ok (cond_Zopp s (Z.shiftl (Zpos m) e))
  end.

(** [n * x] for an [int] and a [float]. *)
Definition mul_int_float (n : Z) (x : float) : result float :=
  nf <- float_of_int n ;; Ok (fmul nf x).

(** [int(n * x)] *)
Definition int_mul (n : Z) (x : float) : result Z :=
  p <- mul_int_float n x ;; int_of_float p.

(** [a / b] for two [int]s, both of magnitude at most 2^53 as every array
    dimension and setting of the program is: each converts exactly and
    the quotient is rounded once. *)
Definition int_truediv (a b : Z) : result float :=
  if (b =? 0)%Z then Raise ZeroDivisionError
  else fa <- float_of_int a ;; fb <- float_of_int b ;; Ok (fdiv fa fb).

(** A decimal literal [n/d] of the source, such as [0.15 = dec 15 100]:
    the binary64 nearest to it. *)
Definition dec (n d : Z) : float :=
  fdiv (binary_normalize prec emax n 0 false) (binary_normalize prec emax d 0 false).

(** Every Python float is a canonical binary64. *)
Definition is_float (x : float) : bool := valid_binary prec emax x.

(* ===================================================================== *)
(** * preprocessor.py: glyph normalization *)
(* ===================================================================== *)

(** [ImagePreprocessor.char_map], in the insertion order of the dict
    literal. *)
Definition char_map : list (char * char) :=
  [ (ch "O", ch "О"); (ch "o", ch "о"); (ch "0", ch "О");
    (ch "B", ch "В"); (ch "b", ch "в");
    (ch "A", ch "А"); (ch "a", ch "а");
    (ch "E", ch "Е"); (ch "e", ch "е");
    (ch "K", ch "К"); (ch "k", ch "к");
    (ch "M", ch "М"); (ch "m", ch "м");
    (ch "H", ch "Н"); (ch "h", ch "н");
    (ch "P", ch "Р"); (ch "p", ch "р");
    (ch "C", ch "С"); (ch "c", ch "с");
    (ch "T", ch "Т"); (ch "t", ch "т");
    (ch "Y", ch "У"); (ch "y", ch "у");
    (ch "X", ch "Х"); (ch "x", ch "х") ].

(** [normalize_to_cyrillic]: one [replace] per table entry, in order. *)
Definition normalize_to_cyrillic (text : pystr) : pystr :=
  fold_left (fun t '(lat, cyr) => replace1 lat cyr t) char_map text.

(** The table read as a lookup, for the statements below. *)
Fixpoint lookup (c : char) (table : list (char * char)) : option char :=
  match table with
  | [] => None
  | (k, v) :: table' => if char_eqb c k then Some v else lookup c table'
  end.

(** The Cyrillic block U+0400..U+04FF. *)
Definition is_cyrillic (c : char) : bool := (1024 <=? c)%N && (c <=? 1279)%N.

(* ===================================================================== *)
(** * The regular expressions of parser.py *)
(* ===================================================================== *)

(** Every pattern of the program is a sequence of character classes, each
    with a counted greedy repetition [{lo,hi}]. *)
Record atom := Rep { cls : char -> bool; lo : nat; hi : nat }.

Definition regex := list atom.

(** Length of the longest prefix of [s], at most [n] characters, whose
    characters are all in [c]. *)
Fixpoint span_upto (c : char -> bool) (n : nat) (s : pystr) : nat :=
  match n, s with
  | S n', x :: s' => if c x then S (span_upto c n' s') else 0
  | _, _ => 0
  end.

(** The counts an atom tries, from the greedy one [k] downwards, each
    followed by the rest of the pattern [rest]. *)
Fixpoint try_counts (rest : pystr -> option nat) (lo : nat) (s : pystr) (k : nat)
  : option nat :=
  let attempt :=
    if lo <=? k then
      match rest (skipn k s) with
      | Some n => Some (k + n)
      | None => None
      end
    else None in
  match attempt with
  | Some r => Some r
  | None => match k with
            | 0 => None
            | S k' => try_counts rest lo s k'
            end
  end.

(** Backtracking match of [p] at the start of [s]: each atom first takes
    as many characters as it can, then gives them back one at a time while
    the rest of the pattern fails. The result is the length matched. *)
Fixpoint match_here (p : regex) (s : pystr) : option nat :=
  match p with
  | [] => Some 0
  | a :: p' => try_counts (match_here p') (lo a) s (span_upto (cls a) (hi a) s)
  end.

(** [pattern.match(s)]: the matched prefix, if any. *)
Definition re_match (p : regex) (s : pystr) : option pystr :=
  match match_here p s with
  | Some n => Some (firstn n s)
  | None => None
  end.

(** [pattern.findall(s)]: the non-overlapping matches, left to right.
    [skip] counts the characters of the current match still to pass. *)
Fixpoint findall_from (p : regex) (skip : nat) (s : pystr) : list pystr :=
  match s with
  | [] => match skip, match_here p [] with
          | 0, Some _ => [[]]
          | _, _ => []
          end
  | _ :: s' =>
      match skip with
      | S k => findall_from p k s'
      | 0 => match match_here p s with
             | Some n => firstn n s :: findall_from p (pred n) s'
             | None => findall_from p 0 s'
             end
      end
  end.

Definition findall (p : regex) (s : pystr) : list pystr := findall_from p 0 s.

(** [bool(re.search(c, s))] for a one-class pattern. *)
Definition search_class (c : char -> bool) (s : pystr) : bool := existsb c s.

(** [re.sub(c, '', s)] for a one-class pattern: the characters of the
    class are dropped. *)
Definition sub_class_empty (c : char -> bool) (s : pystr) : pystr :=
  filter (fun x => negb (c x)) s.

(** [[АВЕКМНОРСТУХ]] *)
Definition plate_letter (c : char) : bool := contains c (py "АВЕКМНОРСТУХ").

(** [[A-HJ-NPR-Z0-9]] *)
Definition vin_char (c : char) : bool :=
  in_range "A" "H" c || in_range "J" "N" c || char_eqb c (ch "P")
  || in_range "R" "Z" c || in_range "0" "9" c.

(** [[^A-Z0-9]] *)
Definition not_AZ09 (c : char) : bool :=
  negb (in_range "A" "Z" c || in_range "0" "9" c).

(** [[А-Я]] and [[^А-Я0-9]] *)
Definition cyr_upper (c : char) : bool := in_range "А" "Я" c.
Definition not_cyr09 (c : char) : bool :=
  negb (in_range "А" "Я" c || in_range "0" "9" c).

(** [VIN_PATTERN = re.compile(r'[A-HJ-NPR-Z0-9]{17}')] *)
Definition VIN_PATTERN : regex := [Rep vin_char 17 17].

(** The 17-character windows of the cleaned text and the collection of
    candidates, the loop
      [for i in range(len(cleaned) - 16): candidate = cleaned[i:i + 17] ...]
    found in [extract_vin] and in [_extract_with_multiple_strategies]. *)
Definition windows (cleaned : pystr) : list pystr :=
  map (fun i => slice i (i + 17) cleaned) (seq 0 (length cleaned - 16)).

Definition is_some {A} (o : option A) : bool :=
  match o with Some _ => true | None => false end.

Definition window_candidates (cleaned : pystr) : list pystr :=
  filter (fun candidate => is_some (re_match VIN_PATTERN candidate)) (windows cleaned).

(** [max(xs, key=key)] on a non-empty sequence: the first element whose
    key is not exceeded by a later one. *)
Fixpoint max_from {A} (key : A -> nat) (best : A) (xs : list A) : A :=
  match xs with
  | [] => best
  | x :: xs' => max_from key (if key best <? key x then x else best) xs'
  end.

Definition py_max {A} (key : A -> nat) (xs : list A) : option A :=
  match xs with
  | [] => None
  | x :: xs' => Some (max_from key x xs')
  end.

(** [collections.Counter(xs)]: a dict, so the keys are kept in the order of
    their first insertion. *)
Fixpoint counter_add (k : pystr) (d : list (pystr * nat)) : list (pystr * nat) :=
  match d with
  | [] => [(k, 1)]
  | (k', n) :: d' =>
      if pystr_eqb k k' then (k', S n) :: d' else (k', n) :: counter_add k d'
  end.

Definition Counter (xs : list pystr) : list (pystr * nat) :=
  fold_left (fun d k => counter_add k d) xs [].

(* ===================================================================== *)
(** * Images *)
(* ===================================================================== *)

(** The samples of one pixel: one for a gray image, three for BGR. *)
Definition pixel := list N.

(** A numpy array holding an image: its rows, top to bottom, the width
    [shape[1]] (kept apart from the rows, an array of no rows still has
    one) and [len(shape)], 2 for a gray image and 3 for a colour one. *)
Record ndarray := {
  nd_rows : list (list pixel);
  nd_width : nat;
  nd_ndim : nat
}.

Definition shape0 (image : ndarray) : Z := Z.of_nat (length (nd_rows image)).
Definition shape1 (image : ndarray) : Z := Z.of_nat (nd_width image).

(** Every row has [shape[1]] pixels. *)
Definition rectangular (image : ndarray) : Prop :=
  Forall (fun row => length row = nd_width image) (nd_rows image).

(** A bound of a Python slice over a sequence of [len] items: a negative
    index counts from the end, and the result is clipped to [0..len]. *)
Definition slice_bound (len i : Z) : Z :=
  if (i <? 0)%Z then Z.max (i + len) 0 else Z.min i len.

(** [image[start:stop, :]] *)
Definition row_slice (start stop : Z) (image : ndarray) : ndarray :=
  let a := slice_bound (shape0 image) start in
  let b := slice_bound (shape0 image) stop in
  {| nd_rows := firstn (Z.to_nat (b - a)) (skipn (Z.to_nat a) (nd_rows image));
     nd_width := nd_width image;
     nd_ndim := nd_ndim image |}.

Inductive interpolation := INTER_LINEAR | INTER_CUBIC | INTER_LANCZOS4.

(* ===================================================================== *)
(** * config.py *)
(* ===================================================================== *)

Record Settings := {
  tesseract_lang : pystr;
  tesseract_psm : Z;
  clahe_clip_limit : float;
  clahe_tile_size : Z;
  min_image_height : Z;
  upscale_method : pystr;
  reg_number_region_start : float;
  reg_number_region_end : float;
  vin_region_start : float;
  vin_region_end : float;
  body_number_region_start : float;
  body_number_region_end : float;
  vin_length : Z;
  min_reg_number_length : Z;
  max_reg_number_length : Z
}.

(** The defaults of the [Field]s. *)
Definition default_settings : Settings := {|
  tesseract_lang := py "eng";
  tesseract_psm := 6;
  clahe_clip_limit := dec 2 1;
  clahe_tile_size := 8;
  min_image_height := 800;
  upscale_method := py "cubic";
  reg_number_region_start := dec 15 100;
  reg_number_region_end := dec 30 100;
  vin_region_start := dec 25 100;
  vin_region_end := dec 60 100;
  body_number_region_start := dec 52 100;
  body_number_region_end := dec 68 100;
  vin_length := 17;
  min_reg_number_length := 8;
  max_reg_number_length := 10
|}.

(* ===================================================================== *)
(** * preprocessor.py: ImagePreprocessor *)
(* ===================================================================== *)

(** [extract_region] *)
Definition extract_region (image : ndarray) (start_ratio end_ratio : float)
  : result ndarray :=
  let height := shape0 image in
  start_y <- int_mul height start_ratio ;;
  end_y <- int_mul height end_ratio ;;
  Ok (row_slice start_y end_y image).

Section Preprocessor.

(** OpenCV: [cv2.resize(image, (w, h), interpolation=m)],
    [cv2.cvtColor(image, cv2.COLOR_BGR2GRAY)] and
    [cv2.createCLAHE(clipLimit, tileGridSize=(t, t)).apply(gray)]. *)
Variable cv2_resize : ndarray -> Z * Z -> interpolation -> result ndarray.
Variable cv2_cvtColor_gray : ndarray -> result ndarray.
Variable clahe_apply : float -> Z -> ndarray -> result ndarray.

Variable settings : Settings.

(** [interpolation_methods.get(self.settings.upscale_method, cv2.INTER_CUBIC)] *)
Definition interpolation_method : interpolation :=
  if pystr_eqb (upscale_method settings) (py "linear") then INTER_LINEAR
  else if pystr_eqb (upscale_method settings) (py "cubic") then INTER_CUBIC
  else if pystr_eqb (upscale_method settings) (py "lanczos") then INTER_LANCZOS4
  else INTER_CUBIC.

(** [upscale_if_needed] *)
Definition upscale_if_needed (image : ndarray) : result ndarray :=
  let height := shape0 image in
  let min_height := min_image_height settings in
  if (height >=? min_height)%Z then Ok image
  else
    scale <- int_truediv min_height height ;;
    new_width <- int_mul (shape1 image) scale ;;
    new_height <- int_mul height scale ;;
    cv2_resize image (new_width, new_height) interpolation_method.

(** The gray conversion shared by [enhance_contrast] and the sweep. *)
Definition to_gray (image : ndarray) : result ndarray :=
  if Nat.eqb (nd_ndim image) 3 then cv2_cvtColor_gray image else Ok image.

(** [enhance_contrast] *)
Definition enhance_contrast (image : ndarray) : result ndarray :=
  gray <- to_gray image ;;
  clahe_apply (clahe_clip_limit settings) (clahe_tile_size settings) gray.

(** [preprocess_for_ocr] *)
Definition preprocess_for_ocr (image : ndarray) : result ndarray :=
  upscaled <- upscale_if_needed image ;;
  enhance_contrast upscaled.

End Preprocessor.

(* ===================================================================== *)
(** * parser.py: VehicleParser *)
(* ===================================================================== *)

Record ExtractionResult := {
  file : pystr;
  reg_number : option pystr;
  vin : option pystr;
  body_number : option pystr
}.

(** A [pathlib.Path]: [str(path)] and [path.name]. *)
Record Path := { path_str : pystr; path_name : pystr }.

(** The cleaning and the window loop, from the upper-cased text on:
    [cleaned = re.sub(r'[^A-Z0-9]', '', text)] and the collection of the
    windows that match [VIN_PATTERN]. *)
Definition clean_text (text : pystr) : pystr := sub_class_empty not_AZ09 text.

Definition text_candidates (text : pystr) : list pystr :=
  window_candidates (clean_text text).

(** The presets of the sweep. *)
Definition clahe_params : list (float * Z) :=
  [(dec 2 1, 8%Z); (dec 3 1, 8%Z); (dec 2 1, 4%Z); (dec 15 10, 16%Z)].

Definition scale_factors (region : ndarray) : list float :=
  if (shape0 region >=? 200)%Z then [dec 1 1; dec 15 10; dec 2 1]
  else [dec 2 1; dec 25 10; dec 3 1].

Definition psm_modes : list Z := [3%Z; 6%Z; 11%Z].

Section Parser.

(** The Unicode tables of the interpreter: [str.upper], [str.isalpha]
    and [str.isdigit] on one character, and the regex class [\d]. *)
Variable str_upper : pystr -> pystr.
Variable isalpha isdigit : char -> bool.
Variable re_digit : char -> bool.

(** Tesseract behind [Image.fromarray] and
    [pytesseract.image_to_string(image, lang=lang, config='--psm N')]:
    the text, or the exception raised. *)
Variable ocr : ndarray -> pystr -> Z -> result pystr.

Variable cv2_resize : ndarray -> Z * Z -> interpolation -> result ndarray.
Variable cv2_cvtColor_gray : ndarray -> result ndarray.
Variable clahe_apply : float -> Z -> ndarray -> result ndarray.

(** [cv2.imread(path)]: [None] when the file cannot be read or decoded. *)
Variable cv2_imread : pystr -> option ndarray.

Variable settings : Settings.

(** [REG_NUMBER_PATTERN =
      re.compile(r'[АВЕКМНОРСТУХ]\d{3}[АВЕКМНОРСТУХ]{2}\d{2,3}')] *)
Definition REG_NUMBER_PATTERN : regex :=
  [Rep plate_letter 1 1; Rep re_digit 3 3; Rep plate_letter 2 2; Rep re_digit 2 3].

(** [_run_ocr]: [psm = psm or self.settings.tesseract_psm]. *)
Definition _run_ocr (image : ndarray) (psm : option Z) : result pystr :=
  let psm := match psm with
             | Some n => if (n =? 0)%Z then tesseract_psm settings else n
             | None => tesseract_psm settings
             end in
  ocr image (tesseract_lang settings) psm.

(** The fallback of [extract_reg_number], line by line. *)
Definition plate_fallback_line (line : pystr) : option pystr :=
  let cleaned := sub_class_empty not_cyr09 line in
  let len := Z.of_nat (length cleaned) in
  if ((min_reg_number_length settings <=? len)
      && (len <=? max_reg_number_length settings))%Z then
    let has_letters := search_class cyr_upper cleaned in
    let has_digits := search_class re_digit cleaned in
    if has_letters && has_digits then
      let letter_count := length (filter isalpha cleaned) in
      let digit_count := length (filter isdigit cleaned) in
      if (3 <=? letter_count) && (letter_count <=? 4)
         && (4 <=? digit_count) && (digit_count <=? 6)
      then Some cleaned else None
    else None
  else None.

Fixpoint plate_fallback (lines : list pystr) : option pystr :=
  match lines with
  | [] => None
  | line :: lines' =>
      match plate_fallback_line line with
      | Some cleaned => Some cleaned
      | None => plate_fallback lines'
      end
  end.

(** [extract_reg_number], from the normalized text on. *)
Definition plate_of_text (normalized : pystr) : option pystr :=
  match findall REG_NUMBER_PATTERN normalized with
  | m :: _ => Some (remove_char NL (remove_char SP m))
  | [] => plate_fallback (str_split NL normalized)
  end.

(** [extract_reg_number] *)
Definition extract_reg_number (image : ndarray) : result (option pystr) :=
  let height := shape0 image in
  region <- extract_region image (reg_number_region_start settings)
              (reg_number_region_end settings) ;;
  region <- (if (height <? min_image_height settings)%Z
             then upscale_if_needed cv2_resize settings region
             else Ok region) ;;
  processed <- enhance_contrast cv2_cvtColor_gray clahe_apply settings region ;;
  text <- _run_ocr processed None ;;
  let normalized := normalize_to_cyrillic (str_upper text) in
  Ok (plate_of_text normalized).

(** [vin_score]; [vin[0]] is read on candidates only, which have 17
    characters. *)
Definition vin_score (vin : pystr) : nat :=
  (match vin with
   | c :: _ => if isalpha c then 10 else 0
   | [] => 0
   end)
  + length (filter isdigit (slice 9 17 vin)).

(** What one pass of the [try] block adds to the candidates: the
    windows of the text, or nothing when the call raised
    ([except Exception: pass]). *)
Definition ocr_candidates (outcome : result pystr) : list pystr :=
  match outcome with
  | Ok text => text_candidates (str_upper text)
  | Raise _ => []
  end.

(** [extract_vin] *)
Definition extract_vin (image : ndarray) : result (option pystr) :=
  region <- extract_region image (vin_region_start settings)
              (vin_region_end settings) ;;
  region <- upscale_if_needed cv2_resize settings region ;;
  processed <- enhance_contrast cv2_cvtColor_gray clahe_apply settings region ;;
  let candidates :=
    fold_left
      (fun candidates psm =>
         candidates ++ ocr_candidates (_run_ocr processed (Some psm)))
      [3%Z; 6%Z] [] in
  Ok (py_max vin_score candidates).

(** [combined_score] of an item of the counter. *)
Definition combined_score (item : pystr * nat) : nat :=
  let '(candidate, count) := item in
  let struct_score :=
    (match candidate with
     | c :: _ => if isalpha c then 5 else 0
     | [] => 0
     end)
    + length (filter isdigit (slice 9 17 candidate)) in
  count * 10 + struct_score.

(** Lines 216-232: the consensus over the collected candidates. *)
Definition consensus (all_candidates : list pystr) : option pystr :=
  match py_max combined_score (Counter all_candidates) with
  | Some best => Some (fst best)
  | None => None
  end.

(** The body of the [scale] loop up to the enhanced image. *)
Definition enhanced_variant (region : ndarray) (clip_limit : float)
  (tile_size : Z) (scale : float) : result ndarray :=
  scaled <- (if negb (feqb scale (dec 1 1)) then
               new_h <- int_mul (shape0 region) scale ;;
               new_w <- int_mul (shape1 region) scale ;;
               cv2_resize region (new_w, new_h) INTER_CUBIC
             else Ok region) ;;
  gray <- to_gray cv2_cvtColor_gray scaled ;;
  clahe_apply clip_limit tile_size gray.

(** The [psm] loop. *)
Definition sweep_psm (enhanced : ndarray) (all_candidates : list pystr)
  : list pystr :=
  fold_left
    (fun all_candidates psm =>
       all_candidates ++ ocr_candidates (ocr enhanced (tesseract_lang settings) psm))
    psm_modes all_candidates.

(** The three nested loops. *)
Definition sweep (region : ndarray) : result (list pystr) :=
  foldM
    (fun all_candidates '(clip_limit, tile_size) =>
       foldM
         (fun all_candidates scale =>
            enhanced <- enhanced_variant region clip_limit tile_size scale ;;
            Ok (sweep_psm enhanced all_candidates))
         (scale_factors region) all_candidates)
    clahe_params [].

(** [_extract_with_multiple_strategies] *)
Definition _extract_with_multiple_strategies (image : ndarray)
  (region_start region_end : float) : result (option pystr) :=
  region <- extract_region image region_start region_end ;;
  all_candidates <- sweep region ;;
  Ok (consensus all_candidates).

(** [extract_body_number] *)
Definition extract_body_number (image : ndarray) : result (option pystr) :=
  _extract_with_multiple_strategies image
    (body_number_region_start settings) (body_number_region_end settings).

(** [parse_document] *)
Definition parse_document (image_path : Path) : result ExtractionResult :=
  match cv2_imread (path_str image_path) with
  | None =>
      Raise (ValueError (py "Не удалось прочитать изображение: "
                         ++ path_str image_path))
  | Some image =>
      reg_number <- extract_reg_number image ;;
      vin <- extract_vin image ;;
      body_number <- extract_body_number image ;;
      Ok {| file := path_name image_path;
            reg_number := reg_number;
            vin := vin;
            body_number := body_number |}
  end.

(** [ExtractionResult(file=name)] *)
Definition empty_result (name : pystr) : ExtractionResult :=
  {| file := name; reg_number := None; vin := None; body_number := None |}.

(** The line printed for a document that raised. *)
Definition error_line (image_file : Path) (e : exn) : pystr :=
  py "Ошибка обработки " ++ path_name image_file ++ py ": " ++ exn_str e.

(** The loop of [process_directory] over the sorted image files; the
    state is the list of results and the lines printed so far. *)
Definition process_directory (image_files : list Path)
  : list ExtractionResult * list pystr :=
  fold_left
    (fun '(results, stdout) image_file =>
       match parse_document image_file with
       | Ok result => (results ++ [result], stdout)
       | Raise e =>
           (results ++ [empty_result (path_name image_file)],
            stdout ++ [error_line image_file e])
       end)
    image_files ([], []).

End Parser.

(** A JSON value, as [to_dict] and [save_results] build them; a dict
    keeps its keys in the order of the literal. *)
#[warnings="-register-all"]
Inductive json :=
| JNull
| JStr (s : pystr)
| JInt (n : Z)
| JList (items : list json)
| JDict (entries : list (pystr * json)).

(** An [Optional[str]] field as a JSON value. *)
Definition json_of_field (field : option pystr) : json :=
  match field with
  | Some s => JStr s
  | None => JNull
  end.

(** [ExtractionResult.to_dict] *)
Definition to_dict (r : ExtractionResult) : json :=
  JDict [ (py "file", JStr (file r));
          (py "reg_number", json_of_field (reg_number r));
          (py "vin", json_of_field (vin r));
          (py "body_number", json_of_field (body_number r)) ].

(** The truth value of an [Optional[str]]: [None] and [''] are false. *)
Definition truthy (field : option pystr) : bool :=
  match field with
  | Some (_ :: _) => true
  | _ => false
  end.

(** [sum(1 for r in results if r.field)] *)
Definition found_count (field : ExtractionResult -> option pystr)
  (results : list ExtractionResult) : Z :=
  Z.of_nat (length (filter (fun r => truthy (field r)) results)).

(** [save_results]: the [output_data] it returns, which is also what it
    writes to the output file. *)
Definition save_results (results : list ExtractionResult) : json :=
  JDict [ (py "documents", JList (map to_dict results));
          (py "total_processed", JInt (Z.of_nat (length results)));
          (py "statistics",
           JDict [ (py "reg_numbers_found", JInt (found_count reg_number results));
                   (py "vins_found", JInt (found_count vin results));
                   (py "body_numbers_found", JInt (found_count body_number results)) ]);
          (py "version", JStr (py "1.0.0")) ].

(* ===================================================================== *)
(** * Test doubles for the libraries

    Total, computable stand-ins used to run the definitions on concrete
    inputs. On Basic Latin and on the Russian letters U+0410..U+044F they
    agree with the interpreter's tables. *)
(* ===================================================================== *)

Module Double.

Definition upper_char (c : char) : char :=
  if in_range "a" "z" c then (c - 32)%N
  else if in_range "а" "я" c then (c - 32)%N
  else c.

Definition str_upper (s : pystr) : pystr := map upper_char s.

Definition isdigit (c : char) : bool := in_range "0" "9" c.

Definition isalpha (c : char) : bool :=
  in_range "A" "Z" c || in_range "a" "z" c || in_range "А" "я" c.

(** A blank gray image of [h] rows and [w] columns. *)
Definition blank (h w : nat) : ndarray :=
  {| nd_rows := repeat (repeat [0%N] w) h; nd_width := w; nd_ndim := 2 |}.

(** [cv2.resize]: an image of the requested size; an empty size is an
    error. *)
Definition cv2_resize (image : ndarray) (dsize : Z * Z) (m : interpolation)
  : result ndarray :=
  let '(w, h) := dsize in
  if ((0 <? w) && (0 <? h))%Z then Ok (blank (Z.to_nat h) (Z.to_nat w))
  else Raise (OtherError (py "cv2.error")).

Definition cv2_cvtColor_gray (image : ndarray) : result ndarray :=
  Ok {| nd_rows := nd_rows image; nd_width := nd_width image; nd_ndim := 2 |}.

Definition clahe_apply (clip : float) (tile : Z) (image : ndarray)
  : result ndarray :=
  if (0 <? shape0 image)%Z then Ok image else Raise (OtherError (py "cv2.error")).

(** An engine that reads the same text on every call, a lowercase VIN
    among other words. *)
Definition ocr (image : ndarray) (lang : pystr) (psm : Z) : result pystr :=
  Ok (py "vin: wp1zzz9pz9la42290 /").

(** A file system with one unreadable file. *)
Definition cv2_imread (path : pystr) : option ndarray :=
  if pystr_eqb path (py "scans/bad.jpg") then None else Some (blank 2400 2).


(** Three readings, the second and third equal. *)
Definition readings : list pystr :=
  [py "P1ZZZ9PZ9LA422901"; py "WP1ZZZ9PZ9LA42290"; py "WP1ZZZ9PZ9LA42290"].

End Double.

(** More stand-ins: engines that read a plate, an engine that raises on
    every call, settings with an infinite ratio and a [cv2.resize] that
    raises. *)
Module Sample.

Definition ocr_plate (image : ndarray) (lang : pystr) (psm : Z) : result pystr :=
  Ok (py "peг.знак b883bo799 rus").

Definition ocr_fails (image : ndarray) (lang : pystr) (psm : Z) : result pystr :=
  Raise (OtherError (py "TesseractError")).

(** An engine that reads two lines, the second a plate with spaces in
    it. *)
Definition ocr_lines (image : ndarray) (lang : pystr) (psm : Z) : result pystr :=
  Ok (py "серия" ++ NL :: py "ав 1234 56е").


(** [cv2.resize] out of order. *)
Definition resize_fails (image : ndarray) (dsize : Z * Z) (m : interpolation)
  : result ndarray :=
  Raise (OtherError (py "cv2.error")).

End Sample.

(* ===================================================================== *)
(** * The notions the statements use *)
(* ===================================================================== *)

(** What the table does to one character read on its own. *)
Definition subst (table : list (char * char)) (c : char) : char :=
  match lookup c table with
  | Some v => v
  | None => c
  end.

(** One character through the successive replacements. *)
Definition chain (table : list (char * char)) (c : char) : char :=
  fold_left (fun x '(lat, cyr) => if char_eqb x lat then cyr else x) table c.

(** No value of the table is one of its keys. *)
Definition values_not_keys (table : list (char * char)) : bool :=
  forallb (fun '(_, v) => negb (is_some (lookup v table))) table.

(** The plate grammar in the words of the specification: one letter of
    the plate set, three digits, two letters of the set, two or three
    digits. *)
Definition plate_grammar (digit : char -> bool) (m : pystr) : bool :=
  match m with
  | l1 :: d1 :: d2 :: d3 :: l2 :: l3 :: region =>
      plate_letter l1 && (digit d1 && digit d2 && digit d3)
      && (plate_letter l2 && plate_letter l3)
      && ((length region =? 2) || (length region =? 3)) && forallb digit region
  | _ => false
  end.

(** The VIN alphabet in the words of the specification: a digit, or a
    Latin capital other than I, O and Q. *)
Definition vin_alphabet (c : char) : bool :=
  in_range "0" "9" c
  || (in_range "A" "Z" c
      && negb (char_eqb c (ch "I")) && negb (char_eqb c (ch "O"))
      && negb (char_eqb c (ch "Q"))).

(** The Latin capitals and the digits, what the cleaning keeps. *)
Definition latin_or_digit (c : char) : bool :=
  in_range "A" "Z" c || in_range "0" "9" c.

(** A candidate of the VIN shape: 17 characters of the VIN alphabet. *)
Definition vin_shaped (c : pystr) : Prop :=
  length c = 17 /\ forallb vin_alphabet c = true.

(** How often [c] was collected, and where it was first seen. *)
Definition occurrences (c : pystr) (xs : list pystr) : nat :=
  length (filter (pystr_eqb c) xs).

Fixpoint first_index (c : pystr) (xs : list pystr) : nat :=
  match xs with
  | [] => 0
  | x :: xs' => if pystr_eqb c x then 0 else S (first_index c xs')
  end.

(** The structural score in the words of the specification: 5 for an
    alphabetic first character, plus the digits among the final 8
    characters. *)
Definition final8 (c : pystr) : pystr := skipn (length c - 8) c.

Definition structural_score (isalpha isdigit : char -> bool) (c : pystr) : nat :=
  (match c with
   | x :: _ => if isalpha x then 5 else 0
   | [] => 0
   end)
  + length (filter isdigit (final8 c)).

Definition spec_score (isalpha isdigit : char -> bool) (all_candidates : list pystr)
  (c : pystr) : nat :=
  occurrences c all_candidates * 10 + structural_score isalpha isdigit c.

(** The winner in the words of the specification: a candidate of the
    highest combined score, first seen before every other candidate of
    that score. *)
Definition is_winner (isalpha isdigit : char -> bool) (all_candidates : list pystr)
  (w : pystr) : Prop :=
  In w all_candidates
  /\ forall c, In c all_candidates ->
                spec_score isalpha isdigit all_candidates c
                <= spec_score isalpha isdigit all_candidates w
                /\ (spec_score isalpha isdigit all_candidates c
                    = spec_score isalpha isdigit all_candidates w ->
                    first_index w all_candidates <= first_index c all_candidates).

(** A loop that collects one result per item, or raises at the first item
    that does. *)
Fixpoint mapM {A B} (f : A -> result B) (xs : list A) : result (list B) :=
  match xs with
  | [] => Ok []
  | x :: xs' => y <- f x ;; ys <- mapM f xs' ;; Ok (y :: ys)
  end.

(** The (contrast preset, scale) pairs of the sweep in loop order, the
    enhanced image of each, the OCR calls made on them (one per
    segmentation mode) and the outcomes of those calls. *)
Definition variants (region : ndarray) : list ((float * Z) * float) :=
  list_prod clahe_params (scale_factors region).

Definition enhanced_images
  (cv2_resize : ndarray -> Z * Z -> interpolation -> result ndarray)
  (cv2_cvtColor_gray : ndarray -> result ndarray)
  (clahe_apply : float -> Z -> ndarray -> result ndarray)
  (region : ndarray) : result (list ndarray) :=
  mapM (fun '((clip_limit, tile_size), scale) =>
          enhanced_variant cv2_resize cv2_cvtColor_gray clahe_apply
            region clip_limit tile_size scale)
       (variants region).

Definition ocr_calls (images : list ndarray) : list (ndarray * Z) :=
  list_prod images psm_modes.

Definition sweep_outcomes (ocr : ndarray -> pystr -> Z -> result pystr)
  (settings : Settings) (images : list ndarray) : list (result pystr) :=
  map (fun '(enhanced, psm) => ocr enhanced (tesseract_lang settings) psm)
      (ocr_calls images).

(** The selected body number as a function of the outcomes of the OCR
    calls, in the order of the calls. *)
Definition body_number_of_outcomes (str_upper : pystr -> pystr)
  (isalpha isdigit : char -> bool) (outcomes : list (result pystr)) : option pystr :=
  consensus isalpha isdigit (flat_map (ocr_candidates str_upper) outcomes).

(** Binary64 rounding, for the statements about [int(height * ratio)]. *)
Local Open Scope Z_scope.

(** The record after [k >= 1] steps from an exact [M]. *)
Definition shifted (M : Z) (k : Z) : shr_record :=
  Build_shr_record (M / 2 ^ k) (Z.testbit M (k - 1))
    (negb (M mod 2 ^ (k - 1) =? 0)).

(** [M / 2^k] rounded to the nearest integer, ties to even. *)
Definition rhe (M k : Z) : Z :=
  let q := M / 2 ^ k in
  let r := M mod 2 ^ k in
  let h := 2 ^ (k - 1) in
  if r <? h then q
  else if r =? h then (if Z.even q then q else q + 1)
  else q + 1.

(** The canonical exponent of [M * 2^e], and the mantissa and exponent
    it is rounded to. *)
Definition cexp (M e : Z) : Z := fexp prec emax (Zdigits2 M + e).
Definition rnd_mant (M e : Z) : Z :=
  if cexp M e <=? e then M else rhe M (cexp M e - e).
Definition rnd_exp (M e : Z) : Z := Z.max e (cexp M e).

(** The integer part of [M * 2^e] once rounded to binary64. *)
Definition rounded_int (M e : Z) : Z := Z.shiftl (rnd_mant M e) (rnd_exp M e).

(** The row index the model reads for [int(H * r)]. *)
Definition row_of (H : Z) (r : float) : Z :=
  match r with
  | S754_finite false m e => rounded_int (H * Zpos m) e
  | _ => 0
  end.



(** A ratio between 0 and 1. *)
Definition unit_ratio (r : float) : Prop :=
  is_float r = true
  /\ fleb (S754_zero false) r = true
  /\ fleb r (dec 1 1) = true.

Local Close Scope Z_scope.

(** The candidates other than [x], in order. *)
Definition others (x : pystr) (xs : list pystr) : list pystr :=
  filter (fun y => negb (pystr_eqb y x)) xs.

(** A key of the glyph table: a character [normalize_to_cyrillic]
    rewrites. *)
Definition table_key (c : char) : bool := is_some (lookup c char_map).

(** Whether a call raised. *)
Definition raised {A} (r : result A) : bool :=
  match r with
  | Raise _ => true
  | Ok _ => false
  end.

(** The number of results in which a field is set. *)
Definition set_count (field : ExtractionResult -> option pystr)
  (results : list ExtractionResult) : nat :=
  length (filter (fun r => is_some (field r)) results).

(** What the batch records and prints for one document. *)
Definition recorded (parsed : result ExtractionResult) (image_file : Path)
  : ExtractionResult :=
  match parsed with
  | Ok result => result
  | Raise _ => empty_result (path_name image_file)
  end.


(** The characters the plate fallback keeps: [А-Я] and [0-9]. *)
Definition cyr_or_digit (c : char) : bool :=
  in_range "А" "Я" c || in_range "0" "9" c.

(* ===================================================================== *)
(** * Glyph normalization *)
(* ===================================================================== *)

Lemma replaces_as_map (table : list (char * char)) (text : pystr) :
  fold_left (fun t '(lat, cyr) => replace1 lat cyr t) table text
  = map (chain table) text.
Proof.
  revert text. induction table as [|[lat cyr] table IH]; intros text; simpl.
  - unfold chain. simpl. now rewrite map_id.
  - rewrite IH. unfold replace1. rewrite map_map. reflexivity.
Qed.

Lemma lookup_tail_none (c k v : char) (table : list (char * char)) :
  lookup c ((k, v) :: table) = None -> lookup c table = None /\ c <> k.
Proof.
  simpl. unfold char_eqb. destruct (N.eqb_spec c k); [discriminate|auto].
Qed.

Lemma values_not_keys_tail (k v : char) (table : list (char * char)) :
  (forall k' v', In (k', v') ((k, v) :: table) -> lookup v' ((k, v) :: table) = None) ->
  forall k' v', In (k', v') table -> lookup v' table = None.
Proof.
  intros H k' v' Hin.
  apply (lookup_tail_none v' k v table). apply (H k' v'). now right.
Qed.

Lemma chain_subst (table : list (char * char)) :
  (forall k v, In (k, v) table -> lookup v table = None) ->
  forall c, chain table c = subst table c.
Proof.
  induction table as [|[k v] table IH]; intros Hvk c.
  - reflexivity.
  - specialize (IH (values_not_keys_tail k v table Hvk)).
    unfold chain. simpl. fold (chain table (if char_eqb c k then v else c)).
    rewrite IH. unfold subst. simpl. unfold char_eqb.
    destruct (N.eqb_spec c k) as [->|Hne]; [|reflexivity].
    destruct (lookup_tail_none v k v table (Hvk k v (or_introl eq_refl))) as [Hv _].
    now rewrite Hv.
Qed.

Lemma values_not_keys_sound (table : list (char * char)) :
  values_not_keys table = true ->
  forall k v, In (k, v) table -> lookup v table = None.
Proof.
  unfold values_not_keys. rewrite forallb_forall. intros H k v Hin.
  specialize (H (k, v) Hin). simpl in H.
  destruct (lookup v table); [discriminate|reflexivity].
Qed.

(** [normalize_to_cyrillic] rewrites each character on its own, by the
    table. *)
Lemma normalize_as_map (text : pystr) :
  normalize_to_cyrillic text = map (subst char_map) text.
Proof.
  unfold normalize_to_cyrillic. rewrite replaces_as_map.
  apply map_ext. apply chain_subst. apply values_not_keys_sound. reflexivity.
Qed.

Lemma lookup_none_above (bound c : char) (table : list (char * char)) :
  forallb (fun '(k, _) => (k <? bound)%N) table = true ->
  (bound <= c)%N -> lookup c table = None.
Proof.
  induction table as [|[k v] table IH]; simpl; intros Hk Hc; [reflexivity|].
  apply andb_prop in Hk. destruct Hk as [Hk Htl].
  apply N.ltb_lt in Hk. unfold char_eqb.
  destruct (N.eqb_spec c k); [lia|]. now apply IH.
Qed.

Lemma lookup_in (c v : char) (table : list (char * char)) :
  lookup c table = Some v -> In (c, v) table.
Proof.
  induction table as [|[k w] table IH]; simpl; [discriminate|].
  unfold char_eqb. destruct (N.eqb_spec c k) as [->|].
  - intros [= ->]. now left.
  - intros H. right. now apply IH.
Qed.

(** A normalized character is never a key of the table again. *)
Lemma subst_fixed (c : char) : subst char_map (subst char_map c) = subst char_map c.
Proof.
  unfold subst at 2 3. destruct (lookup c char_map) as [v|] eqn:E.
  - unfold subst.
    now rewrite (values_not_keys_sound char_map eq_refl c v (lookup_in _ _ _ E)).
  - unfold subst. now rewrite E.
Qed.

(** C5. Glyph normalization rewrites every character by the table
    whatever surrounds it: a key of the table becomes its Cyrillic value
    ([lookup] reads the entry of a key, and no key occurs twice), and the
    text before and after is normalized on its own. Text made of Cyrillic
    characters is left as it is, and normalizing twice is normalizing
    once. The keys are the Latin capitals O B A E K M H P C T Y X, their
    lowercase forms and the digit 0, which goes to the Cyrillic capital О.
    ["B883BO799"] becomes ["В883ВО799"], which contains the Cyrillic В and
    О. *)
Theorem normalize_to_cyrillic_table :
  (forall before k v after,
      lookup k char_map = Some v ->
      normalize_to_cyrillic (before ++ k :: after)
      = normalize_to_cyrillic before ++ v :: normalize_to_cyrillic after)
  /\ (forall text, forallb is_cyrillic text = true ->
                   normalize_to_cyrillic text = text)
  /\ (forall text, normalize_to_cyrillic (normalize_to_cyrillic text)
                   = normalize_to_cyrillic text)
  /\ map fst char_map = py "Oo0BbAaEeKkMmHhPpCcTtYyXx"
  /\ map snd char_map = py "ОоОВвАаЕеКкМмНнРрСсТтУуХх"
  /\ NoDup (map fst char_map)
  /\ normalize_to_cyrillic (py "B883BO799") = py "В883ВО799"
  /\ contains (ch "В") (normalize_to_cyrillic (py "B883BO799")) = true
  /\ contains (ch "О") (normalize_to_cyrillic (py "B883BO799")) = true.
Proof.
  split; [|split; [|split]].
  - intros before k v after Hk. rewrite !normalize_as_map, map_app. simpl.
    unfold subst at 2. now rewrite Hk.
  - intros text Hcyr. rewrite normalize_as_map.
    rewrite <- (map_id text) at 2. apply map_ext_in. intros c Hc.
    rewrite forallb_forall in Hcyr. specialize (Hcyr c Hc).
    unfold is_cyrillic in Hcyr. apply andb_prop in Hcyr. destruct Hcyr as [Hlo _].
    apply N.leb_le in Hlo. unfold subst.
    rewrite (lookup_none_above 128%N c char_map); [reflexivity|reflexivity|lia].
  - intros text. rewrite !normalize_as_map, map_map. apply map_ext.
    apply subst_fixed.
  - repeat split; try reflexivity.
    vm_compute. repeat constructor; simpl; intuition discriminate.
Qed.

Lemma normalize_to_cyrillic_table_witness :
  lookup (ch "B") char_map = Some (ch "В")
  /\ normalize_to_cyrillic (py "88" ++ ch "B" :: py "O7")
     = normalize_to_cyrillic (py "88") ++ ch "В" :: normalize_to_cyrillic (py "O7")
  /\ forallb is_cyrillic (py "ВОА") = true
  /\ normalize_to_cyrillic (py "ВОА") = py "ВОА".
Proof.
  split; [reflexivity|]. split.
  - apply (proj1 normalize_to_cyrillic_table). reflexivity.
  - split; [reflexivity|].
    apply (proj1 (proj2 normalize_to_cyrillic_table)). reflexivity.
Defined.


(* ===================================================================== *)
(** * The matcher *)
(* ===================================================================== *)

Lemma span_upto_le (c : char -> bool) (n : nat) (s : pystr) :
  span_upto c n s <= n.
Proof.
  revert s. induction n as [|n IH]; intros [|x s]; simpl; try lia.
  destruct (c x); [specialize (IH s)|]; lia.
Qed.

Lemma try_counts_below (rest : pystr -> option nat) (lo : nat) (s : pystr) (k : nat) :
  k < lo -> try_counts rest lo s k = None.
Proof.
  induction k as [|k IH]; intros Hk; simpl.
  - destruct (Nat.leb_spec lo 0); [lia|reflexivity].
  - destruct (Nat.leb_spec lo (S k)); [lia|]. apply IH. lia.
Qed.

(** An atom with a fixed count [{n}] takes exactly [n] characters. *)
Lemma match_here_fixed (c : char -> bool) (n : nat) (p : regex) (s : pystr) :
  match_here (Rep c n n :: p) s
  = if span_upto c n s =? n then
      match match_here p (skipn n s) with
      | Some r => Some (n + r)
      | None => None
      end
    else None.
Proof.
  simpl. pose proof (span_upto_le c n s) as Hle.
  destruct (Nat.eqb_spec (span_upto c n s) n) as [->|Hne].
  - destruct n as [|n]; simpl.
    + now destruct (match_here p s).
    + rewrite Nat.leb_refl. destruct (match_here p _); [reflexivity|].
      apply try_counts_below. lia.
  - apply try_counts_below. lia.
Qed.

(** The last atom of a pattern keeps its greedy count. *)
Lemma match_here_last (c : char -> bool) (lo hi : nat) (s : pystr) :
  match_here [Rep c lo hi] s
  = if lo <=? span_upto c hi s then Some (span_upto c hi s) else None.
Proof.
  simpl. destruct (Nat.leb_spec lo (span_upto c hi s)) as [Hle|Hlt].
  - destruct (span_upto c hi s) as [|k]; simpl.
    + apply Nat.leb_le in Hle. rewrite Hle. reflexivity.
    + apply Nat.leb_le in Hle. rewrite Hle. f_equal. lia.
  - now apply try_counts_below.
Qed.

Lemma span_upto_all (c : char -> bool) (n : nat) (s : pystr) :
  span_upto c n s = n <-> n <= length s /\ forallb c (firstn n s) = true.
Proof.
  revert s. induction n as [|n IH]; intros s.
  - simpl. split; [intros _; split; [lia|reflexivity]|reflexivity].
  - destruct s as [|x s]; simpl.
    + split; [discriminate|lia].
    + destruct (c x); simpl.
      * rewrite <- Nat.succ_le_mono, <- IH. split; [now intros [= ->]|now intros ->].
      * split; [discriminate|intros [_ H]; discriminate].
Qed.

(** [findall] starts with the leftmost match. *)
Lemma findall_first (p : regex) (before after : pystr) (n : nat) :
  match_here p after = Some n ->
  (forall i, i < length before -> match_here p (skipn i (before ++ after)) = None) ->
  exists more, findall p (before ++ after) = firstn n after :: more.
Proof.
  unfold findall. induction before as [|x before IH]; intros Hm Hnone.
  - simpl. destruct after as [|y after].
    + simpl. rewrite Hm. destruct n; simpl; eauto.
    + simpl findall_from. rewrite Hm. eauto.
  - simpl app. simpl findall_from.
    pose proof (Hnone 0 ltac:(simpl; lia)) as H0. simpl in H0. rewrite H0.
    apply IH; [exact Hm|]. intros i Hi.
    apply (Hnone (S i)). simpl. lia.
Qed.

(** A pattern that matches nowhere finds nothing. *)
Lemma findall_none (p : regex) (s : pystr) :
  (forall i, i <= length s -> match_here p (skipn i s) = None) ->
  findall p s = [].
Proof.
  unfold findall. induction s as [|x s IH]; intros Hnone.
  - pose proof (Hnone 0 (Nat.le_refl _)) as H0. simpl in *. now rewrite H0.
  - simpl findall_from. pose proof (Hnone 0 ltac:(lia)) as H0. simpl in H0.
    rewrite H0. apply IH. intros i Hi. apply (Hnone (S i)). simpl. lia.
Qed.

(* ===================================================================== *)
(** * The plate pattern and plate extraction *)
(* ===================================================================== *)

Section PlatePattern.

Variable isalpha isdigit re_digit : char -> bool.
Variable settings : Settings.

(** The interpreter's [str.upper], the OCR engine and the image
    libraries, as [extract_reg_number] calls them. *)
Variable str_upper : pystr -> pystr.
Variable ocr : ndarray -> pystr -> Z -> result pystr.
Variable cv2_resize : ndarray -> Z * Z -> interpolation -> result ndarray.
Variable cv2_cvtColor_gray : ndarray -> result ndarray.
Variable clahe_apply : float -> Z -> ndarray -> result ndarray.

(** What the statements below use of the Unicode tables: the ten ASCII
    digits are decimal digits, and no letter is one. *)
Hypothesis ascii_digits : forall c, in_range "0" "9" c = true -> re_digit c = true.
Hypothesis letters_not_digits : forall c, isalpha c = true -> re_digit c = false.

Local Notation "'REG'" := (REG_NUMBER_PATTERN re_digit).

Lemma reg_match_unfold (s : pystr) :
  match_here REG s
  = if span_upto plate_letter 1 s =? 1 then
      match
        (if span_upto re_digit 3 (skipn 1 s) =? 3 then
           match
             (if span_upto plate_letter 2 (skipn 3 (skipn 1 s)) =? 2 then
                match
                  (if 2 <=? span_upto re_digit 3 (skipn 2 (skipn 3 (skipn 1 s)))
                   then Some (span_upto re_digit 3 (skipn 2 (skipn 3 (skipn 1 s))))
                   else None)
                with Some r => Some (2 + r) | None => None end
              else None)
           with Some r => Some (3 + r) | None => None end
         else None)
      with Some r => Some (1 + r) | None => None end
    else None.
Proof.
  unfold REG_NUMBER_PATTERN. now rewrite !match_here_fixed, match_here_last.
Qed.

Ltac split_ifs :=
  repeat (simpl;
          match goal with
          | |- context [if ?b then _ else _] =>
              lazymatch b with
              | plate_letter _ => destruct b eqn:?
              | re_digit _ => destruct b eqn:?
              end
          end); simpl.

Ltac split_ands :=
  repeat match goal with
         | H : _ && _ = true |- _ => apply andb_prop in H; destruct H
         end.

Local Opaque plate_letter.

(** What the pattern matches is a word of the grammar, at the start of
    the text. *)
Lemma reg_match_grammar (s : pystr) (n : nat) :
  match_here REG s = Some n ->
  plate_grammar re_digit (firstn n s) = true /\ n <= length s.
Proof.
  rewrite reg_match_unfold.
  destruct s as [|l1 [|d1 [|d2 [|d3 [|l2 [|l3 [|d4 [|d5 rest]]]]]]]];
    split_ifs; try discriminate.
  destruct rest as [|d6 rest]; split_ifs; intros [= <-]; simpl;
    repeat match goal with H : _ = true |- _ => rewrite H end;
    split; try reflexivity; lia.
Qed.

(** A word of the grammar is matched whole. *)
Lemma grammar_reg_match (m : pystr) :
  plate_grammar re_digit m = true -> re_match REG m = Some m.
Proof.
  unfold re_match. rewrite reg_match_unfold.
  destruct m as [|l1 [|d1 [|d2 [|d3 [|l2 [|l3 region]]]]]]; try discriminate.
  unfold plate_grammar.
  destruct region as [|d4 [|d5 [|d6 [|d7 region]]]]; simpl;
    try (rewrite !andb_false_r; discriminate).
  - intros H. split_ands.
    repeat match goal with H : _ = true |- _ => rewrite H end. reflexivity.
  - intros H. split_ands.
    repeat match goal with H : _ = true |- _ => rewrite H end. reflexivity.
Qed.

Lemma all_letters_no_match (s : pystr) :
  forallb isalpha s = true -> match_here REG s = None.
Proof.
  intros Hs. rewrite reg_match_unfold.
  destruct s as [|l1 [|d1 s]]; split_ifs; try reflexivity.
  simpl in Hs. apply andb_prop in Hs. destruct Hs as [_ Hs].
  apply andb_prop in Hs. destruct Hs as [Hd _].
  apply letters_not_digits in Hd. congruence.
Qed.

Local Transparent plate_letter.

Lemma forallb_skipn (f : char -> bool) (i : nat) (s : pystr) :
  forallb f s = true -> forallb f (skipn i s) = true.
Proof.
  revert s. induction i as [|i IH]; intros [|x s]; simpl; auto.
  intros H. apply andb_prop in H. now apply IH.
Qed.

(** C9. The plate pattern is the grammar "one letter of the Cyrillic
    plate set, three digits, two letters of the set, two or three digits":
    what it matches is such a word and every such word is matched whole.
    It accepts ["А123АА77"] and ["В883ВО799"]; it rejects ["12345"] and
    every string of letters only, at the start and at any other position.
    When the normalized text holds a match, plate extraction returns the
    leftmost one with spaces and newlines removed: [extract_reg_number]
    cuts the plate region, upscales it on a small page, enhances it and
    reads it with the configured language and segmentation mode; the
    text is upper-cased and normalized, and when the normalized text is
    [before ++ after] with a match at the start of [after] and none
    starting in [before], the function returns that match with spaces
    and newlines removed. *)
Theorem plate_pattern_and_extraction :
  re_match REG (py "А123АА77") = Some (py "А123АА77")
  /\ re_match REG (py "В883ВО799") = Some (py "В883ВО799")
  /\ re_match REG (py "12345") = None
  /\ (forall s, forallb isalpha s = true ->
                re_match REG s = None /\ findall REG s = [])
  /\ (forall s m, re_match REG s = Some m ->
                  plate_grammar re_digit m = true
                  /\ exists after, s = m ++ after)
  /\ (forall m, plate_grammar re_digit m = true -> re_match REG m = Some m)
  /\ (forall before after m,
         re_match REG after = Some m ->
         (forall i, i < length before ->
                    re_match REG (skipn i (before ++ after)) = None) ->
         plate_of_text isalpha isdigit re_digit settings (before ++ after)
         = Some (remove_char NL (remove_char SP m)))
  /\ (forall image region sized processed text before after m,
         extract_region image (reg_number_region_start settings)
           (reg_number_region_end settings) = Ok region ->
         (if (shape0 image <? min_image_height settings)%Z
          then upscale_if_needed cv2_resize settings region
          else Ok region) = Ok sized ->
         enhance_contrast cv2_cvtColor_gray clahe_apply settings sized
         = Ok processed ->
         ocr processed (tesseract_lang settings) (tesseract_psm settings)
         = Ok text ->
         normalize_to_cyrillic (str_upper text) = before ++ after ->
         re_match REG after = Some m ->
         (forall i, i < length before ->
                    re_match REG (skipn i (before ++ after)) = None) ->
         extract_reg_number str_upper isalpha isdigit re_digit ocr cv2_resize
           cv2_cvtColor_gray clahe_apply settings image
         = Ok (Some (remove_char NL (remove_char SP m)))).
Proof.
  assert (Hacc : forall m, plate_grammar re_digit m = true -> re_match REG m = Some m)
    by exact grammar_reg_match.
  assert (Hfirst : forall before after m,
             re_match REG after = Some m ->
             (forall i, i < length before ->
                        re_match REG (skipn i (before ++ after)) = None) ->
             plate_of_text isalpha isdigit re_digit settings (before ++ after)
             = Some (remove_char NL (remove_char SP m))).
  { intros before after m. unfold re_match.
    destruct (match_here REG after) as [n|] eqn:E; [|discriminate].
    intros [= <-] Hnone. unfold plate_of_text.
    destruct (findall_first REG before after n E) as [more ->]; [|reflexivity].
    intros i Hi. specialize (Hnone i Hi).
    destruct (match_here REG (skipn i (before ++ after))); [discriminate|reflexivity]. }
  split; [|split; [|split; [|split; [|split; [|split; [|split]]]]]].
  - apply Hacc. simpl. rewrite !ascii_digits by reflexivity. reflexivity.
  - apply Hacc. simpl. rewrite !ascii_digits by reflexivity. reflexivity.
  - reflexivity.
  - intros s Hs. split.
    + unfold re_match. now rewrite all_letters_no_match.
    + apply findall_none. intros i _. apply all_letters_no_match.
      now apply forallb_skipn.
  - intros s m. unfold re_match.
    destruct (match_here REG s) as [n|] eqn:E; [|discriminate].
    intros [= <-]. destruct (reg_match_grammar s n E) as [Hg Hn].
    split; [exact Hg|]. exists (skipn n s). now rewrite firstn_skipn.
  - exact Hacc.
  - exact Hfirst.
  - intros image region sized processed text before after m
      Hregion Hsized Hprocessed Hocr Htext Hm Hnone.
    unfold extract_reg_number. rewrite Hregion. cbn [bind].
    rewrite Hsized. cbn [bind]. rewrite Hprocessed. cbn [bind].
    unfold _run_ocr. rewrite Hocr. cbn [bind].
    rewrite Htext. f_equal. now apply Hfirst.
Qed.

End PlatePattern.

(* ===================================================================== *)
(** * Cleaning, windows and candidates *)
(* ===================================================================== *)

(** Character literals and ranges as numbers. *)
Ltac eval_chars :=
  repeat match goal with
         | |- context [ch ?s] =>
             let v := eval vm_compute in (ch s) in change (ch s) with v
         | H : context [ch ?s] |- _ =>
             let v := eval vm_compute in (ch s) in change (ch s) with v in H
         end.

Ltac bool_to_nat_N :=
  unfold in_range, char_eqb in *; eval_chars;
  repeat match goal with
         | |- context [(?a <=? ?b)%N] => destruct (N.leb_spec a b)
         | |- context [(?a =? ?b)%N] => destruct (N.eqb_spec a b)
         | H : context [(?a <=? ?b)%N] |- _ => destruct (N.leb_spec a b)
         | H : context [(?a =? ?b)%N] |- _ => destruct (N.eqb_spec a b)
         end;
  simpl in *; try reflexivity; try discriminate; try lia.

(** A property of characters checked on the 128 ASCII code points. *)
Lemma ascii_cases (P : char -> bool) :
  forallb P (map N.of_nat (seq 0 128)) = true ->
  forall c, (c < 128)%N -> P c = true.
Proof.
  intros Hall c Hc. rewrite forallb_forall in Hall. apply Hall.
  apply in_map_iff. exists (N.to_nat c). split; [apply N2Nat.id|].
  apply in_seq. lia.
Qed.

Lemma in_range_above (lo hi : string) (c : char) :
  (ch hi < c)%N -> in_range lo hi c = false.
Proof.
  intros H. unfold in_range. apply andb_false_intro2. now apply N.leb_gt.
Qed.

(** The class of [VIN_PATTERN] is the VIN alphabet. *)
Lemma vin_char_alphabet (c : char) : vin_char c = vin_alphabet c.
Proof.
  destruct (N.ltb_spec c 128) as [Hlt|Hge].
  - apply eqb_prop.
    apply (ascii_cases (fun c => Bool.eqb (vin_char c) (vin_alphabet c)));
      [vm_compute; reflexivity|exact Hlt].
  - unfold vin_char, vin_alphabet.
    rewrite !in_range_above by (vm_compute (ch _); lia).
    unfold char_eqb. destruct (N.eqb_spec c (ch "P")) as [E|_]; [|reflexivity].
    vm_compute in E. lia.
Qed.

Lemma clean_text_kept (text : pystr) :
  clean_text text = filter latin_or_digit text.
Proof.
  unfold clean_text, sub_class_empty, not_AZ09, latin_or_digit.
  apply filter_ext. intros c. now rewrite negb_involutive.
Qed.

Lemma clean_text_chars (text : pystr) :
  forallb latin_or_digit (clean_text text) = true.
Proof.
  rewrite clean_text_kept, forallb_forall. intros c Hc.
  now apply filter_In in Hc.
Qed.

Lemma in_windows (cleaned w : pystr) :
  In w (windows cleaned)
  <-> exists i, i + 17 <= length cleaned /\ w = slice i (i + 17) cleaned.
Proof.
  unfold windows. rewrite in_map_iff. split.
  - intros (i & <- & Hi). apply in_seq in Hi. exists i. split; [lia|reflexivity].
  - intros (i & Hi & ->). exists i. split; [reflexivity|]. apply in_seq. lia.
Qed.

Lemma slice_length (i j : nat) (s : pystr) :
  j <= length s -> length (slice i j s) = j - i.
Proof.
  intros Hj. unfold slice. rewrite length_firstn, length_skipn. lia.
Qed.

Lemma forallb_firstn (f : char -> bool) (n : nat) (s : pystr) :
  forallb f s = true -> forallb f (firstn n s) = true.
Proof.
  revert s. induction n as [|n IH]; intros [|x s]; simpl; auto.
  intros H. apply andb_prop in H. destruct H as [-> H]. now apply IH.
Qed.

Lemma window_shape (cleaned w : pystr) :
  In w (windows cleaned) -> length w = 17.
Proof.
  rewrite in_windows. intros (i & Hi & ->). rewrite slice_length; lia.
Qed.

Lemma window_chars (f : char -> bool) (cleaned w : pystr) :
  forallb f cleaned = true -> In w (windows cleaned) -> forallb f w = true.
Proof.
  intros Hf. rewrite in_windows. intros (i & Hi & ->). unfold slice.
  apply forallb_firstn. now apply forallb_skipn.
Qed.

(** [VIN_PATTERN.match] on a string of 17 characters checks each of them
    against the VIN alphabet. *)
Lemma vin_pattern_match (w : pystr) :
  length w = 17 ->
  is_some (re_match VIN_PATTERN w) = forallb vin_alphabet w.
Proof.
  intros Hw. unfold re_match, VIN_PATTERN. rewrite match_here_last.
  assert (Hext : forallb vin_alphabet w = forallb vin_char w).
  { clear Hw. induction w as [|x w IH]; simpl; [reflexivity|].
    now rewrite IH, vin_char_alphabet. }
  rewrite Hext.
  destruct (forallb vin_char w) eqn:Hall.
  - assert (Hs : span_upto vin_char 17 w = 17).
    { apply span_upto_all. split; [lia|]. now apply forallb_firstn. }
    rewrite Hs. reflexivity.
  - destruct (Nat.leb_spec 17 (span_upto vin_char 17 w)) as [Hle|Hlt]; [|reflexivity].
    pose proof (span_upto_le vin_char 17 w) as Hup.
    assert (Hs : span_upto vin_char 17 w = 17) by lia.
    apply span_upto_all in Hs. destruct Hs as [_ Hs].
    rewrite <- Hw, firstn_all in Hs. congruence.
Qed.

(** The candidates of a cleaned text are its windows over the VIN
    alphabet. *)
Lemma in_window_candidates (cleaned c : pystr) :
  In c (window_candidates cleaned)
  <-> In c (windows cleaned) /\ forallb vin_alphabet c = true.
Proof.
  unfold window_candidates. rewrite filter_In. split.
  - intros [Hw Hm]. split; [exact Hw|].
    now rewrite <- (vin_pattern_match c (window_shape cleaned c Hw)).
  - intros [Hw Hm]. split; [exact Hw|].
    now rewrite (vin_pattern_match c (window_shape cleaned c Hw)).
Qed.

Lemma text_candidates_shaped (text c : pystr) :
  In c (text_candidates text) -> vin_shaped c.
Proof.
  unfold text_candidates. rewrite in_window_candidates. intros [Hw Hc].
  split; [now apply (window_shape _ _ Hw)|exact Hc].
Qed.

Lemma ocr_candidates_shaped (str_upper : pystr -> pystr) (o : result pystr) (c : pystr) :
  In c (ocr_candidates str_upper o) -> vin_shaped c.
Proof.
  destruct o as [text|e]; simpl; [apply text_candidates_shaped|contradiction].
Qed.

(** C2 as stated fails: the cleaning keeps I, O and Q, so a window of the
    cleaned text can hold one of them. Here the cleaned text is the test
    string with an O, its only window is the string itself, and only the
    match against [VIN_PATTERN] keeps it out of the candidates. *)
Lemma cleaning_keeps_I_O_Q :
  ~ (forall text w, In w (windows (clean_text (Double.str_upper text))) ->
                    forallb vin_alphabet w = true).
Proof.
  intros H.
  specialize (H (py "WP1ZZZ9PZOLA42290") (py "WP1ZZZ9PZOLA42290")).
  assert (Hin : In (py "WP1ZZZ9PZOLA42290")
                  (windows (clean_text (Double.str_upper (py "WP1ZZZ9PZOLA42290"))))).
  { vm_compute. left. reflexivity. }
  specialize (H Hin). vm_compute in H. discriminate.
Qed.

(** C2, amended. In VIN extraction the upper-cased text is cleaned of
    every character that is not a Latin capital A-Z or a digit 0-9; I, O
    and Q are kept. Every window of the cleaned text has 17 characters,
    all Latin capitals or digits, and the candidates are exactly the
    windows that pass the match against [VIN_PATTERN], that is the windows
    over the VIN alphabet. *)
Theorem cleaning_then_pattern (str_upper : pystr -> pystr) (text : pystr) :
  let cleaned := clean_text (str_upper text) in
  cleaned = filter latin_or_digit (str_upper text)
  /\ forallb latin_or_digit cleaned = true
  /\ clean_text (py "IOQ") = py "IOQ"
  /\ (forall w, In w (windows cleaned) <->
                exists i, i + 17 <= length cleaned /\ w = slice i (i + 17) cleaned)
  /\ (forall w, In w (windows cleaned) ->
                length w = 17 /\ forallb latin_or_digit w = true)
  /\ (forall c, In c (ocr_candidates str_upper (Ok text))
                <-> In c (windows cleaned)
                    /\ is_some (re_match VIN_PATTERN c) = true)
  /\ (forall c, In c (ocr_candidates str_upper (Ok text))
                <-> In c (windows cleaned) /\ forallb vin_alphabet c = true).
Proof.
  intros cleaned. subst cleaned.
  split; [apply clean_text_kept|].
  split; [apply clean_text_chars|].
  split; [reflexivity|].
  split; [intros w; apply in_windows|].
  split.
  - intros w Hw. split; [now apply (window_shape _ _ Hw)|].
    apply (window_chars latin_or_digit _ _ (clean_text_chars _) Hw).
  - split.
    + intros c. simpl. unfold text_candidates, window_candidates.
      now rewrite filter_In.
    + intros c. simpl. unfold text_candidates. apply in_window_candidates.
Qed.

(* ===================================================================== *)
(** * The counter and the maximum *)
(* ===================================================================== *)

Lemma pystr_eqb_spec (a b : pystr) : reflect (a = b) (pystr_eqb a b).
Proof.
  revert b. induction a as [|x a IH]; intros [|y b]; simpl;
    try (constructor; congruence).
  unfold char_eqb. destruct (N.eqb_spec x y) as [->|Hne]; simpl.
  - destruct (IH b) as [->|Hne]; constructor; congruence.
  - constructor. congruence.
Qed.

Lemma pystr_eqb_refl (a : pystr) : pystr_eqb a a = true.
Proof. now destruct (pystr_eqb_spec a a). Qed.

(** The counter, read from the left: the first candidate with all its
    occurrences, then the counter of the others. *)
Lemma counter_fold_head (x : pystr) (xs : list pystr) (n : nat) (d : list (pystr * nat)) :
  fold_left (fun d k => counter_add k d) xs ((x, n) :: d)
  = (x, n + occurrences x xs)
      :: fold_left (fun d k => counter_add k d) (others x xs) d.
Proof.
  revert n d. induction xs as [|y xs IH]; intros n d.
  - simpl. now rewrite Nat.add_0_r.
  - unfold occurrences, others. simpl.
    destruct (pystr_eqb_spec y x) as [->|Hne].
    + rewrite pystr_eqb_refl. simpl. rewrite IH. unfold occurrences, others.
      f_equal. f_equal. lia.
    + destruct (pystr_eqb_spec x y) as [->|_]; [congruence|]. simpl.
      now rewrite IH.
Qed.

Lemma Counter_cons (x : pystr) (xs : list pystr) :
  Counter (x :: xs) = (x, S (occurrences x xs)) :: Counter (others x xs).
Proof. unfold Counter. simpl. now rewrite counter_fold_head. Qed.

Lemma others_length (x : pystr) (xs : list pystr) : length (others x xs) <= length xs.
Proof. apply filter_length_le. Qed.

Lemma in_others (x y : pystr) (xs : list pystr) :
  In y (others x xs) <-> In y xs /\ y <> x.
Proof.
  unfold others. rewrite filter_In.
  destruct (pystr_eqb_spec y x); simpl; intuition congruence.
Qed.

Lemma occurrences_others (x y : pystr) (xs : list pystr) :
  y <> x -> occurrences y (others x xs) = occurrences y xs.
Proof.
  intros Hne. unfold occurrences, others.
  induction xs as [|z xs IH]; simpl; [reflexivity|].
  destruct (pystr_eqb_spec z x) as [->|Hzx]; simpl.
  - destruct (pystr_eqb_spec y x); [congruence|exact IH].
  - destruct (pystr_eqb y z); simpl; now rewrite IH.
Qed.

Lemma occurrences_cons_same (x : pystr) (xs : list pystr) :
  occurrences x (x :: xs) = S (occurrences x xs).
Proof. unfold occurrences. simpl. now rewrite pystr_eqb_refl. Qed.

Lemma occurrences_cons_other (x y : pystr) (xs : list pystr) :
  y <> x -> occurrences y (x :: xs) = occurrences y xs.
Proof.
  intros Hne. unfold occurrences. simpl.
  destruct (pystr_eqb_spec y x); [congruence|reflexivity].
Qed.

(** Induction on a list through [others]. *)
Lemma others_ind (P : list pystr -> Prop) :
  P [] ->
  (forall x xs, P (others x xs) -> P (x :: xs)) ->
  forall xs, P xs.
Proof.
  intros Hnil Hcons xs.
  assert (H : forall n xs, length xs <= n -> P xs).
  { clear xs. induction n as [|n IH]; intros [|x xs] Hlen; simpl in Hlen;
      try exact Hnil; try lia.
    apply Hcons. apply IH. pose proof (others_length x xs). lia. }
  apply (H (length xs) xs). lia.
Qed.

(** The items of the counter are the distinct candidates with their
    numbers of occurrences. *)
Lemma in_Counter (xs : list pystr) (k : pystr) (n : nat) :
  In (k, n) (Counter xs) <-> In k xs /\ n = occurrences k xs.
Proof.
  revert k n. induction xs as [|x xs IH] using others_ind; intros k n.
  - simpl. intuition.
  - rewrite Counter_cons. simpl. rewrite IH, in_others. split.
    + intros [[= <- <-]|[[Hin Hne] ->]].
      * split; [now left|now rewrite occurrences_cons_same].
      * split; [now right|].
        now rewrite occurrences_others, occurrences_cons_other.
    + intros [[<-|Hin] ->].
      * left. now rewrite occurrences_cons_same.
      * destruct (pystr_eqb_spec k x) as [->|Hne].
        -- left. now rewrite occurrences_cons_same.
        -- right. split; [now split|].
           now rewrite occurrences_others, occurrences_cons_other.
Qed.

Lemma first_index_others (x a b : pystr) (xs : list pystr) :
  first_index a (others x xs) < first_index b (others x xs) ->
  a <> x -> b <> x ->
  first_index a xs < first_index b xs.
Proof.
  intros H Ha Hb. revert H. unfold others.
  induction xs as [|y xs IH]; simpl; [lia|].
  destruct (pystr_eqb_spec y x) as [->|Hyx]; simpl.
  - destruct (pystr_eqb_spec a x); [congruence|].
    destruct (pystr_eqb_spec b x); [congruence|]. intros H. apply IH in H. lia.
  - destruct (pystr_eqb_spec a y), (pystr_eqb_spec b y); lia.
Qed.

Lemma StronglySorted_transport {A} (R R' : A -> A -> Prop) (P : A -> Prop)
  (l : list A) :
  (forall a b, P a -> P b -> R a b -> R' a b) ->
  Forall P l -> StronglySorted R l -> StronglySorted R' l.
Proof.
  intros HR HP Hs. induction Hs as [|a l Hs IH Hall]; [constructor|].
  inversion HP as [|? ? Ha HPl]; subst.
  constructor; [now apply IH|].
  rewrite Forall_forall in *. intros b Hb. apply HR; auto.
Qed.

(** The counter keeps its keys in the order in which they were first
    seen. *)
Lemma Counter_sorted (xs : list pystr) :
  StronglySorted
    (fun a b => first_index (fst a) xs < first_index (fst b) xs) (Counter xs).
Proof.
  induction xs as [|x xs IH] using others_ind.
  - constructor.
  - assert (Hkeys : Forall (fun item => fst item <> x) (Counter (others x xs))).
    { apply Forall_forall. intros [k n] Hin.
      apply in_Counter in Hin. destruct Hin as [Hin _].
      apply in_others in Hin. now destruct Hin. }
    rewrite Counter_cons. constructor.
    + apply (StronglySorted_transport _ _ _ _ (fun a b Ha Hb Hlt =>
               proj1 (Nat.succ_lt_mono _ _)
                 (first_index_others x (fst a) (fst b) xs Hlt Ha Hb)))
        in IH; [|exact Hkeys].
      revert IH. apply StronglySorted_transport with (P := fun item => fst item <> x);
        [|exact Hkeys].
      intros a b Ha Hb Hlt. simpl.
      destruct (pystr_eqb_spec (fst a) x); [congruence|].
      destruct (pystr_eqb_spec (fst b) x); [congruence|]. exact Hlt.
    + rewrite Forall_forall in *. intros item Hin. specialize (Hkeys item Hin).
      simpl. rewrite pystr_eqb_refl.
      destruct (pystr_eqb_spec (fst item) x); [congruence|lia].
Qed.

(** [max] returns the first item of the largest key: no item has a larger
    key, and an item of the same key does not come before it. *)
Lemma max_from_first {A} (rank key : A -> nat) (xs : list A) (best : A) :
  StronglySorted (fun a b => rank a < rank b) (best :: xs) ->
  In (max_from key best xs) (best :: xs)
  /\ forall y, In y (best :: xs) ->
               key y < key (max_from key best xs)
               \/ (key y = key (max_from key best xs)
                   /\ rank (max_from key best xs) <= rank y).
Proof.
  revert best. induction xs as [|x xs IH]; intros best Hs.
  - simpl. split; [now left|]. intros y [<-|[]]. right. split; lia.
  - inversion Hs as [|? ? Hs' Hall]; subst.
    inversion Hall as [|? ? Hbx Hall']; subst.
    inversion Hs' as [|? ? Hs'' Hallx]; subst.
    simpl max_from. destruct (Nat.ltb_spec (key best) (key x)) as [Hlt|Hge].
    + destruct (IH x Hs') as [Hin Hmax]. split; [now right|].
      intros y [<-|Hy]; [|now apply Hmax].
      destruct (Hmax x (or_introl eq_refl)) as [H|[H _]]; left; lia.
    + assert (Hs2 : StronglySorted (fun a b => rank a < rank b) (best :: xs))
        by (constructor; assumption).
      destruct (IH best Hs2) as [Hin Hmax]. split.
      * destruct Hin as [<-|Hin]; [now left|now right; right].
      * intros y [<-|[<-|Hy]].
        -- apply Hmax. now left.
        -- destruct (Hmax best (or_introl eq_refl)) as [H|[H Hr]].
           ++ left. lia.
           ++ destruct (Nat.eq_dec (key x) (key best)) as [E|E].
              ** right. split; [lia|]. lia.
              ** left. lia.
        -- apply Hmax. now right.
Qed.

Lemma first_index_inj (a b : pystr) (xs : list pystr) :
  In a xs -> In b xs -> first_index a xs = first_index b xs -> a = b.
Proof.
  induction xs as [|x xs IH]; simpl; [contradiction|].
  intros Ha Hb.
  destruct (pystr_eqb_spec a x) as [->|Hax], (pystr_eqb_spec b x) as [->|Hbx];
    try congruence; try discriminate.
  intros [= H]. apply IH; [intuition congruence|intuition congruence|exact H].
Qed.

Lemma slice_final8 (c : pystr) : length c = 17 -> slice 9 17 c = final8 c.
Proof.
  intros Hc. unfold slice, final8. rewrite Hc. simpl Nat.sub.
  apply firstn_all2. rewrite length_skipn. lia.
Qed.

(* ===================================================================== *)
(** * The consensus of the body number *)
(* ===================================================================== *)

Section Consensus.

Variable isalpha isdigit : char -> bool.

Local Notation "'score'" := (spec_score isalpha isdigit).

Lemma combined_score_spec (all_candidates : list pystr) (c : pystr) :
  length c = 17 ->
  combined_score isalpha isdigit (c, occurrences c all_candidates)
  = score all_candidates c.
Proof.
  intros Hc. unfold combined_score, spec_score, structural_score.
  now rewrite (slice_final8 c Hc).
Qed.

Lemma consensus_winner (all_candidates : list pystr) (w : pystr) :
  Forall (fun c => length c = 17) all_candidates ->
  consensus isalpha isdigit all_candidates = Some w ->
  is_winner isalpha isdigit all_candidates w.
Proof.
  intros Hlen. rewrite Forall_forall in Hlen. unfold consensus, py_max.
  pose proof (Counter_sorted all_candidates) as Hsorted.
  pose proof (in_Counter all_candidates) as Hitems.
  destruct (Counter all_candidates) as [|item items]; [discriminate|].
  intros [= <-].
  destruct (max_from_first (fun it => first_index (fst it) all_candidates)
              (combined_score isalpha isdigit) items item Hsorted) as [Hin Hmax].
  set (best := max_from (combined_score isalpha isdigit) item items) in *.
  destruct best as [w n] eqn:Ebest. simpl fst.
  apply Hitems in Hin. destruct Hin as [Hw ->].
  split; [exact Hw|]. intros c Hc.
  assert (Hci : In (c, occurrences c all_candidates) (item :: items))
    by (apply Hitems; auto).
  specialize (Hmax _ Hci).
  rewrite !combined_score_spec in Hmax by auto. simpl in Hmax. lia.
Qed.

Lemma winner_unique (all_candidates : list pystr) (w w' : pystr) :
  is_winner isalpha isdigit all_candidates w ->
  is_winner isalpha isdigit all_candidates w' ->
  w = w'.
Proof.
  intros [Hw Hmax] [Hw' Hmax'].
  destruct (Hmax w' Hw') as [H1 H2]. destruct (Hmax' w Hw) as [H3 H4].
  apply (first_index_inj w w' all_candidates Hw Hw'). 
  assert (E : score all_candidates w = score all_candidates w') by lia.
  specialize (H2 (eq_sym E)). specialize (H4 E). lia.
Qed.

Lemma consensus_some (all_candidates : list pystr) :
  all_candidates <> [] -> exists w, consensus isalpha isdigit all_candidates = Some w.
Proof.
  destruct all_candidates as [|x xs]; [congruence|]. intros _.
  unfold consensus. rewrite Counter_cons. simpl. eauto.
Qed.

End Consensus.

(* ===================================================================== *)
(** * The ensemble sweep *)
(* ===================================================================== *)

Lemma bind_ok {A B} (r : result A) (k : A -> result B) (b : B) :
  bind r k = Ok b -> exists a, r = Ok a /\ k a = Ok b.
Proof. destruct r as [a|e]; simpl; [eauto|discriminate]. Qed.

Lemma fold_left_collect {A} (f : A -> list pystr) (ps : list A) (acc : list pystr) :
  fold_left (fun acc p => acc ++ f p) ps acc = acc ++ flat_map f ps.
Proof.
  revert acc. induction ps as [|p ps IH]; intros acc; simpl.
  - now rewrite app_nil_r.
  - now rewrite IH, app_assoc.
Qed.

Lemma foldM_ext {A B} (f g : B -> A -> result B) (xs : list A) (b : B) :
  (forall b a, f b a = g b a) -> foldM f xs b = foldM g xs b.
Proof.
  intros H. revert b. induction xs as [|x xs IH]; intros b; simpl; [reflexivity|].
  rewrite H. destruct (g b x); simpl; auto.
Qed.

Lemma foldM_app {A B} (f : B -> A -> result B) (xs ys : list A) (b : B) :
  foldM f (xs ++ ys) b = (b' <- foldM f xs b ;; foldM f ys b').
Proof.
  revert b. induction xs as [|x xs IH]; intros b; simpl; [reflexivity|].
  destruct (f b x); simpl; auto.
Qed.

Lemma foldM_nested {A B C} (f : C -> A * B -> result C) (xs : list A) (ys : list B) (c : C) :
  foldM (fun c a => foldM (fun c b => f c (a, b)) ys c) xs c
  = foldM f (list_prod xs ys) c.
Proof.
  revert c. induction xs as [|x xs IH]; intros c; simpl; [reflexivity|].
  rewrite foldM_app.
  assert (E : foldM f (map (fun y => (x, y)) ys) c = foldM (fun c b => f c (x, b)) ys c).
  { clear. revert c. induction ys as [|y ys IHy]; intros c; simpl; [reflexivity|].
    destruct (f c (x, y)); simpl; auto. }
  rewrite E. destruct (foldM _ ys c); simpl; auto.
Qed.

Lemma foldM_collect {A E} (g : A -> result E) (h : E -> list pystr)
  (vs : list A) (acc : list pystr) :
  foldM (fun acc v => e <- g v ;; Ok (acc ++ h e)) vs acc
  = (es <- mapM g vs ;; Ok (acc ++ flat_map h es)).
Proof.
  revert acc. induction vs as [|v vs IH]; intros acc; simpl.
  - now rewrite app_nil_r.
  - destruct (g v) as [e|err]; simpl; [|reflexivity].
    rewrite IH. destruct (mapM g vs); simpl; [|reflexivity].
    now rewrite app_assoc.
Qed.

Lemma flat_map_prod {A B} (k : A * B -> list pystr) (xs : list A) (ys : list B) :
  flat_map (fun x => flat_map (fun y => k (x, y)) ys) xs
  = flat_map k (list_prod xs ys).
Proof.
  induction xs as [|x xs IH]; simpl; [reflexivity|].
  rewrite flat_map_app, IH. f_equal.
  clear. induction ys as [|y ys IHy]; simpl; [reflexivity|]. now rewrite IHy.
Qed.

Lemma mapM_length {A B} (f : A -> result B) (xs : list A) (ys : list B) :
  mapM f xs = Ok ys -> length ys = length xs.
Proof.
  revert ys. induction xs as [|x xs IH]; intros ys; simpl.
  - now intros [= <-].
  - destruct (f x); simpl; [|discriminate].
    destruct (mapM f xs) as [ys'|]; simpl; [|discriminate].
    intros [= <-]. simpl. now rewrite (IH ys' eq_refl).
Qed.

Lemma py_max_in {A} (key : A -> nat) (xs : list A) (x : A) :
  py_max key xs = Some x -> In x xs.
Proof.
  destruct xs as [|y xs]; simpl; [discriminate|]. intros [= <-].
  revert y. induction xs as [|z xs IH]; intros y; simpl; [now left|].
  destruct (IH (if key y <? key z then z else y)) as [H|H]; [|now right; right].
  rewrite <- H. destruct (key y <? key z); [right; now left|now left].
Qed.

Lemma consensus_in (isalpha isdigit : char -> bool) (all_candidates : list pystr)
  (w : pystr) :
  consensus isalpha isdigit all_candidates = Some w -> In w all_candidates.
Proof.
  unfold consensus.
  destruct (py_max _ (Counter all_candidates)) as [[k n]|] eqn:E; [|discriminate].
  intros [= <-]. apply py_max_in in E. now apply in_Counter in E.
Qed.

Section Sweep.

Variable str_upper : pystr -> pystr.
Variable isalpha isdigit : char -> bool.
Variable ocr : ndarray -> pystr -> Z -> result pystr.
Variable cv2_resize : ndarray -> Z * Z -> interpolation -> result ndarray.
Variable cv2_cvtColor_gray : ndarray -> result ndarray.
Variable clahe_apply : float -> Z -> ndarray -> result ndarray.
Variable settings : Settings.

(** The three loops collect, call after call, what each outcome adds. *)
Lemma sweep_outcomes_collected (region : ndarray) :
  sweep str_upper ocr cv2_resize cv2_cvtColor_gray clahe_apply settings region
  = (images <- enhanced_images cv2_resize cv2_cvtColor_gray clahe_apply region ;;
     Ok (flat_map (ocr_candidates str_upper) (sweep_outcomes ocr settings images))).
Proof.
  unfold sweep, enhanced_images, variants.
  set (g := fun v : float * Z * float =>
              let '((clip_limit, tile_size), scale) := v in
              enhanced_variant cv2_resize cv2_cvtColor_gray clahe_apply
                region clip_limit tile_size scale).
  set (h := fun enhanced : ndarray =>
              flat_map (fun psm => ocr_candidates str_upper
                                     (ocr enhanced (tesseract_lang settings) psm))
                       psm_modes).
  transitivity
    (foldM (fun acc v => e <- g v ;; Ok (acc ++ h e))
           (list_prod clahe_params (scale_factors region)) []).
  - rewrite <- foldM_nested. apply foldM_ext. intros acc [clip_limit tile_size].
    apply foldM_ext. intros acc' scale. subst g h. simpl.
    destruct (enhanced_variant _ _ _ _ _ _ _) as [enhanced|e]; simpl; [|reflexivity].
    unfold sweep_psm. now rewrite fold_left_collect.
  - rewrite foldM_collect. fold g.
    destruct (mapM g _) as [images|e]; simpl; [|reflexivity].
    f_equal. unfold sweep_outcomes, ocr_calls, h.
    rewrite (flat_map_prod
               (fun '(enhanced, psm) =>
                  ocr_candidates str_upper (ocr enhanced (tesseract_lang settings) psm))).
    rewrite flat_map_concat_map, flat_map_concat_map, map_map.
    f_equal. apply map_ext. now intros [enhanced psm].
Qed.

(** C7. The body-number extraction is the consensus over the outcomes of
    the OCR calls of the sweep, one call per enhanced image and
    segmentation mode, 36 in all, each made whatever the others return.
    A call that raises adds no candidate, and the selected candidate is
    the one selected when that call is left out of the sweep. *)
Theorem failed_pass_is_swallowed :
  (forall image region_start region_end,
      _extract_with_multiple_strategies str_upper isalpha isdigit ocr
        cv2_resize cv2_cvtColor_gray clahe_apply settings
        image region_start region_end
      = (region <- extract_region image region_start region_end ;;
         images <- enhanced_images cv2_resize cv2_cvtColor_gray clahe_apply region ;;
         Ok (body_number_of_outcomes str_upper isalpha isdigit
               (sweep_outcomes ocr settings images))))
  /\ (forall region images,
         enhanced_images cv2_resize cv2_cvtColor_gray clahe_apply region = Ok images ->
         length (sweep_outcomes ocr settings images) = 36)
  /\ (forall e, ocr_candidates str_upper (Raise e) = [])
  /\ (forall before after e,
         body_number_of_outcomes str_upper isalpha isdigit (before ++ Raise e :: after)
         = body_number_of_outcomes str_upper isalpha isdigit (before ++ after)).
Proof.
  split; [|split; [|split]].
  - intros image region_start region_end. unfold _extract_with_multiple_strategies.
    destruct (extract_region image region_start region_end) as [region|e];
      simpl; [|reflexivity].
    rewrite sweep_outcomes_collected.
    destruct (enhanced_images _ _ _ region); reflexivity.
  - intros region images Himages. apply mapM_length in Himages.
    unfold sweep_outcomes, ocr_calls. rewrite length_map, length_prod, Himages.
    unfold variants. rewrite length_prod. unfold scale_factors.
    destruct (shape0 region >=? 200)%Z; reflexivity.
  - reflexivity.
  - intros before after e. unfold body_number_of_outcomes.
    now rewrite !flat_map_app.
Qed.

(** Every candidate the sweep collects has the VIN shape. *)
Lemma sweep_candidates_shaped (region : ndarray) (all_candidates : list pystr) :
  sweep str_upper ocr cv2_resize cv2_cvtColor_gray clahe_apply settings region
  = Ok all_candidates ->
  Forall vin_shaped all_candidates.
Proof.
  rewrite sweep_outcomes_collected. intros H.
  apply bind_ok in H. destruct H as (images & _ & H). injection H as <-.
  apply Forall_forall. intros c Hc. apply in_flat_map in Hc.
  destruct Hc as (outcome & _ & Hc). exact (ocr_candidates_shaped str_upper _ _ Hc).
Qed.

(** C1. Body-number extraction returns the consensus of the candidates
    its sweep collected: when the region is cut and the sweep returns
    the list [all_candidates], in the order of collection,
    [_extract_with_multiple_strategies] returns [Some w] exactly for the
    winner [w] of that list, and the absent marker exactly when the list
    is empty; [extract_body_number] is that function on the body region.
    The candidates have 17 characters each. Over such candidates an item
    of the counter is a distinct candidate with its number of
    occurrences, and its combined score is that count times 10 plus the
    structural score (5 for an alphabetic first character, plus the
    digits among the final 8 characters). The winner is the candidate of
    the highest combined score and, among those of that score, the first
    seen; it is unique, so the same candidates in the same order always
    select the same one. *)
Theorem consensus_selects_winner :
  (forall image region_start region_end region all_candidates,
      extract_region image region_start region_end = Ok region ->
      sweep str_upper ocr cv2_resize cv2_cvtColor_gray clahe_apply settings region
      = Ok all_candidates ->
      Forall (fun c => length c = 17) all_candidates
      /\ _extract_with_multiple_strategies str_upper isalpha isdigit ocr
           cv2_resize cv2_cvtColor_gray clahe_apply settings
           image region_start region_end
         = Ok (consensus isalpha isdigit all_candidates)
      /\ (forall w,
             _extract_with_multiple_strategies str_upper isalpha isdigit ocr
               cv2_resize cv2_cvtColor_gray clahe_apply settings
               image region_start region_end = Ok (Some w)
             <-> is_winner isalpha isdigit all_candidates w)
      /\ (_extract_with_multiple_strategies str_upper isalpha isdigit ocr
             cv2_resize cv2_cvtColor_gray clahe_apply settings
             image region_start region_end = Ok None
           <-> all_candidates = []))
  /\ (forall image region all_candidates w,
         extract_region image (body_number_region_start settings)
           (body_number_region_end settings) = Ok region ->
         sweep str_upper ocr cv2_resize cv2_cvtColor_gray clahe_apply settings region
         = Ok all_candidates ->
         (extract_body_number str_upper isalpha isdigit ocr cv2_resize
            cv2_cvtColor_gray clahe_apply settings image = Ok (Some w)
          <-> is_winner isalpha isdigit all_candidates w))
  /\ (forall all_candidates,
         Forall (fun c => length c = 17) all_candidates ->
         (forall c n, In (c, n) (Counter all_candidates) <->
                      In c all_candidates /\ n = occurrences c all_candidates)
         /\ (forall c n, In (c, n) (Counter all_candidates) ->
                         combined_score isalpha isdigit (c, n)
                         = n * 10 + structural_score isalpha isdigit c)
         /\ (forall w, consensus isalpha isdigit all_candidates = Some w
                       <-> is_winner isalpha isdigit all_candidates w)
         /\ (consensus isalpha isdigit all_candidates = None
             <-> all_candidates = [])).
Proof.
  assert (Hlist : forall all_candidates,
             Forall (fun c => length c = 17) all_candidates ->
             (forall w, consensus isalpha isdigit all_candidates = Some w
                        <-> is_winner isalpha isdigit all_candidates w)
             /\ (consensus isalpha isdigit all_candidates = None
                 <-> all_candidates = [])).
  { intros all_candidates Hlen. split.
    - intros w. split; [now apply consensus_winner|].
      intros Hw. destruct (consensus_some isalpha isdigit all_candidates) as [w' Hw'].
      { destruct Hw as [Hin _]. intros ->. contradiction. }
      rewrite Hw'. f_equal.
      apply (winner_unique isalpha isdigit all_candidates);
        [now apply consensus_winner|exact Hw].
    - split.
      + intros Hnone. destruct all_candidates as [|x xs]; [reflexivity|].
        destruct (consensus_some isalpha isdigit (x :: xs)) as [w Hw]; congruence.
      + intros ->. reflexivity. }
  assert (Hrun : forall image region_start region_end region all_candidates,
             extract_region image region_start region_end = Ok region ->
             sweep str_upper ocr cv2_resize cv2_cvtColor_gray clahe_apply settings
               region = Ok all_candidates ->
             Forall (fun c => length c = 17) all_candidates
             /\ _extract_with_multiple_strategies str_upper isalpha isdigit ocr
                  cv2_resize cv2_cvtColor_gray clahe_apply settings
                  image region_start region_end
                = Ok (consensus isalpha isdigit all_candidates)).
  { intros image region_start region_end region all_candidates Hregion Hsweep. split.
    - apply sweep_candidates_shaped in Hsweep. revert Hsweep.
      apply Forall_impl. now intros c [Hc _].
    - unfold _extract_with_multiple_strategies. rewrite Hregion. cbn [bind].
      now rewrite Hsweep. }
  split; [|split].
  - intros image region_start region_end region all_candidates Hregion Hsweep.
    destruct (Hrun _ _ _ _ _ Hregion Hsweep) as [Hlen Hres].
    destruct (Hlist _ Hlen) as [Hwin Hnone].
    split; [exact Hlen|]. split; [exact Hres|]. rewrite Hres. split.
    + intros w. rewrite <- Hwin. split; [now intros [= ->]|now intros ->].
    + rewrite <- Hnone. split; [now intros [= ->]|now intros ->].
  - intros image region all_candidates w Hregion Hsweep.
    destruct (Hrun _ _ _ _ _ Hregion Hsweep) as [Hlen Hres].
    destruct (Hlist _ Hlen) as [Hwin _].
    unfold extract_body_number. rewrite Hres, <- Hwin.
    split; [now intros [= ->]|now intros ->].
  - intros all_candidates Hlen.
    split; [intros c n; apply in_Counter|]. split.
    + intros c n Hin. apply in_Counter in Hin. destruct Hin as [Hc ->].
      rewrite Forall_forall in Hlen. now rewrite combined_score_spec by auto.
    + now apply Hlist.
Qed.

End Sweep.

(* ===================================================================== *)
(** * The extractors and the batch *)
(* ===================================================================== *)

Section Extraction.

Variable str_upper : pystr -> pystr.
Variable isalpha isdigit re_digit : char -> bool.
Variable ocr : ndarray -> pystr -> Z -> result pystr.
Variable cv2_resize : ndarray -> Z * Z -> interpolation -> result ndarray.
Variable cv2_cvtColor_gray : ndarray -> result ndarray.
Variable clahe_apply : float -> Z -> ndarray -> result ndarray.
Variable cv2_imread : pystr -> option ndarray.
Variable settings : Settings.

Local Notation "'parse'" :=
  (parse_document str_upper isalpha isdigit re_digit ocr cv2_resize
     cv2_cvtColor_gray clahe_apply cv2_imread settings).
Local Notation "'batch'" :=
  (process_directory str_upper isalpha isdigit re_digit ocr cv2_resize
     cv2_cvtColor_gray clahe_apply cv2_imread settings).

(** C10. Whenever [extract_vin] or [extract_body_number] returns a
    string, the string has exactly 17 characters, each a digit 0-9 or a
    Latin capital other than I, O and Q, whatever the OCR engine and the
    image libraries return. *)
Theorem extracted_numbers_are_vin_shaped :
  (forall image s,
      extract_vin str_upper isalpha isdigit ocr cv2_resize cv2_cvtColor_gray
        clahe_apply settings image = Ok (Some s) ->
      length s = 17 /\ forallb vin_alphabet s = true)
  /\ (forall image s,
         extract_body_number str_upper isalpha isdigit ocr cv2_resize
           cv2_cvtColor_gray clahe_apply settings image = Ok (Some s) ->
         length s = 17 /\ forallb vin_alphabet s = true).
Proof.
  split; intros image s H.
  - unfold extract_vin in H.
    apply bind_ok in H. destruct H as (region & _ & H).
    apply bind_ok in H. destruct H as (region' & _ & H).
    apply bind_ok in H. destruct H as (processed & _ & H).
    injection H as H. apply py_max_in in H.
    apply in_app_or in H.
    destruct H as [H|H]; apply (ocr_candidates_shaped str_upper _ _ H).
  - unfold extract_body_number, _extract_with_multiple_strategies in H.
    apply bind_ok in H. destruct H as (region & _ & H).
    rewrite sweep_outcomes_collected in H.
    apply bind_ok in H. destruct H as (all_candidates & Hall & H).
    apply bind_ok in Hall. destruct Hall as (images & _ & Hall).
    injection Hall as <-. injection H as H.
    apply consensus_in in H.
    apply in_flat_map in H. destruct H as (outcome & _ & H).
    apply (ocr_candidates_shaped str_upper _ _ H).
Qed.

Lemma batch_accumulates (image_files : list Path)
  (results : list ExtractionResult) (stdout : list pystr) :
  fold_left
    (fun '(results, stdout) image_file =>
       match parse image_file with
       | Ok result => (results ++ [result], stdout)
       | Raise e =>
           (results ++ [empty_result (path_name image_file)],
            stdout ++ [error_line image_file e])
       end)
    image_files (results, stdout)
  = (results ++ fst (batch image_files), stdout ++ snd (batch image_files)).
Proof.
  unfold process_directory.
  revert results stdout. induction image_files as [|f fs IH]; intros results stdout.
  - simpl. now rewrite !app_nil_r.
  - simpl. destruct (parse f) as [result|e].
    + rewrite IH, (IH [result] []). simpl. now rewrite <- app_assoc.
    + rewrite IH, (IH [empty_result (path_name f)] [error_line f e]). simpl.
      now rewrite <- !app_assoc.
Qed.

Lemma batch_cons (f : Path) (fs : list Path) :
  batch (f :: fs)
  = match parse f with
    | Ok result => (result :: fst (batch fs), snd (batch fs))
    | Raise e =>
        (empty_result (path_name f) :: fst (batch fs),
         error_line f e :: snd (batch fs))
    end.
Proof.
  unfold process_directory at 1. simpl.
  destruct (parse f); now rewrite batch_accumulates.
Qed.


Lemma batch_length (image_files : list Path) :
  length (fst (batch image_files)) = length image_files.
Proof.
  induction image_files as [|f fs IH]; [reflexivity|].
  rewrite batch_cons. destruct (parse f); simpl; now rewrite IH.
Qed.


End Extraction.

(* ===================================================================== *)
(** * Binary64: rounding a product and truncating it *)
(* ===================================================================== *)

Local Open Scope Z_scope.

Lemma digits2_size (p : positive) : digits2_pos p = Pos.size p.
Proof. induction p; simpl; congruence. Qed.

Lemma digits2_log2 (p : positive) : Zpos (digits2_pos p) = Z.log2 (Zpos p) + 1.
Proof.
  rewrite digits2_size. destruct p; simpl; try reflexivity; lia.
Qed.

Lemma shr_1_nonneg (m : Z) (r s : bool) :
  0 <= m ->
  shr_1 (Build_shr_record m r s) = Build_shr_record (Z.div2 m) (Z.odd m) (r || s).
Proof.
  intros Hm. destruct m as [|p|p]; [reflexivity| |lia].
  destruct p; reflexivity.
Qed.

Lemma shifted_first (M : Z) :
  0 <= M -> shr_1 (Build_shr_record M false false) = shifted M 1.
Proof.
  intros HM. rewrite shr_1_nonneg by exact HM. unfold shifted.
  change (1 - 1) with 0. change (2 ^ 0) with 1. change (2 ^ 1) with 2.
  rewrite Z.div2_div, Z.bit0_odd, Z.mod_1_r. reflexivity.
Qed.

Lemma mod_pow2_succ (M k : Z) :
  0 <= k ->
  M mod 2 ^ (k + 1) = M mod 2 ^ k + 2 ^ k * Z.b2z (Z.testbit M k).
Proof.
  intros Hk. rewrite Z.pow_add_r, Z.pow_1_r by lia.
  rewrite Z.rem_mul_r by lia. now rewrite Z.testbit_spec' by lia.
Qed.

Lemma shifted_next (M k : Z) :
  0 <= M -> 1 <= k -> shr_1 (shifted M k) = shifted M (k + 1).
Proof.
  intros HM Hk. unfold shifted.
  rewrite shr_1_nonneg by (apply Z.div_pos; lia).
  f_equal.
  - rewrite Z.div2_div, Z.div_div by lia.
    now rewrite (Z.pow_add_r 2 k 1), Z.pow_1_r by lia.
  - replace (k + 1 - 1) with k by lia.
    now rewrite Z.testbit_odd, Z.shiftr_div_pow2 by lia.
  - replace (k + 1 - 1) with (k - 1 + 1) by lia.
    rewrite (mod_pow2_succ M (k - 1)) by lia.
    pose proof (Z.mod_pos_bound M (2 ^ (k - 1)) ltac:(lia)) as Hb.
    assert (0 < 2 ^ (k - 1)) by lia.
    destruct (Z.testbit M (k - 1)); simpl Z.b2z.
    + simpl. symmetry. apply negb_true_iff. apply Z.eqb_neq. lia.
    + simpl. f_equal. f_equal. lia.
Qed.

Lemma iter_pos_shifted (M : Z) (p : positive) (k : Z) :
  0 <= M -> 1 <= k ->
  iter_pos shr_1 p (shifted M k) = shifted M (k + Zpos p).
Proof.
  intros HM. revert k. induction p as [p IH|p IH|]; intros k Hk; cbn [iter_pos].
  - rewrite shifted_next, !IH by lia. f_equal. lia.
  - rewrite !IH by lia. f_equal. lia.
  - now apply shifted_next.
Qed.

Lemma iter_pos_first (M : Z) (p : positive) :
  0 <= M ->
  iter_pos shr_1 p (Build_shr_record M false false) = shifted M (Zpos p).
Proof.
  intros HM. induction p as [p IH|p IH|]; cbn [iter_pos].
  - rewrite shifted_first, !iter_pos_shifted by lia. f_equal. lia.
  - rewrite IH, iter_pos_shifted by lia. f_equal. lia.
  - now apply shifted_first.
Qed.

Lemma round_shifted (M k : Z) :
  0 <= M -> 1 <= k ->
  round_nearest_even (shr_m (shifted M k)) (loc_of_shr_record (shifted M k))
  = rhe M k.
Proof.
  intros HM Hk. unfold rhe, shifted. cbn [shr_m loc_of_shr_record].
  replace (M mod 2 ^ k) with (M mod 2 ^ (k - 1) + 2 ^ (k - 1) * Z.b2z (Z.testbit M (k - 1))).
  2:{ rewrite <- mod_pow2_succ by lia. f_equal. f_equal. lia. }
  pose proof (Z.mod_pos_bound M (2 ^ (k - 1)) ltac:(lia)) as Hb.
  destruct (Z.testbit M (k - 1)); cbn [Z.b2z];
    destruct (Z.eqb_spec (M mod 2 ^ (k - 1)) 0) as [E|E]; cbn [negb round_nearest_even].
  - rewrite E. replace (0 + 2 ^ (k - 1) * 1) with (2 ^ (k - 1)) by lia.
    now rewrite Z.ltb_irrefl, Z.eqb_refl.
  - destruct (Z.ltb_spec (M mod 2 ^ (k - 1) + 2 ^ (k - 1) * 1) (2 ^ (k - 1))); [lia|].
    destruct (Z.eqb_spec (M mod 2 ^ (k - 1) + 2 ^ (k - 1) * 1) (2 ^ (k - 1))); [lia|].
    reflexivity.
  - destruct (Z.ltb_spec (M mod 2 ^ (k - 1) + 2 ^ (k - 1) * 0) (2 ^ (k - 1))); [|lia].
    reflexivity.
  - destruct (Z.ltb_spec (M mod 2 ^ (k - 1) + 2 ^ (k - 1) * 0) (2 ^ (k - 1))); [|lia].
    reflexivity.
Qed.

Lemma shr_fexp_exact (M e : Z) :
  0 <= M ->
  shr_fexp prec emax M e loc_Exact
  = if cexp M e <=? e then (Build_shr_record M false false, e)
    else (shifted M (cexp M e - e), cexp M e).
Proof.
  intros HM. unfold shr_fexp, shr, cexp. cbn [shr_record_of_loc].
  destruct (Z.leb_spec (fexp prec emax (Zdigits2 M + e)) e) as [Hle|Hgt].
  - destruct (fexp prec emax (Zdigits2 M + e) - e) eqn:E; try reflexivity. lia.
  - destruct (fexp prec emax (Zdigits2 M + e) - e) eqn:E; try lia.
    rewrite iter_pos_first by exact HM. rewrite <- E. f_equal. lia.
Qed.

Lemma first_round (M e : Z) :
  0 <= M ->
  round_nearest_even (shr_m (fst (shr_fexp prec emax M e loc_Exact)))
    (loc_of_shr_record (fst (shr_fexp prec emax M e loc_Exact)))
  = rnd_mant M e
  /\ snd (shr_fexp prec emax M e loc_Exact) = rnd_exp M e.
Proof.
  intros HM. rewrite shr_fexp_exact by exact HM. unfold rnd_mant, rnd_exp.
  destruct (Z.leb_spec (cexp M e) e) as [Hle|Hgt]; cbn [fst snd].
  - split; [reflexivity|lia].
  - split; [apply round_shifted; lia|lia].
Qed.

Lemma digits_pos_bounds (p : positive) :
  2 ^ (Zpos (digits2_pos p) - 1) <= Zpos p < 2 ^ Zpos (digits2_pos p).
Proof.
  rewrite digits2_log2. replace (Z.log2 (Zpos p) + 1 - 1) with (Z.log2 (Zpos p)) by lia.
  replace (Z.log2 (Zpos p) + 1) with (Z.succ (Z.log2 (Zpos p))) by lia.
  apply Z.log2_spec. lia.
Qed.

Lemma cexp_ge_emin (M e : Z) : -1074 <= cexp M e.
Proof. unfold cexp, fexp, SpecFloat.emin, prec, emax. lia. Qed.

Lemma cexp_ge_digits (M e : Z) : Zdigits2 M + e - 53 <= cexp M e.
Proof. unfold cexp, fexp, prec. lia. Qed.

Lemma rhe_le_succ (M k : Z) : rhe M k <= M / 2 ^ k + 1.
Proof.
  unfold rhe. destruct (_ <? _); [lia|].
  destruct (_ =? _); [destruct (Z.even _); lia|lia].
Qed.

Lemma rhe_ge (M k : Z) : M / 2 ^ k <= rhe M k.
Proof.
  unfold rhe. destruct (_ <? _); [lia|].
  destruct (_ =? _); [destruct (Z.even _); lia|lia].
Qed.

(** The rounded mantissa has at most 53 bits, or is 2^53. *)
Lemma rnd_mant_bound (p : positive) (e : Z) :
  0 <= rnd_mant (Zpos p) e <= 2 ^ 53.
Proof.
  unfold rnd_mant. pose proof (cexp_ge_digits (Zpos p) e) as Hc.
  cbn [Zdigits2] in Hc. pose proof (digits_pos_bounds p) as [_ Hd].
  destruct (Z.leb_spec (cexp (Zpos p) e) e) as [Hle|Hgt].
  - split; [lia|].
    assert (2 ^ Zpos (digits2_pos p) <= 2 ^ 53) by (apply Z.pow_le_mono_r; lia).
    lia.
  - set (k := cexp (Zpos p) e - e) in *.
    pose proof (rhe_le_succ (Zpos p) k). pose proof (rhe_ge (Zpos p) k).
    assert (0 <= Zpos p / 2 ^ k) by (apply Z.div_pos; lia).
    split; [lia|].
    assert (Zpos p / 2 ^ k < 2 ^ 53); [|lia].
    apply Z.div_lt_upper_bound; [lia|].
    rewrite <- Z.pow_add_r by lia.
    assert (2 ^ Zpos (digits2_pos p) <= 2 ^ (k + 53)) by (apply Z.pow_le_mono_r; lia).
    lia.
Qed.

Lemma rnd_exp_ge_emin (M e : Z) : -1074 <= rnd_exp M e.
Proof. unfold rnd_exp. pose proof (cexp_ge_emin M e). lia. Qed.

(** [int] of a rounded product: the rounded mantissa shifted by the
    rounded exponent. *)
Lemma round_aux_int (p : positive) (e : Z) :
  rnd_exp (Zpos p) e < 971 ->
  int_of_float (binary_round_aux prec emax false (Zpos p) e loc_Exact)
  = Ok (Z.shiftl (rnd_mant (Zpos p) e) (rnd_exp (Zpos p) e)).
Proof.
  intros Hexp. unfold binary_round_aux.
  destruct (first_round (Zpos p) e ltac:(lia)) as [Hm He].
  destruct (shr_fexp prec emax (Zpos p) e loc_Exact) as [mrs' e'].
  cbn [fst snd] in Hm, He. rewrite Hm, He. clear Hm He mrs' e'.
  pose proof (rnd_mant_bound p e) as [Hlo Hhi].
  pose proof (rnd_exp_ge_emin (Zpos p) e) as Hemin.
  set (m1 := rnd_mant (Zpos p) e) in *. set (e1 := rnd_exp (Zpos p) e) in *.
  rewrite shr_fexp_exact by exact Hlo.
  destruct (Z.leb_spec (cexp m1 e1) e1) as [Hle|Hgt]; cbn [shr_m].
  - destruct m1 as [|m|m]; [now rewrite Z.shiftl_0_l| |lia].
    destruct (Z.leb_spec e1 (emax - prec)) as [_|Hbad]; [reflexivity|].
    unfold emax, prec in Hbad. lia.
  - assert (Hpos : 0 < m1).
    { destruct m1 as [|m|m]; [|lia|lia].
      unfold cexp, fexp, SpecFloat.emin, prec, emax in Hgt. cbn [Zdigits2] in Hgt. lia. }
    destruct m1 as [|m|m]; try lia.
    assert (Hd : 54 <= Zpos (digits2_pos m)).
    { unfold cexp, fexp, SpecFloat.emin, prec, emax in Hgt. cbn [Zdigits2] in Hgt. lia. }
    pose proof (digits_pos_bounds m) as [Hdl Hdu].
    assert (H53 : 2 ^ 53 <= 2 ^ (Zpos (digits2_pos m) - 1))
      by (apply Z.pow_le_mono_r; lia).
    assert (Em : Zpos m = 2 ^ 53) by lia.
    assert (Ed : Zpos (digits2_pos m) = 54).
    { destruct (Z.eq_dec (Zpos (digits2_pos m)) 54) as [E|E]; [exact E|].
      assert (2 ^ 54 <= 2 ^ (Zpos (digits2_pos m) - 1))
        by (apply Z.pow_le_mono_r; lia).
      lia. }
    assert (Ec : cexp (Zpos m) e1 = e1 + 1).
    { unfold cexp, fexp, SpecFloat.emin, prec, emax. cbn [Zdigits2]. lia. }
    rewrite Ec. replace (e1 + 1 - e1) with 1 by lia.
    unfold shifted. cbn [shr_m]. rewrite Em.
    change (2 ^ 53 / 2 ^ 1) with 4503599627370496.
    destruct (Z.leb_spec (e1 + 1) (emax - prec)) as [_|Hbad].
    2:{ unfold emax, prec in Hbad. lia. }
    cbn [int_of_float cond_Zopp]. f_equal.
    change (2 ^ 53) with (Z.shiftl 4503599627370496 1).
    rewrite Z.shiftl_shiftl by lia. f_equal. lia.
Qed.

Lemma shiftl_le_mono (a b n : Z) : 0 <= a <= b -> Z.shiftl a n <= Z.shiftl b n.
Proof.
  intros Hab. destruct (Z.le_gt_cases 0 n) as [Hn|Hn].
  - rewrite !Z.shiftl_mul_pow2 by lia. apply Z.mul_le_mono_nonneg_r; lia.
  - rewrite !Z.shiftl_div_pow2 by lia. apply Z.div_le_mono; lia.
Qed.

Lemma shiftl_exponent (a j n : Z) : 0 <= j -> Z.shiftl (a * 2 ^ j) n = Z.shiftl a (j + n).
Proof.
  intros Hj. rewrite <- Z.shiftl_mul_pow2 by lia. now apply Z.shiftl_shiftl.
Qed.

Lemma rhe_mono (M1 M2 k : Z) :
  0 <= M1 <= M2 -> 1 <= k -> rhe M1 k <= rhe M2 k.
Proof.
  intros HM Hk.
  assert (Hq : M1 / 2 ^ k <= M2 / 2 ^ k) by (apply Z.div_le_mono; lia).
  destruct (Z.eq_dec (M1 / 2 ^ k) (M2 / 2 ^ k)) as [E|E].
  - assert (Hr : M1 mod 2 ^ k <= M2 mod 2 ^ k).
    { pose proof (Z.div_mod M1 (2 ^ k) ltac:(lia)).
      pose proof (Z.div_mod M2 (2 ^ k) ltac:(lia)). rewrite E in *. lia. }
    unfold rhe. rewrite E.
    destruct (Z.ltb_spec (M1 mod 2 ^ k) (2 ^ (k - 1))),
      (Z.ltb_spec (M2 mod 2 ^ k) (2 ^ (k - 1))),
      (Z.eqb_spec (M1 mod 2 ^ k) (2 ^ (k - 1))),
      (Z.eqb_spec (M2 mod 2 ^ k) (2 ^ (k - 1))),
      (Z.even (M2 / 2 ^ k)); lia.
  - pose proof (rhe_le_succ M1 k). pose proof (rhe_ge M2 k). lia.
Qed.

Lemma rhe_scale (M k j : Z) :
  0 <= M -> 1 <= k -> 0 <= j -> rhe (M * 2 ^ j) (k + j) = rhe M k.
Proof.
  intros HM Hk Hj. unfold rhe.
  assert (0 < 2 ^ j) by lia. assert (0 < 2 ^ k) by lia.
  rewrite (Z.pow_add_r 2 k j) by lia.
  rewrite Z.div_mul_cancel_r by lia.
  rewrite Z.mul_mod_distr_r by lia.
  replace (k + j - 1) with (k - 1 + j) by lia.
  rewrite (Z.pow_add_r 2 (k - 1) j) by lia.
  destruct (Z.ltb_spec (M mod 2 ^ k * 2 ^ j) (2 ^ (k - 1) * 2 ^ j)),
    (Z.ltb_spec (M mod 2 ^ k) (2 ^ (k - 1))),
    (Z.eqb_spec (M mod 2 ^ k * 2 ^ j) (2 ^ (k - 1) * 2 ^ j)),
    (Z.eqb_spec (M mod 2 ^ k) (2 ^ (k - 1))); try reflexivity; nia.
Qed.

Lemma rhe_exact (M k : Z) : 0 <= M -> 1 <= k -> rhe (M * 2 ^ k) k = M.
Proof.
  intros HM Hk. unfold rhe.
  rewrite Z.div_mul, Z.mod_mul by lia.
  destruct (Z.ltb_spec 0 (2 ^ (k - 1))); [reflexivity|].
  assert (0 < 2 ^ (k - 1)) by lia. lia.
Qed.

Lemma digits_scale (p : positive) (j : Z) :
  0 <= j -> Zdigits2 (Zpos p * 2 ^ j) = Zdigits2 (Zpos p) + j.
Proof.
  intros Hj. assert (Hpos : 0 < Zpos p * 2 ^ j) by lia.
  destruct (Zpos p * 2 ^ j) as [|q|q] eqn:E; try lia.
  cbn [Zdigits2]. rewrite !digits2_log2, <- E.
  rewrite Z.log2_mul_pow2 by lia. lia.
Qed.

Lemma digits_mono (p q : positive) :
  Zpos p <= Zpos q -> Zpos (digits2_pos p) <= Zpos (digits2_pos q).
Proof.
  intros H. rewrite !digits2_log2. apply Z.log2_le_mono in H. lia.
Qed.

(** Rewriting the same value with a smaller exponent does not change
    its rounding. *)
Lemma rounded_int_rescale (p : positive) (e j : Z) :
  0 <= j -> rounded_int (Zpos p * 2 ^ j) (e - j) = rounded_int (Zpos p) e.
Proof.
  intros Hj. unfold rounded_int, rnd_mant, rnd_exp, cexp.
  rewrite digits_scale by exact Hj.
  replace (Zdigits2 (Zpos p) + j + (e - j)) with (Zdigits2 (Zpos p) + e) by lia.
  set (c := fexp prec emax (Zdigits2 (Zpos p) + e)).
  destruct (Z.leb_spec c (e - j)) as [H1|H1], (Z.leb_spec c e) as [H2|H2]; try lia.
  - rewrite shiftl_exponent by lia. f_equal; lia.
  - replace (Zpos p * 2 ^ j) with (Zpos p * 2 ^ (j - (c - (e - j))) * 2 ^ (c - (e - j))).
    2:{ rewrite <- Z.mul_assoc, <- Z.pow_add_r by lia. f_equal. f_equal. lia. }
    rewrite rhe_exact by lia.
    rewrite shiftl_exponent by lia. f_equal; lia.
  - replace (c - (e - j)) with (c - e + j) by lia.
    rewrite rhe_scale by lia. f_equal; lia.
Qed.

Lemma rhe_bound_53 (p : positive) (k : Z) :
  1 <= k -> Zpos (digits2_pos p) - 53 <= k -> rhe (Zpos p) k <= 2 ^ 53.
Proof.
  intros Hk Hd. pose proof (rhe_le_succ (Zpos p) k).
  pose proof (digits_pos_bounds p) as [_ Hu].
  assert (Zpos p / 2 ^ k < 2 ^ 53); [|lia].
  apply Z.div_lt_upper_bound; [lia|].
  rewrite <- Z.pow_add_r by lia.
  assert (2 ^ Zpos (digits2_pos p) <= 2 ^ (k + 53)) by (apply Z.pow_le_mono_r; lia).
  lia.
Qed.

Lemma rhe_ge_52 (p : positive) (k : Z) :
  1 <= k -> k = Zpos (digits2_pos p) - 53 -> 2 ^ 52 <= rhe (Zpos p) k.
Proof.
  intros Hk Hd. pose proof (rhe_ge (Zpos p) k).
  pose proof (digits_pos_bounds p) as [Hl _].
  assert (2 ^ 52 <= Zpos p / 2 ^ k); [|lia].
  apply Z.div_le_lower_bound; [lia|].
  rewrite <- Z.pow_add_r by lia.
  replace (k + 52) with (Zpos (digits2_pos p) - 1) by lia. exact Hl.
Qed.

(** Rounding to binary64 and truncating is monotone. *)
Lemma rounded_int_mono (p q : positive) (E : Z) :
  Zpos p <= Zpos q -> rounded_int (Zpos p) E <= rounded_int (Zpos q) E.
Proof.
  intros Hpq. pose proof (digits_mono p q Hpq) as Hd.
  unfold rounded_int, rnd_mant, rnd_exp, cexp. cbn [Zdigits2].
  set (dp := Zpos (digits2_pos p)) in *. set (dq := Zpos (digits2_pos q)) in *.
  assert (Hc : fexp prec emax (dp + E) <= fexp prec emax (dq + E))
    by (unfold fexp, SpecFloat.emin, prec, emax; lia).
  assert (Hcp : fexp prec emax (dp + E) = Z.max (dp + E - 53) (-1074)) by reflexivity.
  assert (Hcq : fexp prec emax (dq + E) = Z.max (dq + E - 53) (-1074)) by reflexivity.
  set (cp := fexp prec emax (dp + E)) in *. set (cq := fexp prec emax (dq + E)) in *.
  destruct (Z.leb_spec cp E) as [H1|H1], (Z.leb_spec cq E) as [H2|H2]; try lia.
  - rewrite !Z.max_l by lia. apply shiftl_le_mono. lia.
  - rewrite Z.max_l, Z.max_r by lia.
    replace cq with ((cq - E) + E) at 2 by lia.
    rewrite <- shiftl_exponent by lia. apply shiftl_le_mono. split; [lia|].
    pose proof (rhe_ge_52 q (cq - E) ltac:(lia) ltac:(subst dq; lia)).
    pose proof (digits_pos_bounds p) as [_ Hu]. fold dp in Hu.
    assert (2 ^ dp <= 2 ^ 53) by (apply Z.pow_le_mono_r; lia).
    assert (2 ^ 1 <= 2 ^ (cq - E)) by (apply Z.pow_le_mono_r; lia).
    change (2 ^ 53) with (2 ^ 52 * 2 ^ 1) in *. nia.
  - rewrite !Z.max_r by lia.
    destruct (Z.eq_dec cp cq) as [Ec|Ec].
    + rewrite Ec. apply shiftl_le_mono. split.
      * pose proof (rhe_ge (Zpos p) (cq - E)).
        assert (0 <= Zpos p / 2 ^ (cq - E)) by (apply Z.div_pos; lia). lia.
      * apply rhe_mono; lia.
    + replace cq with ((cq - cp) + cp) at 2 by lia.
      rewrite <- shiftl_exponent by lia. apply shiftl_le_mono. split.
      * pose proof (rhe_ge (Zpos p) (cp - E)).
        assert (0 <= Zpos p / 2 ^ (cp - E)) by (apply Z.div_pos; lia). lia.
      * pose proof (rhe_ge_52 q (cq - E) ltac:(lia) ltac:(subst dq; lia)).
        pose proof (rhe_bound_53 p (cp - E) ltac:(lia) ltac:(subst dp; lia)).
        assert (2 ^ 1 <= 2 ^ (cq - cp)) by (apply Z.pow_le_mono_r; lia).
        change (2 ^ 53) with (2 ^ 52 * 2 ^ 1) in *. nia.
Qed.

Lemma iter_xO (m d : positive) : Zpos (Pos.iter xO m d) = Zpos m * 2 ^ Zpos d.
Proof.
  apply (Pos.iter_ind positive xO m (fun d a => Zpos a = Zpos m * 2 ^ Zpos d)).
  - rewrite Z.pow_1_r. lia.
  - intros p a Ha. rewrite Pos2Z.inj_succ, Z.pow_succ_r by lia.
    rewrite Pos2Z.inj_xO, Ha. lia.
Qed.

Lemma digits_le (p : positive) (n : Z) : Zpos p < 2 ^ n -> Zpos (digits2_pos p) <= n.
Proof.
  intros Hp. pose proof (digits_pos_bounds p) as [Hl _].
  destruct (Z.le_gt_cases (Zpos (digits2_pos p)) n) as [H|H]; [exact H|].
  assert (2 ^ n <= 2 ^ (Zpos (digits2_pos p) - 1)).
  { destruct (Z.le_gt_cases 0 n); [apply Z.pow_le_mono_r; lia|].
    rewrite (Z.pow_neg_r 2 n) by lia. lia. }
  lia.
Qed.

(** A float of 53 significant bits goes through the rounding as it is. *)
Lemma round_aux_canonical (m : positive) (e : Z) :
  Zpos (digits2_pos m) = 53 -> -1074 <= e <= 971 ->
  binary_round_aux prec emax false (Zpos m) e loc_Exact = S754_finite false m e.
Proof.
  intros Hd He. unfold binary_round_aux.
  assert (Hc : cexp (Zpos m) e = e).
  { unfold cexp, fexp, SpecFloat.emin, prec, emax. cbn [Zdigits2]. lia. }
  rewrite shr_fexp_exact, Hc, Z.leb_refl by lia.
  cbn [shr_m loc_of_shr_record round_nearest_even].
  rewrite shr_fexp_exact, Hc, Z.leb_refl by lia. cbn [shr_m].
  destruct (Z.leb_spec e (emax - prec)) as [_|Hbad]; [reflexivity|].
  unfold emax, prec in Hbad. lia.
Qed.

(** [float(H)] for [0 < H < 2^53] is exact. *)
Lemma float_of_int_pos (H : positive) :
  Zpos H < 2 ^ 53 ->
  exists mh eh,
    float_of_int (Zpos H) = Ok (S754_finite false mh eh)
    /\ -52 <= eh <= 0 /\ Zpos mh = Zpos H * 2 ^ (- eh)
    /\ Zpos (digits2_pos mh) = 53.
Proof.
  intros HH. unfold float_of_int, binary_normalize, binary_round.
  pose proof (digits_le H 53 HH) as Hd.
  assert (Hd1 : 1 <= Zpos (digits2_pos H)) by lia.
  assert (Hf : fexp prec emax (Zpos (digits2_pos H) + 0) = Zpos (digits2_pos H) - 53).
  { unfold fexp, SpecFloat.emin, prec, emax. lia. }
  rewrite Hf. unfold shl_align.
  destruct (Zpos (digits2_pos H) - 53 - 0) as [|d|d] eqn:E; try lia.
  - rewrite round_aux_canonical by lia.
    exists H, 0. split; [reflexivity|]. split; [lia|]. split; [simpl; lia|lia].
  - assert (Hm : Zpos (Pos.iter xO H d) = Zpos H * 2 ^ Zpos d) by apply iter_xO.
    assert (Hdm : Zpos (digits2_pos (Pos.iter xO H d)) = 53).
    { pose proof (digits_scale H (Zpos d) ltac:(lia)) as Hs.
      rewrite <- Hm in Hs. cbn [Zdigits2] in Hs. lia. }
    rewrite round_aux_canonical by lia.
    exists (Pos.iter xO H d), (Zpos (digits2_pos H) - 53).
    split; [reflexivity|]. split; [lia|]. split; [|exact Hdm].
    rewrite Hm. f_equal. f_equal. lia.
Qed.

Lemma valid_digits (m : positive) (e : Z) :
  is_float (S754_finite false m e) = true ->
  Zpos (digits2_pos m) <= 53 /\ -1074 <= e <= 971
  /\ (-1074 < e -> Zpos (digits2_pos m) = 53).
Proof.
  unfold is_float, valid_binary, bounded, canonical_mantissa, fexp, SpecFloat.emin,
    prec, emax.
  intros Hv. apply andb_prop in Hv. destruct Hv as [Hc He].
  apply Z.eqb_eq in Hc. apply Z.leb_le in He. lia.
Qed.

Lemma one_float : dec 1 1 = S754_finite false 4503599627370496 (-52).
Proof. vm_compute. reflexivity. Qed.

Lemma fleb_finite (ma mb : positive) (ea eb : Z) :
  fleb (S754_finite false ma ea) (S754_finite false mb eb) = true ->
  ea < eb \/ (ea = eb /\ Zpos ma <= Zpos mb).
Proof.
  unfold fleb, SFleb, SFcompare.
  destruct (Z.compare_spec ea eb) as [->|Hlt|Hgt]; [|now left|discriminate].
  rewrite Pos.compare_cont_spec. unfold Pos.switch_Eq.
  destruct (Pos.compare_spec ma mb) as [Hm|Hl|Hg]; [|intros _|discriminate].
  - intros _. right. split; [reflexivity|]. rewrite Hm. lia.
  - right. split; [reflexivity|]. lia.
Qed.

Lemma le_one_exponent (m : positive) (e : Z) :
  fleb (S754_finite false m e) (dec 1 1) = true ->
  e < -52 \/ (e = -52 /\ Zpos m <= 2 ^ 52).
Proof.
  rewrite one_float. intros Hle. exact (fleb_finite _ _ _ _ Hle).
Qed.

(** [int(H * r)] for a positive height and a positive ratio up to 1. *)
Lemma int_scaled_pos (H m : positive) (e : Z) :
  Zpos H < 2 ^ 53 ->
  is_float (S754_finite false m e) = true ->
  fleb (S754_finite false m e) (dec 1 1) = true ->
  (hs <- mul_int_float (Zpos H) (S754_finite false m e) ;; int_of_float hs)
  = Ok (row_of (Zpos H) (S754_finite false m e)).
Proof.
  intros HH Hv Hle.
  destruct (float_of_int_pos H HH) as (mh & eh & Hf & Heh & Hmh & Hdmh).
  destruct (valid_digits m e Hv) as (Hdm & He & _).
  apply le_one_exponent in Hle.
  unfold mul_int_float. rewrite Hf. cbn [bind fmul SFmul xorb].
  rewrite round_aux_int.
  - f_equal. cbn [row_of]. rewrite Pos2Z.inj_mul, Hmh.
    replace (Zpos H * 2 ^ (- eh) * Zpos m) with (Zpos (H * m) * 2 ^ (- eh))
      by (rewrite Pos2Z.inj_mul; lia).
    replace (eh + e) with (e - (- eh)) by lia.
    fold (rounded_int (Zpos (H * m) * 2 ^ (- eh)) (e - - eh)).
    rewrite rounded_int_rescale by lia. now rewrite Pos2Z.inj_mul.
  - unfold rnd_exp, cexp, fexp, SpecFloat.emin, prec, emax. cbn [Zdigits2].
    assert (Hprod : Zpos (digits2_pos (mh * m)) <= 106).
    { apply digits_le. rewrite Pos2Z.inj_mul.
      pose proof (digits_pos_bounds m) as [_ Hum].
      assert (2 ^ Zpos (digits2_pos m) <= 2 ^ 53) by (apply Z.pow_le_mono_r; lia).
      assert (Zpos mh < 2 ^ 53).
      { pose proof (digits_pos_bounds mh) as [_ Humh]. now rewrite Hdmh in Humh. }
      change (2 ^ 106) with (2 ^ 53 * 2 ^ 53). nia. }
    lia.
Qed.

Lemma rhe_zero (k : Z) : rhe 0 k = 0.
Proof.
  unfold rhe. rewrite Zdiv_0_l, Zmod_0_l.
  pose proof (Z.pow_nonneg 2 (k - 1) ltac:(lia)).
  destruct (Z.ltb_spec 0 (2 ^ (k - 1))); [reflexivity|].
  destruct (Z.eqb_spec 0 (2 ^ (k - 1))); [reflexivity|lia].
Qed.

Lemma rounded_int_mono_Z (V1 V2 E : Z) :
  0 < V1 <= V2 -> rounded_int V1 E <= rounded_int V2 E.
Proof.
  intros HV. destruct V1 as [|p|p], V2 as [|q|q]; try lia.
  apply rounded_int_mono. lia.
Qed.

Lemma rounded_int_nonneg (p : positive) (e : Z) : 0 <= rounded_int (Zpos p) e.
Proof.
  unfold rounded_int. apply Z.shiftl_nonneg. apply rnd_mant_bound.
Qed.

(** On valid floats the order of the floats is the order of the rows. *)
Lemma row_of_mono (H ma mb : positive) (ea eb : Z) :
  is_float (S754_finite false ma ea) = true ->
  is_float (S754_finite false mb eb) = true ->
  fleb (S754_finite false ma ea) (S754_finite false mb eb) = true ->
  row_of (Zpos H) (S754_finite false ma ea)
  <= row_of (Zpos H) (S754_finite false mb eb).
Proof.
  intros Hva Hvb Hle. cbn [row_of].
  destruct (valid_digits ma ea Hva) as (Hda & Hea & _).
  destruct (valid_digits mb eb Hvb) as (Hdb & Heb & Hnb).
  apply fleb_finite in Hle. destruct Hle as [Hlt|[-> Hm]].
  - replace eb with (eb - (eb - ea) + (eb - ea)) at 1 by lia.
    replace (rounded_int (Zpos H * Zpos mb) (eb - (eb - ea) + (eb - ea)))
      with (rounded_int (Zpos (H * mb) * 2 ^ (eb - ea)) (eb - (eb - ea))).
    2:{ rewrite rounded_int_rescale by lia. rewrite Pos2Z.inj_mul. f_equal. lia. }
    replace (eb - (eb - ea)) with ea by lia.
    apply rounded_int_mono_Z. split; [lia|].
    rewrite Pos2Z.inj_mul, <- Z.mul_assoc. apply Z.mul_le_mono_nonneg_l; [lia|].
    pose proof (digits_pos_bounds ma) as [_ Hua].
    pose proof (digits_pos_bounds mb) as [Hlb _].
    rewrite (Hnb ltac:(lia)) in Hlb. change (53 - 1) with 52 in Hlb.
    assert (2 ^ Zpos (digits2_pos ma) <= 2 ^ 53) by (apply Z.pow_le_mono_r; lia).
    assert (2 ^ 1 <= 2 ^ (eb - ea)) by (apply Z.pow_le_mono_r; lia).
    assert (E53 : 2 ^ 53 = 2 ^ 52 * 2 ^ 1) by reflexivity. nia.
  - apply rounded_int_mono_Z. split; [lia|].
    apply Z.mul_le_mono_nonneg_l; lia.
Qed.

Lemma row_of_one (H : positive) : Zpos H < 2 ^ 53 -> row_of (Zpos H) (dec 1 1) = Zpos H.
Proof.
  intros HH. rewrite one_float. cbn [row_of].
  assert (E52 : 4503599627370496 = 2 ^ 52) by reflexivity. rewrite E52.
  replace (-52) with (0 - 52) by lia. rewrite rounded_int_rescale by lia.
  pose proof (digits_le H 53 HH) as Hd.
  unfold rounded_int, rnd_mant, rnd_exp, cexp, fexp, SpecFloat.emin, prec, emax.
  cbn [Zdigits2].
  destruct (Z.leb_spec (Z.max (Zpos (digits2_pos H) + 0 - 53) (3 - 1024 - 53)) 0); [|lia].
  rewrite Z.max_l by lia. apply Z.shiftl_0_r.
Qed.

Lemma unit_ratio_cases (r : float) :
  unit_ratio r ->
  (exists s, r = S754_zero s)
  \/ (exists m e, r = S754_finite false m e).
Proof.
  intros (_ & H0 & H1). destruct r as [s|s| |s m e].
  - left. eauto.
  - destruct s; [discriminate H0|rewrite one_float in H1; discriminate H1].
  - discriminate H0.
  - destruct s; [discriminate H0|]. right. eauto.
Qed.

Lemma int_mul_zero (H : Z) (s : bool) :
  0 <= H < 2 ^ 53 -> int_mul H (S754_zero s) = Ok 0.
Proof.
  intros HH. unfold int_mul, mul_int_float. destruct H as [|p|p]; try lia.
  - reflexivity.
  - destruct (float_of_int_pos p ltac:(lia)) as (mh & eh & -> & _). reflexivity.
Qed.

Lemma int_mul_unit (H : Z) (r : float) :
  0 <= H < 2 ^ 53 -> unit_ratio r -> int_mul H r = Ok (row_of H r).
Proof.
  intros HH Hr. destruct (unit_ratio_cases r Hr) as [[s ->]|(m & e & ->)].
  - now rewrite int_mul_zero.
  - destruct Hr as (Hv & _ & H1). destruct H as [|p|p]; try lia.
    + cbn [row_of]. unfold rounded_int, rnd_mant.
      rewrite Z.mul_0_l, rhe_zero.
      destruct (_ <=? _); now rewrite Z.shiftl_0_l.
    + apply int_scaled_pos; [lia|exact Hv|exact H1].
Qed.

(** Rows of ordered ratios between 0 and 1 are ordered, between 0 and the
    height. *)
Lemma int_mul_ordered (H : Z) (a b : float) :
  0 <= H < 2 ^ 53 -> unit_ratio a -> unit_ratio b -> fleb a b = true ->
  exists ya yb,
    int_mul H a = Ok ya /\ int_mul H b = Ok yb /\ 0 <= ya <= yb /\ yb <= H.
Proof.
  intros HH Ha Hb Hab.
  exists (row_of H a), (row_of H b).
  split; [now apply int_mul_unit|]. split; [now apply int_mul_unit|].
  destruct H as [|p|p]; try lia.
  - assert (Hz : forall r, unit_ratio r -> row_of 0 r = 0).
    { intros r Hr. pose proof (int_mul_unit 0 r ltac:(lia) Hr) as E.
      destruct (unit_ratio_cases r Hr) as [[s ->]|(m & e & ->)]; [reflexivity|].
      unfold int_mul, mul_int_float in E. simpl in E. now injection E. }
    rewrite (Hz a Ha), (Hz b Hb). lia.
  - assert (Hone : unit_ratio (dec 1 1)).
    { repeat split; rewrite one_float; reflexivity. }
    assert (Htop : row_of (Zpos p) b <= Zpos p).
    { rewrite <- (row_of_one p) at 2 by lia.
      destruct (unit_ratio_cases b Hb) as [[s ->]|(m & e & ->)].
      - rewrite one_float. cbn [row_of]. apply rounded_int_nonneg.
      - destruct Hb as (Hvb & _ & Hb1). revert Hb1. rewrite one_float. intros Hb1.
        apply row_of_mono; [exact Hvb|reflexivity|exact Hb1]. }
    split; [|exact Htop].
    destruct (unit_ratio_cases a Ha) as [[s ->]|(ma & ea & ->)];
      destruct (unit_ratio_cases b Hb) as [[s' ->]|(mb & eb & ->)]; cbn [row_of].
    + lia.
    + split; [lia|]. rewrite <- Pos2Z.inj_mul. apply rounded_int_nonneg.
    + discriminate Hab.
    + split; [rewrite <- Pos2Z.inj_mul; apply rounded_int_nonneg|].
      destruct Ha as (Hva & _), Hb as (Hvb & _).
      apply (row_of_mono p ma mb ea eb Hva Hvb Hab).
Qed.

Lemma rounded_int_small (p : positive) (e : Z) :
  Zpos p < 2 ^ 53 -> -1074 <= e -> rounded_int (Zpos p) e = Z.shiftl (Zpos p) e.
Proof.
  intros Hp He. pose proof (digits_le p 53 Hp) as Hd.
  unfold rounded_int, rnd_mant, rnd_exp, cexp, fexp, SpecFloat.emin, prec, emax.
  cbn [Zdigits2].
  destruct (Z.leb_spec (Z.max (Zpos (digits2_pos p) + e - 53) (3 - 1024 - 53)) e);
    [|lia].
  f_equal. lia.
Qed.


Local Close Scope Z_scope.

(* ===================================================================== *)
(** * Region selection and upscaling *)
(* ===================================================================== *)

Local Open Scope Z_scope.


Lemma row_slice_inside (image : ndarray) (a b : Z) :
  0 <= a -> a <= shape0 image -> 0 <= b -> b <= shape0 image ->
  nd_rows (row_slice a b image)
  = firstn (Z.to_nat (b - a)) (skipn (Z.to_nat a) (nd_rows image)).
Proof.
  intros Ha Ha' Hb Hb'. unfold row_slice, slice_bound. cbn [nd_rows].
  destruct (Z.ltb_spec a 0); [lia|]. destruct (Z.ltb_spec b 0); [lia|].
  now rewrite !Z.min_l by lia.
Qed.

Lemma in_firstn_skipn {A} (x : A) (n : nat) (l : list A) :
  In x (firstn n l) \/ In x (skipn n l) -> In x l.
Proof.
  intros H. rewrite <- (firstn_skipn n l). apply in_or_app. exact H.
Qed.

Lemma row_slice_rectangular (image : ndarray) (a b : Z) :
  rectangular image -> rectangular (row_slice a b image).
Proof.
  unfold rectangular, row_slice. cbn [nd_rows nd_width]. rewrite !Forall_forall.
  intros Hrect row Hrow. apply Hrect.
  apply (in_firstn_skipn _ (Z.to_nat (slice_bound (shape0 image) a))). right.
  apply (in_firstn_skipn _ (Z.to_nat (slice_bound (shape0 image) b
                                       - slice_bound (shape0 image) a))).
  left. exact Hrow.
Qed.



(** C6 as stated fails: ratios outside [0,1] are not refused. With
    [start_ratio = 0.0] and [end_ratio = 2.0] on an image of 100 rows the
    slice is [image[0:200]], which numpy clips to the 100 rows of the
    image. *)
Lemma out_of_range_ratio_keeps_rows :
  ~ (forall image start_ratio end_ratio,
        is_float start_ratio = true -> is_float end_ratio = true ->
        fleb end_ratio start_ratio = true
        \/ ~ unit_ratio start_ratio \/ ~ unit_ratio end_ratio ->
        exists region,
          extract_region image start_ratio end_ratio = Ok region
          /\ nd_rows region = []).
Proof.
  intros H.
  destruct (H (Double.blank 100 10) (dec 0 1) (dec 2 1) eq_refl eq_refl)
    as (region & Hregion & Hrows).
  - right. right. intros (_ & _ & Hle). vm_compute in Hle. discriminate.
  - vm_compute in Hregion. injection Hregion as <-. discriminate.
Qed.

(** C6, amended. For an image of height below 2^53 and ratios that are
    both in [0,1] with [start_ratio >= end_ratio], [extract_region]
    raises nothing and returns a region of no rows and of the width of
    the image. *)
Theorem reversed_ratios_give_no_rows (image : ndarray)
  (start_ratio end_ratio : float) :
  shape0 image < 2 ^ 53 ->
  unit_ratio start_ratio -> unit_ratio end_ratio ->
  fleb end_ratio start_ratio = true ->
  exists region,
    extract_region image start_ratio end_ratio = Ok region
    /\ nd_rows region = []
    /\ shape0 region = 0
    /\ shape1 region = shape1 image.
Proof.
  intros HH Hs He Hle.
  assert (H0 : 0 <= shape0 image < 2 ^ 53) by (unfold shape0 in *; lia).
  destruct (int_mul_ordered (shape0 image) end_ratio start_ratio H0 He Hs Hle)
    as (end_y & start_y & Hy1 & Hy2 & Hord & Htop).
  exists (row_slice start_y end_y image).
  pose proof (row_slice_inside image start_y end_y
                ltac:(lia) ltac:(lia) ltac:(lia) ltac:(lia)) as Hrows.
  assert (Hnone : nd_rows (row_slice start_y end_y image) = []).
  { rewrite Hrows. replace (Z.to_nat (end_y - start_y)) with 0%nat by lia.
    reflexivity. }
  repeat split.
  - unfold extract_region. now rewrite Hy2, Hy1.
  - exact Hnone.
  - unfold shape0. now rewrite Hnone.
Qed.

(** C4 fails on the code: the new height is [int(height * (min / height))]
    and the product can fall just below the minimum. With the default
    minimum of 800 and a region of 97 rows (the VIN region of a page of
    277 rows is one), [800 / 97 = 8.24742268041237...] and
    [97 * (800 / 97)] rounds to [799.9999999999999], so the region is
    resized to 799 rows, whatever [cv2.resize] does with them. A region
    of at least the minimum height is returned as it is, and a region of
    no rows raises [ZeroDivisionError]. *)
Theorem upscale_misses_minimum :
  (exists region,
      extract_region (Double.blank 277 4) (vin_region_start default_settings)
        (vin_region_end default_settings) = Ok region
      /\ region = Double.blank 97 4)
  /\ (forall cv2_resize,
         upscale_if_needed cv2_resize default_settings (Double.blank 97 4)
         = cv2_resize (Double.blank 97 4) (32, 799) INTER_CUBIC)
  /\ (exists out,
         upscale_if_needed Double.cv2_resize default_settings (Double.blank 97 4)
         = Ok out
         /\ shape0 out = 799
         /\ shape0 out < min_image_height default_settings)
  /\ (forall cv2_resize settings image,
         min_image_height settings <= shape0 image ->
         upscale_if_needed cv2_resize settings image = Ok image)
  /\ (forall cv2_resize,
         upscale_if_needed cv2_resize default_settings (Double.blank 0 4)
         = Raise ZeroDivisionError).
Proof.
  split; [|split; [|split; [|split]]].
  - eexists. split; vm_compute; reflexivity.
  - intros cv2_resize. vm_compute. reflexivity.
  - eexists. split; [vm_compute; reflexivity|]. split; vm_compute; reflexivity.
  - intros cv2_resize settings image Hmin. unfold upscale_if_needed.
    destruct (Z.geb_spec (shape0 image) (min_image_height settings)); [reflexivity|lia].
  - intros cv2_resize. reflexivity.
Qed.

Local Close Scope Z_scope.

(* ===================================================================== *)
(** * The statements on concrete inputs *)
(* ===================================================================== *)

Lemma double_ascii_digits (c : char) :
  in_range "0" "9" c = true -> Double.isdigit c = true.
Proof. intros H. exact H. Qed.

Lemma double_letters_not_digits (c : char) :
  Double.isalpha c = true -> Double.isdigit c = false.
Proof.
  unfold Double.isalpha, Double.isdigit. intros H. bool_to_nat_N.
Qed.

Lemma consensus_selects_winner_witness :
  _extract_with_multiple_strategies Double.str_upper Double.isalpha Double.isdigit
    Double.ocr Double.cv2_resize Double.cv2_cvtColor_gray Double.clahe_apply
    default_settings (Double.blank 2400 2) (dec 52 100) (dec 68 100)
  = Ok (Some (py "WP1ZZZ9PZ9LA42290"))
  /\ is_winner Double.isalpha Double.isdigit
       (concat (repeat [py "NWP1ZZZ9PZ9LA4229"; py "WP1ZZZ9PZ9LA42290"] 36))
       (py "WP1ZZZ9PZ9LA42290")
  /\ Forall (fun c => length c = 17) Double.readings
  /\ consensus Double.isalpha Double.isdigit Double.readings
     = Some (py "WP1ZZZ9PZ9LA42290")
  /\ is_winner Double.isalpha Double.isdigit Double.readings
       (py "WP1ZZZ9PZ9LA42290").
Proof.
  destruct (consensus_selects_winner Double.str_upper Double.isalpha Double.isdigit
              Double.ocr Double.cv2_resize Double.cv2_cvtColor_gray
              Double.clahe_apply default_settings) as (Hrun & _ & Hlist).
  destruct (Hrun (Double.blank 2400 2) (dec 52 100) (dec 68 100)
              (Double.blank 384 2)
              (concat (repeat [py "NWP1ZZZ9PZ9LA4229"; py "WP1ZZZ9PZ9LA42290"] 36)))
    as (_ & _ & Hwin & _); [vm_compute; reflexivity|vm_compute; reflexivity|].
  assert (Hout : _extract_with_multiple_strategies Double.str_upper Double.isalpha
                   Double.isdigit Double.ocr Double.cv2_resize
                   Double.cv2_cvtColor_gray Double.clahe_apply default_settings
                   (Double.blank 2400 2) (dec 52 100) (dec 68 100)
                 = Ok (Some (py "WP1ZZZ9PZ9LA42290")))
    by (vm_compute; reflexivity).
  split; [exact Hout|]. split; [apply Hwin; exact Hout|].
  assert (H : Forall (fun c => length c = 17) Double.readings)
    by (repeat constructor).
  split; [exact H|]. split; [reflexivity|].
  apply (proj1 (proj2 (proj2 (Hlist Double.readings H)))).
  reflexivity.
Defined.

Lemma plate_pattern_and_extraction_witness :
  extract_reg_number Double.str_upper Double.isalpha Double.isdigit Double.isdigit
    Sample.ocr_plate Double.cv2_resize Double.cv2_cvtColor_gray Double.clahe_apply
    default_settings (Double.blank 2400 2)
  = Ok (Some (py "В883ВО799"))
  /\ plate_of_text Double.isalpha Double.isdigit Double.isdigit default_settings
       (py "РЕГ " ++ py "В883ВО799 RUS")
     = Some (py "В883ВО799").
Proof.
  destruct (plate_pattern_and_extraction Double.isalpha Double.isdigit
              Double.isdigit default_settings Double.str_upper Sample.ocr_plate
              Double.cv2_resize Double.cv2_cvtColor_gray Double.clahe_apply
              double_ascii_digits double_letters_not_digits)
    as (_ & _ & _ & _ & _ & _ & Hfirst & Hextract).
  split.
  - apply (Hextract (Double.blank 2400 2) (Double.blank 360 2) (Double.blank 360 2)
             (Double.blank 360 2) (py "peг.знак b883bo799 rus")
             (py "РЕГ.ЗНАК ") (py "В883ВО799 RUS") (py "В883ВО799"));
      try (vm_compute; reflexivity).
    intros i Hi. do 9 (destruct i as [|i]; [reflexivity|]).
    simpl in Hi. lia.
  - apply (Hfirst (py "РЕГ ") (py "В883ВО799 RUS") (py "В883ВО799")).
    + reflexivity.
    + intros i Hi.
      destruct i as [|[|[|[|i]]]]; try reflexivity.
      simpl in Hi. lia.
Defined.


Lemma reversed_ratios_give_no_rows_witness :
  exists region,
    extract_region (Double.blank 1000 4) (dec 60 100) (dec 25 100) = Ok region
    /\ nd_rows region = []
    /\ shape0 region = 0%Z
    /\ shape1 region = shape1 (Double.blank 1000 4).
Proof.
  apply (reversed_ratios_give_no_rows (Double.blank 1000 4) (dec 60 100) (dec 25 100)).
  - vm_compute. reflexivity.
  - repeat split; vm_compute; reflexivity.
  - repeat split; vm_compute; reflexivity.
  - vm_compute. reflexivity.
Defined.

Lemma extracted_numbers_are_vin_shaped_witness :
  extract_vin Double.str_upper Double.isalpha Double.isdigit Double.ocr
    Double.cv2_resize Double.cv2_cvtColor_gray Double.clahe_apply
    default_settings (Double.blank 2400 2)
  = Ok (Some (py "WP1ZZZ9PZ9LA42290"))
  /\ extract_body_number Double.str_upper Double.isalpha Double.isdigit Double.ocr
       Double.cv2_resize Double.cv2_cvtColor_gray Double.clahe_apply
       default_settings (Double.blank 2400 2)
     = Ok (Some (py "WP1ZZZ9PZ9LA42290"))
  /\ length (py "WP1ZZZ9PZ9LA42290") = 17
  /\ forallb vin_alphabet (py "WP1ZZZ9PZ9LA42290") = true.
Proof.
  assert (Hvin : extract_vin Double.str_upper Double.isalpha Double.isdigit
                   Double.ocr Double.cv2_resize Double.cv2_cvtColor_gray
                   Double.clahe_apply default_settings (Double.blank 2400 2)
                 = Ok (Some (py "WP1ZZZ9PZ9LA42290")))
    by (vm_compute; reflexivity).
  split; [exact Hvin|]. split; [vm_compute; reflexivity|].
  exact (proj1 (extracted_numbers_are_vin_shaped Double.str_upper Double.isalpha
                  Double.isdigit Double.ocr Double.cv2_resize
                  Double.cv2_cvtColor_gray Double.clahe_apply default_settings)
           (Double.blank 2400 2) (py "WP1ZZZ9PZ9LA42290") Hvin).
Defined.


(** [Counter] and [max] on a tie: the first seen wins, whichever it is. *)
Example consensus_tie_first_seen :
  consensus Double.isalpha Double.isdigit
    [py "WP1ZZZ9PZ9LA42290"; py "WP1ZZZ9PZ9LA42291"]
  = Some (py "WP1ZZZ9PZ9LA42290")
  /\ consensus Double.isalpha Double.isdigit
       [py "WP1ZZZ9PZ9LA42291"; py "WP1ZZZ9PZ9LA42290"]
     = Some (py "WP1ZZZ9PZ9LA42291").
Proof. split; reflexivity. Qed.

(** Three readings of a candidate outweigh one reading of a candidate of
    the best structure; two readings (20) would not outweigh it (23). *)
Example consensus_frequency_dominates :
  combined_score Double.isalpha Double.isdigit (py "1P1ZZZ9PZAAAAAAAA", 2) = 20
  /\ combined_score Double.isalpha Double.isdigit (py "WP1ZZZ9PZ12345678", 1) = 23
  /\ consensus Double.isalpha Double.isdigit
       [py "WP1ZZZ9PZ12345678"; py "1P1ZZZ9PZAAAAAAAA"; py "1P1ZZZ9PZAAAAAAAA";
        py "1P1ZZZ9PZAAAAAAAA"]
     = Some (py "1P1ZZZ9PZAAAAAAAA").
Proof. repeat split; reflexivity. Qed.

(** [findall] on a text with two plates, and the VIN test strings. *)
Example findall_two_plates :
  findall (REG_NUMBER_PATTERN Double.isdigit) (py "ГРЗ В883ВО799, А123АА77.")
  = [py "В883ВО799"; py "А123АА77"].
Proof. reflexivity. Qed.

Example vin_pattern_tests :
  is_some (re_match VIN_PATTERN (py "WP1ZZZ9PZ9LA42290")) = true
  /\ is_some (re_match VIN_PATTERN (py "WVWZZZ3CZWE123456")) = true
  /\ is_some (re_match VIN_PATTERN (py "WP1ZZZ9PZOLA42290")) = false
  /\ is_some (re_match VIN_PATTERN (py "WP1ZZZ9PZ9IA42290")) = false.
Proof. repeat split; reflexivity. Qed.

(** The products are binary64 products: [10 * 0.7] is [7.0] and
    [100 * 0.57] is [56.99999999999999]. *)
Example int_of_products :
  int_mul 10 (dec 7 10) = Ok 7%Z
  /\ int_mul 100 (dec 57 100) = Ok 56%Z
  /\ int_mul 1000 (dec 15 100) = Ok 150%Z.
Proof. repeat split; vm_compute; reflexivity. Qed.

(** Ratios that are not in [0,1]: a negative start counts from the last
    row, and a NaN raises. *)
Example extract_region_outside_unit :
  (exists region,
      extract_region (Double.blank 100 1) (SFopp (dec 1 2)) (dec 1 1) = Ok region
      /\ shape0 region = 50%Z)
  /\ extract_region (Double.blank 100 1) (dec 0 1) S754_nan
     = Raise (ValueError (py "cannot convert float NaN to integer")).
Proof.
  split; [eexists; split; vm_compute; reflexivity|vm_compute; reflexivity].
Qed.

(** A sweep in which the engine raises on one segmentation mode selects
    what the other calls read. *)
Example sweep_with_failing_mode :
  extract_body_number Double.str_upper Double.isalpha Double.isdigit
    (fun image lang psm =>
       if (psm =? 6)%Z then Raise (OtherError (py "TesseractError"))
       else Double.ocr image lang psm)
    Double.cv2_resize Double.cv2_cvtColor_gray Double.clahe_apply
    default_settings (Double.blank 2400 2)
  = Ok (Some (py "WP1ZZZ9PZ9LA42290")).
Proof. vm_compute. reflexivity. Qed.

(* ===================================================================== *)
(** * More on the counter and the maximum *)
(* ===================================================================== *)



Lemma max_from_ge {A} (key : A -> nat) (xs : list A) (best : A) :
  key best <= key (max_from key best xs).
Proof.
  revert best. induction xs as [|x xs IH]; intros best; simpl; [lia|].
  destruct (Nat.ltb_spec (key best) (key x)) as [Hlt|Hge].
  - specialize (IH x). lia.
  - apply IH.
Qed.

(** [max] splits the sequence at the item it returns: the keys before it
    are smaller, the keys after it are not larger. *)
Lemma max_from_split {A} (key : A -> nat) (xs : list A) (best : A) :
  exists before after,
    best :: xs = before ++ max_from key best xs :: after
    /\ (forall y, In y before -> key y < key (max_from key best xs))
    /\ (forall y, In y after -> key y <= key (max_from key best xs)).
Proof.
  revert best. induction xs as [|x xs IH]; intros best.
  - exists [], []. simpl. repeat split; intros y [].
  - simpl max_from. destruct (Nat.ltb_spec (key best) (key x)) as [Hlt|Hge].
    + destruct (IH x) as (before & after & Hsplit & Hbefore & Hafter).
      pose proof (max_from_ge key xs x) as Hx.
      exists (best :: before), after. split; [|split].
      * simpl. now rewrite <- Hsplit.
      * intros y [<-|Hy]; [lia|now apply Hbefore].
      * exact Hafter.
    + destruct (IH best) as (before & after & Hsplit & Hbefore & Hafter).
      pose proof (max_from_ge key xs best) as Hbest_le.
      destruct before as [|b before].
      * simpl in Hsplit. injection Hsplit as Hbest Hxs.
        exists [], (x :: after). split; [|split].
        -- simpl. now rewrite <- Hbest, <- Hxs.
        -- intros y [].
        -- intros y [<-|Hy]; [lia|]. now apply Hafter.
      * simpl in Hsplit. injection Hsplit as Hb Hxs. subst b.
        exists (best :: x :: before), after. split; [|split].
        -- simpl. now rewrite <- Hxs.
        -- pose proof (Hbefore best (or_introl eq_refl)) as Hb.
           intros y [<-|[<-|Hy]]; [exact Hb|lia|]. apply Hbefore. now right.
        -- exact Hafter.
Qed.

Lemma py_max_split {A} (key : A -> nat) (xs : list A) (x : A) :
  py_max key xs = Some x ->
  exists before after,
    xs = before ++ x :: after
    /\ (forall y, In y before -> key y < key x)
    /\ (forall y, In y after -> key y <= key x).
Proof.
  destruct xs as [|best xs]; simpl; [discriminate|]. intros [= <-].
  apply max_from_split.
Qed.

(** An item whose key is above every other key is the maximum. *)
Lemma py_max_strict {A} (key : A -> nat) (xs : list A) (x : A) :
  In x xs ->
  (forall y, In y xs -> y = x \/ key y < key x) ->
  py_max key xs = Some x.
Proof.
  intros Hin Hmax. destruct xs as [|best xs]; [contradiction|].
  destruct (max_from_split key xs best) as (before & after & Hsplit & Hb & Ha).
  simpl py_max. f_equal.
  assert (Hm : In (max_from key best xs) (best :: xs)).
  { rewrite Hsplit. apply in_or_app. right. now left. }
  destruct (Hmax _ Hm) as [E|Hlt]; [exact E|].
  rewrite Hsplit in Hin. apply in_app_or in Hin.
  destruct Hin as [Hin|[E|Hin]].
  - specialize (Hb _ Hin). lia.
  - exact E.
  - specialize (Ha _ Hin). lia.
Qed.

Lemma digits_of_slice (isdigit : char -> bool) (c : pystr) :
  length (filter isdigit (slice 9 17 c)) <= 8.
Proof.
  pose proof (filter_length_le isdigit (slice 9 17 c)) as Hf.
  unfold slice in *. rewrite length_firstn in Hf. lia.
Qed.

Lemma combined_score_bounds (isalpha isdigit : char -> bool) (c : pystr) (n : nat) :
  n * 10 <= combined_score isalpha isdigit (c, n) <= n * 10 + 13.
Proof.
  unfold combined_score. pose proof (digits_of_slice isdigit c) as Hd.
  destruct c as [|x c]; [simpl in *; lia|].
  destruct (isalpha x); lia.
Qed.

(** X2. The structural part of the combined score is at most 13, so a
    candidate collected at least two more times than every other candidate
    is the consensus, whatever the structure of the others. *)
Theorem two_more_readings_win (isalpha isdigit : char -> bool)
  (all_candidates : list pystr) (w : pystr) :
  In w all_candidates ->
  (forall c, In c all_candidates -> c <> w ->
             occurrences c all_candidates + 2 <= occurrences w all_candidates) ->
  consensus isalpha isdigit all_candidates = Some w.
Proof.
  intros Hw Hmore. unfold consensus.
  rewrite (py_max_strict (combined_score isalpha isdigit) (Counter all_candidates)
             (w, occurrences w all_candidates)); [reflexivity| |].
  - apply in_Counter. now split.
  - intros [c n] Hin. apply in_Counter in Hin. destruct Hin as [Hc ->].
    destruct (pystr_eqb_spec c w) as [->|Hne]; [now left|right].
    specialize (Hmore c Hc Hne).
    pose proof (combined_score_bounds isalpha isdigit c (occurrences c all_candidates)).
    pose proof (combined_score_bounds isalpha isdigit w (occurrences w all_candidates)).
    lia.
Qed.

Lemma two_more_readings_win_witness :
  consensus Double.isalpha Double.isdigit
    [py "WP1ZZZ9PZ12345678"; py "1P1ZZZ9PZAAAAAAAA"; py "1P1ZZZ9PZAAAAAAAA";
     py "1P1ZZZ9PZAAAAAAAA"]
  = Some (py "1P1ZZZ9PZAAAAAAAA").
Proof.
  apply two_more_readings_win.
  - simpl. auto.
  - intros c Hc Hne.
    destruct Hc as [<-|[<-|[<-|[<-|[]]]]];
      try (exfalso; apply Hne; reflexivity).
    vm_compute. lia.
Defined.

(* ===================================================================== *)
(** * More on the candidates *)
(* ===================================================================== *)

Lemma windows_length (cleaned : pystr) :
  length (windows cleaned) = length cleaned - 16.
Proof. unfold windows. now rewrite length_map, length_seq. Qed.

Lemma filter_all {A} (f : A -> bool) (xs : list A) :
  (forall x, In x xs -> f x = true) -> filter f xs = xs.
Proof.
  induction xs as [|x xs IH]; intros H; simpl; [reflexivity|].
  rewrite (H x (or_introl eq_refl)). f_equal. apply IH.
  intros y Hy. apply H. now right.
Qed.

(** X3. The candidates of a text. There are at most [n - 16] of them
    for a cleaned text of [n] characters, none below 17 characters; when
    the cleaned text is over the VIN alphabet every window is a candidate,
    and a cleaned text of 17 such characters is the only candidate. A
    character that is not a Latin capital or a digit changes nothing,
    wherever it stands: the windows run across spaces, punctuation and
    line ends. *)
Theorem candidates_of_text (text : pystr) :
  length (text_candidates text) <= length (clean_text text) - 16
  /\ (length (clean_text text) < 17 -> text_candidates text = [])
  /\ (forallb vin_alphabet (clean_text text) = true ->
      text_candidates text = windows (clean_text text)
      /\ length (text_candidates text) = length (clean_text text) - 16)
  /\ (forallb vin_alphabet (clean_text text) = true ->
      length (clean_text text) = 17 ->
      text_candidates text = [clean_text text])
  /\ (forall before c after,
         text = before ++ c :: after -> not_AZ09 c = true ->
         text_candidates text = text_candidates (before ++ after)).
Proof.
  assert (Hle : length (text_candidates text) <= length (clean_text text) - 16).
  { unfold text_candidates, window_candidates.
    rewrite <- windows_length. apply filter_length_le. }
  assert (Hall : forallb vin_alphabet (clean_text text) = true ->
                 text_candidates text = windows (clean_text text)).
  { intros Hvin. unfold text_candidates, window_candidates. apply filter_all.
    intros w Hw. rewrite (vin_pattern_match w (window_shape _ _ Hw)).
    exact (window_chars vin_alphabet _ _ Hvin Hw). }
  split; [exact Hle|]. split; [|split; [|split]].
  - intros Hshort. destruct (text_candidates text); [reflexivity|simpl in Hle; lia].
  - intros Hvin. split; [now apply Hall|].
    rewrite (Hall Hvin). apply windows_length.
  - intros Hvin Hlen. rewrite (Hall Hvin). unfold windows. rewrite Hlen.
    change (seq 0 (17 - 16)) with [0]. cbn [map]. unfold slice. cbn [skipn].
    f_equal. apply firstn_all2. simpl. lia.
  - intros before c after -> Hc. unfold text_candidates, clean_text, sub_class_empty.
    rewrite !filter_app. simpl. now rewrite Hc.
Qed.

Lemma candidates_of_text_witness :
  text_candidates (py "WP1ZZZ-9PZ9LA 42290.")
  = [clean_text (py "WP1ZZZ-9PZ9LA 42290.")].
Proof.
  apply (proj1 (proj2 (proj2 (proj2
           (candidates_of_text (py "WP1ZZZ-9PZ9LA 42290."))))));
    vm_compute; reflexivity.
Defined.

(* ===================================================================== *)
(** * More on the extractors and the batch *)
(* ===================================================================== *)

Lemma bind_raise {A B} (r : result A) (k : A -> result B) (e : exn) :
  bind r k = Raise e -> r = Raise e \/ exists a, r = Ok a /\ k a = Raise e.
Proof. destruct r as [a|e']; simpl; [eauto|intros [= ->]; now left]. Qed.

Section Pipeline.

Variable str_upper : pystr -> pystr.
Variable isalpha isdigit re_digit : char -> bool.
Variable ocr : ndarray -> pystr -> Z -> result pystr.
Variable cv2_resize : ndarray -> Z * Z -> interpolation -> result ndarray.
Variable cv2_cvtColor_gray : ndarray -> result ndarray.
Variable clahe_apply : float -> Z -> ndarray -> result ndarray.
Variable cv2_imread : pystr -> option ndarray.
Variable settings : Settings.

Local Notation "'parse'" :=
  (parse_document str_upper isalpha isdigit re_digit ocr cv2_resize
     cv2_cvtColor_gray clahe_apply cv2_imread settings).
Local Notation "'batch'" :=
  (process_directory str_upper isalpha isdigit re_digit ocr cv2_resize
     cv2_cvtColor_gray clahe_apply cv2_imread settings).
Local Notation "'preprocess'" :=
  (preprocess_for_ocr cv2_resize cv2_cvtColor_gray clahe_apply settings).
Local Notation "'vin_of'" :=
  (extract_vin str_upper isalpha isdigit).
Local Notation "'body_of'" :=
  (extract_body_number str_upper isalpha isdigit).

(** The two passes of [extract_vin], after the preprocessing. *)
Lemma extract_vin_passes (engine : ndarray -> pystr -> Z -> result pystr)
  (image : ndarray) :
  vin_of engine cv2_resize cv2_cvtColor_gray clahe_apply settings image
  = (region <- extract_region image (vin_region_start settings)
                 (vin_region_end settings) ;;
     processed <- preprocess region ;;
     Ok (py_max (vin_score isalpha isdigit)
           (ocr_candidates str_upper (engine processed (tesseract_lang settings) 3%Z)
            ++ ocr_candidates str_upper
                 (engine processed (tesseract_lang settings) 6%Z)))).
Proof.
  unfold extract_vin, preprocess_for_ocr.
  destruct (extract_region image _ _) as [region|e]; simpl; [|reflexivity].
  destruct (upscale_if_needed cv2_resize settings region) as [upscaled|e];
    simpl; reflexivity.
Qed.

(** X4. [extract_vin] is the region selection, then [preprocess_for_ocr]
    (upscaling, then contrast), then the choice among the candidates of
    the passes with segmentation modes 3 and 6, in that order: it
    returns the candidate of the highest [vin_score], the earliest one
    among those of that score, and nothing exactly when the two passes
    gave no candidate. *)
Theorem extract_vin_returns_first_best (image : ndarray) (found : option pystr) :
  vin_of ocr cv2_resize cv2_cvtColor_gray clahe_apply settings image = Ok found ->
  exists region processed,
    extract_region image (vin_region_start settings) (vin_region_end settings)
    = Ok region
    /\ preprocess region = Ok processed
    /\ let candidates :=
         ocr_candidates str_upper (ocr processed (tesseract_lang settings) 3%Z)
         ++ ocr_candidates str_upper (ocr processed (tesseract_lang settings) 6%Z) in
       match found with
       | Some best =>
           exists before after,
             candidates = before ++ best :: after
             /\ (forall c, In c before ->
                           vin_score isalpha isdigit c < vin_score isalpha isdigit best)
             /\ (forall c, In c after ->
                           vin_score isalpha isdigit c <= vin_score isalpha isdigit best)
       | None => candidates = []
       end.
Proof.
  rewrite extract_vin_passes. intros H.
  apply bind_ok in H. destruct H as (region & Hregion & H).
  apply bind_ok in H. destruct H as (processed & Hprocessed & H).
  exists region, processed. split; [exact Hregion|]. split; [exact Hprocessed|].
  injection H as H. cbv zeta. destruct found as [best|].
  - now apply py_max_split.
  - destruct (_ ++ _); [reflexivity|discriminate].
Qed.

(** X5. No exception of class [Exception] that the OCR engine raises
    leaves [extract_vin] or [extract_body_number] (the handlers are
    [except Exception]; exceptions outside that class, which the
    handlers let through, are not among the outcomes of an engine here):
    with another engine they raise the same exception or none either,
    and with an engine that raises on every call they return the absent
    marker wherever they return. *)
Theorem ocr_failures_stay_inside
  (engine : ndarray -> pystr -> Z -> result pystr) (image : ndarray) :
  (forall e,
      vin_of ocr cv2_resize cv2_cvtColor_gray clahe_apply settings image = Raise e ->
      vin_of engine cv2_resize cv2_cvtColor_gray clahe_apply settings image = Raise e)
  /\ (forall e,
         body_of ocr cv2_resize cv2_cvtColor_gray clahe_apply settings image = Raise e ->
         body_of engine cv2_resize cv2_cvtColor_gray clahe_apply settings image = Raise e)
  /\ ((forall enhanced lang psm, raised (ocr enhanced lang psm) = true) ->
      forall found,
        vin_of ocr cv2_resize cv2_cvtColor_gray clahe_apply settings image = Ok found
        \/ body_of ocr cv2_resize cv2_cvtColor_gray clahe_apply settings image = Ok found ->
        found = None).
Proof.
  split; [|split].
  - intros e. rewrite !extract_vin_passes.
    destruct (extract_region image _ _) as [region|e1]; simpl; [|auto].
    destruct (preprocess region) as [processed|e2]; simpl; [discriminate|auto].
  - intros e. unfold extract_body_number, _extract_with_multiple_strategies.
    destruct (extract_region image _ _) as [region|e1]; simpl; [|auto].
    rewrite !sweep_outcomes_collected.
    destruct (enhanced_images _ _ _ region) as [images|e2]; simpl; [discriminate|auto].
  - intros Hfails.
    assert (Hnone : forall enhanced lang psm,
               ocr_candidates str_upper (ocr enhanced lang psm) = []).
    { intros enhanced lang psm. specialize (Hfails enhanced lang psm).
      destruct (ocr enhanced lang psm); [discriminate|reflexivity]. }
    intros found [H|H].
    + rewrite extract_vin_passes in H.
      apply bind_ok in H. destruct H as (region & _ & H).
      apply bind_ok in H. destruct H as (processed & _ & H).
      rewrite !Hnone in H. now injection H as <-.
    + unfold extract_body_number, _extract_with_multiple_strategies in H.
      apply bind_ok in H. destruct H as (region & _ & H).
      rewrite sweep_outcomes_collected in H.
      apply bind_ok in H. destruct H as (all_candidates & Hall & H).
      apply bind_ok in Hall. destruct Hall as (images & _ & Hall).
      injection Hall as <-. injection H as <-.
      replace (flat_map _ _) with (@nil pystr); [reflexivity|].
      unfold sweep_outcomes. induction (ocr_calls images) as [|[enhanced psm] calls IH];
        simpl; [reflexivity|]. now rewrite Hnone.
Qed.


Lemma batch_results (image_files : list Path) :
  fst (batch image_files)
  = map (fun image_file => recorded (parse image_file) image_file) image_files.
Proof.
  induction image_files as [|f fs IH]; [reflexivity|].
  rewrite batch_cons. simpl. rewrite <- IH. now destruct (parse f).
Qed.



(** X8. A region of no rows cannot be upscaled: with a positive minimum
    height the scale is [min_height / 0], so [upscale_if_needed],
    [preprocess_for_ocr] and, when the VIN region of the page has no
    rows, [extract_vin] raise [ZeroDivisionError], whatever the image
    libraries and the OCR engine do. *)
Theorem empty_region_divides_by_zero (image region : ndarray) :
  (0 < min_image_height settings)%Z ->
  extract_region image (vin_region_start settings) (vin_region_end settings)
  = Ok region ->
  nd_rows region = [] ->
  upscale_if_needed cv2_resize settings region = Raise ZeroDivisionError
  /\ preprocess region = Raise ZeroDivisionError
  /\ vin_of ocr cv2_resize cv2_cvtColor_gray clahe_apply settings image
     = Raise ZeroDivisionError.
Proof.
  intros Hmin Hregion Hrows.
  assert (Hup : upscale_if_needed cv2_resize settings region = Raise ZeroDivisionError).
  { unfold upscale_if_needed, shape0. rewrite Hrows. simpl length.
    change (Z.of_nat 0) with 0%Z.
    destruct (Z.geb_spec 0 (min_image_height settings)); [lia|reflexivity]. }
  assert (Hpre : preprocess region = Raise ZeroDivisionError).
  { unfold preprocess_for_ocr. now rewrite Hup. }
  split; [exact Hup|]. split; [exact Hpre|].
  rewrite extract_vin_passes, Hregion. cbn [bind]. now rewrite Hpre.
Qed.

(** X9. The plate region is upscaled by the height of the page, not by
    its own: on a page of at least the minimum height
    [extract_reg_number] never calls [cv2.resize], so its result is the
    same whatever [cv2.resize] would do. *)
Theorem plate_region_of_tall_page_not_resized
  (resize : ndarray -> Z * Z -> interpolation -> result ndarray) (image : ndarray) :
  (min_image_height settings <= shape0 image)%Z ->
  extract_reg_number str_upper isalpha isdigit re_digit ocr cv2_resize
    cv2_cvtColor_gray clahe_apply settings image
  = extract_reg_number str_upper isalpha isdigit re_digit ocr resize
      cv2_cvtColor_gray clahe_apply settings image.
Proof.
  intros Htall. unfold extract_reg_number.
  destruct (Z.ltb_spec (shape0 image) (min_image_height settings)); [lia|].
  reflexivity.
Qed.

End Pipeline.

(* ===================================================================== *)
(** * More on plate extraction *)
(* ===================================================================== *)

(** What [findall] returns was matched somewhere in the text. *)
Lemma findall_from_matched (p : regex) (s : pystr) (skip : nat) (m : pystr) :
  In m (findall_from p skip s) ->
  exists i n, match_here p (skipn i s) = Some n /\ m = firstn n (skipn i s).
Proof.
  revert skip. induction s as [|x s IH]; intros skip.
  - simpl. destruct skip; [|contradiction].
    destruct (match_here p []) as [n|] eqn:E; [|contradiction].
    intros [<-|[]]. exists 0, n. split; [exact E|]. now destruct n.
  - simpl findall_from. destruct skip as [|k].
    + destruct (match_here p (x :: s)) as [n|] eqn:E.
      * intros [<-|Hin].
        -- exists 0, n. split; [exact E|reflexivity].
        -- destruct (IH _ Hin) as (i & n' & Hm & ->). now exists (S i), n'.
      * intros Hin. destruct (IH _ Hin) as (i & n' & Hm & ->). now exists (S i), n'.
    + intros Hin. destruct (IH _ Hin) as (i & n' & Hm & ->). now exists (S i), n'.
Qed.

Lemma in_firstn_of_skipn {A} (x : A) (n i : nat) (l : list A) :
  In x (firstn n (skipn i l)) -> In x l.
Proof.
  intros H. apply (in_firstn_skipn x i). right.
  apply (in_firstn_skipn x n). now left.
Qed.

(** The characters of a line of [split] are characters of the text. *)
Lemma split_on_chars (sep : char) (text cur line : pystr) (c : char) :
  In line (split_on sep cur text) -> In c line -> In c cur \/ In c text.
Proof.
  revert cur. induction text as [|x text IH]; intros cur; simpl.
  - intros [<-|[]] Hc. left. now apply in_rev.
  - destruct (char_eqb x sep).
    + intros [<-|Hin] Hc.
      * left. now apply in_rev.
      * destruct (IH [] Hin Hc) as [[]|H]. now right; right.
    + intros Hin Hc. destruct (IH (x :: cur) Hin Hc) as [[<-|H]|H]; auto.
Qed.

(** No character of a normalized text is a key of the table. *)
Lemma normalized_no_key (text : pystr) (c : char) :
  In c (normalize_to_cyrillic text) -> table_key c = false.
Proof.
  rewrite normalize_as_map, in_map_iff. intros (c0 & <- & _).
  unfold table_key, subst. destruct (lookup c0 char_map) as [v|] eqn:E.
  - now rewrite (values_not_keys_sound char_map eq_refl c0 v (lookup_in _ _ _ E)).
  - now rewrite E.
Qed.

Lemma plate_letter_kept (c : char) :
  plate_letter c = true -> char_eqb c SP = false /\ char_eqb c NL = false.
Proof.
  intros Hc. unfold char_eqb. split.
  - destruct (N.eqb_spec c SP) as [->|]; [discriminate Hc|reflexivity].
  - destruct (N.eqb_spec c NL) as [->|]; [discriminate Hc|reflexivity].
Qed.

Lemma remove_char_none (old : char) (s : pystr) :
  forallb (fun c => negb (char_eqb c old)) s = true -> remove_char old s = s.
Proof.
  intros H. unfold remove_char. apply filter_all.
  now rewrite forallb_forall in H.
Qed.

Section Plates.

Variable isalpha isdigit re_digit : char -> bool.
Variable settings : Settings.

Local Notation "'REG'" := (REG_NUMBER_PATTERN re_digit).
Local Notation "'plate_in'" := (plate_of_text isalpha isdigit re_digit settings).
Local Notation "'fallback_line'" :=
  (plate_fallback_line isalpha isdigit re_digit settings).
Local Notation "'fallback'" := (plate_fallback isalpha isdigit re_digit settings).

Lemma fallback_line_shape (line plate : pystr) :
  fallback_line line = Some plate ->
  plate = filter cyr_or_digit line
  /\ (min_reg_number_length settings <= Z.of_nat (length plate)
      <= max_reg_number_length settings)%Z
  /\ existsb cyr_upper plate = true
  /\ existsb re_digit plate = true
  /\ 3 <= length (filter isalpha plate) <= 4
  /\ 4 <= length (filter isdigit plate) <= 6.
Proof.
  unfold plate_fallback_line, search_class.
  assert (E : sub_class_empty not_cyr09 line = filter cyr_or_digit line).
  { unfold sub_class_empty, not_cyr09, cyr_or_digit. apply filter_ext.
    intros c. now rewrite negb_involutive. }
  rewrite E. set (cleaned := filter cyr_or_digit line).
  destruct (Z.leb_spec (min_reg_number_length settings) (Z.of_nat (length cleaned)));
    [|discriminate].
  destruct (Z.leb_spec (Z.of_nat (length cleaned)) (max_reg_number_length settings));
    [|discriminate].
  cbn [andb].
  destruct (existsb cyr_upper cleaned) eqn:Hletters; [|discriminate].
  destruct (existsb re_digit cleaned) eqn:Hdigits; [|discriminate].
  cbn [andb].
  destruct (Nat.leb_spec 3 (length (filter isalpha cleaned))); [|discriminate].
  destruct (Nat.leb_spec (length (filter isalpha cleaned)) 4); [|discriminate].
  destruct (Nat.leb_spec 4 (length (filter isdigit cleaned))); [|discriminate].
  destruct (Nat.leb_spec (length (filter isdigit cleaned)) 6); [|discriminate].
  intros [= <-]. repeat split; try reflexivity; try assumption; lia.
Qed.

Lemma fallback_first (lines : list pystr) (plate : pystr) :
  fallback lines = Some plate ->
  exists before line after,
    lines = before ++ line :: after
    /\ Forall (fun l => fallback_line l = None) before
    /\ fallback_line line = Some plate.
Proof.
  induction lines as [|l lines IH]; simpl; [discriminate|].
  destruct (fallback_line l) as [cleaned|] eqn:E.
  - intros [= <-]. exists [], l, lines. repeat split; [constructor|exact E].
  - intros H. destruct (IH H) as (before & line & after & -> & Hnone & Hline).
    exists (l :: before), line, after. repeat split; [|exact Hline].
    now constructor.
Qed.

Lemma grammar_head (m : pystr) :
  plate_grammar re_digit m = true ->
  exists l1 rest, m = l1 :: rest /\ plate_letter l1 = true.
Proof.
  destruct m as [|l1 [|d1 [|d2 [|d3 [|l2 [|l3 region]]]]]]; try discriminate.
  unfold plate_grammar. intros H.
  repeat (apply andb_prop in H; destruct H as [H ?]).
  now exists l1, (d1 :: d2 :: d3 :: l2 :: l3 :: region).
Qed.

Lemma grammar_length (m : pystr) :
  plate_grammar re_digit m = true -> length m = 8 \/ length m = 9.
Proof.
  destruct m as [|l1 [|d1 [|d2 [|d3 [|l2 [|l3 region]]]]]]; try discriminate.
  unfold plate_grammar. intros H.
  apply andb_prop in H. destruct H as [H _].
  apply andb_prop in H. destruct H as [_ H].
  apply orb_prop in H. simpl length.
  destruct H as [H|H]; apply Nat.eqb_eq in H; lia.
Qed.

Lemma grammar_classes (m : pystr) :
  plate_grammar re_digit m = true ->
  forallb (fun c => plate_letter c || re_digit c) m = true.
Proof.
  assert (Hdigits : forall region, forallb re_digit region = true ->
                      forallb (fun c => plate_letter c || re_digit c) region = true).
  { induction region as [|d region IH]; simpl; [reflexivity|].
    intros E. apply andb_prop in E. destruct E as [-> E].
    rewrite orb_true_r. now apply IH. }
  destruct m as [|l1 [|d1 [|d2 [|d3 [|l2 [|l3 region]]]]]]; try discriminate.
  unfold plate_grammar. intros H.
  repeat match goal with
         | E : _ && _ = true |- _ => apply andb_prop in E; destruct E
         end.
  cbn [forallb]. rewrite Hdigits by assumption.
  repeat match goal with E : _ = true |- _ => rewrite E; clear E end.
  now rewrite !orb_true_r.
Qed.

(** The first match of the pattern, as [findall] returns it. *)
Lemma first_match (text m : pystr) (more : list pystr) :
  findall REG text = m :: more ->
  plate_grammar re_digit m = true
  /\ exists i, m = firstn (length m) (skipn i text).
Proof.
  intros Hfind.
  assert (Hin : In m (findall_from REG 0 text))
    by (unfold findall in Hfind; rewrite Hfind; now left).
  destruct (findall_from_matched _ _ _ _ Hin) as (i & n & Hm & ->).
  destruct (reg_match_grammar re_digit _ _ Hm) as [Hg Hn].
  split; [exact Hg|]. exists i. now rewrite length_firstn, Nat.min_l.
Qed.

(** Whatever is returned as a plate holds characters of the text only,
    and at least one. *)
Lemma plate_chars (text plate : pystr) :
  plate_in text = Some plate ->
  plate <> [] /\ forall c, In c plate -> In c text.
Proof.
  unfold plate_of_text. destruct (findall REG text) as [|m more] eqn:Hfind.
  - intros H. apply fallback_first in H.
    destruct H as (before & line & after & Hsplit & _ & Hline).
    apply fallback_line_shape in Hline.
    destruct Hline as (-> & _ & Hletters & _). split.
    + intros E. rewrite E in Hletters. discriminate.
    + intros c Hc. apply filter_In in Hc. destruct Hc as [Hc _].
      assert (Hl : In line (split_on NL [] text)).
      { fold (str_split NL text). rewrite Hsplit. apply in_or_app. right. now left. }
      destruct (split_on_chars NL text [] line c Hl Hc) as [[]|H]. exact H.
  - intros [= <-]. destruct (first_match _ _ _ Hfind) as (Hg & i & Hm). split.
    + destruct (grammar_head m Hg) as (l1 & rest & -> & Hl1).
      destruct (plate_letter_kept l1 Hl1) as [Hsp Hnl].
      unfold remove_char. simpl. rewrite Hsp. simpl. rewrite Hnl. simpl. discriminate.
    + intros c Hc. unfold remove_char in Hc.
      apply filter_In in Hc. destruct Hc as [Hc _].
      apply filter_In in Hc. destruct Hc as [Hc _].
      rewrite Hm in Hc. now apply in_firstn_of_skipn in Hc.
Qed.

(** X10. When the pattern matches and a space or a line end is no
    digit of [\d], the plate returned is the first match as it stands, the
    two [replace] calls find nothing to remove in it: a word of the
    grammar, of 8 or 9 characters, read from the text at one position. *)
Theorem matched_plate_is_first_match (text m : pystr) (more : list pystr) :
  re_digit SP = false -> re_digit NL = false ->
  findall REG text = m :: more ->
  plate_in text = Some m
  /\ plate_grammar re_digit m = true
  /\ (length m = 8 \/ length m = 9)
  /\ exists i, m = firstn (length m) (skipn i text).
Proof.
  intros Hsp Hnl Hfind. destruct (first_match _ _ _ Hfind) as (Hg & Hpos).
  split; [|split; [exact Hg|split; [now apply grammar_length|exact Hpos]]].
  unfold plate_of_text. rewrite Hfind. f_equal.
  pose proof (grammar_classes m Hg) as Hcls. rewrite forallb_forall in Hcls.
  assert (Hkeep : forall old, re_digit old = false -> plate_letter old = false ->
                              remove_char old m = m).
  { intros old Hd Hl. apply remove_char_none. apply forallb_forall.
    intros c Hc. specialize (Hcls c Hc). unfold char_eqb.
    destruct (N.eqb_spec c old) as [->|]; [|reflexivity].
    rewrite Hd, Hl in Hcls. discriminate. }
  rewrite (Hkeep SP Hsp eq_refl). apply (Hkeep NL Hnl eq_refl).
Qed.

(** X11. When the pattern matches nowhere, the plate returned is taken
    from the first line that passes the fallback checks: the line with
    everything but [А-Я] and [0-9] removed, of a length within the two
    settings, with at least one capital of [А-Я] and one digit, 3 to 4
    alphabetic characters and 4 to 6 digits. *)
Theorem fallback_plate_is_first_passing_line (text plate : pystr) :
  findall REG text = [] ->
  plate_in text = Some plate ->
  exists before line after,
    str_split NL text = before ++ line :: after
    /\ Forall (fun l => fallback_line l = None) before
    /\ plate = filter cyr_or_digit line
    /\ (min_reg_number_length settings <= Z.of_nat (length plate)
        <= max_reg_number_length settings)%Z
    /\ existsb cyr_upper plate = true
    /\ existsb re_digit plate = true
    /\ 3 <= length (filter isalpha plate) <= 4
    /\ 4 <= length (filter isdigit plate) <= 6.
Proof.
  intros Hfind. unfold plate_of_text. rewrite Hfind. intros H.
  apply fallback_first in H.
  destruct H as (before & line & after & Hsplit & Hnone & Hline).
  exists before, line, after. split; [exact Hsplit|]. split; [exact Hnone|].
  now apply fallback_line_shape.
Qed.

End Plates.

(** X12. Normalization keeps the length of the text and leaves no key of
    the table in it; the plate is read from the normalized text, so no
    plate that [extract_reg_number] returns holds a Latin look-alike or
    the digit 0, which the table turns into the Cyrillic letter О. *)
Theorem plate_never_holds_a_table_key
  (str_upper : pystr -> pystr) (isalpha isdigit re_digit : char -> bool)
  (ocr : ndarray -> pystr -> Z -> result pystr)
  (cv2_resize : ndarray -> Z * Z -> interpolation -> result ndarray)
  (cv2_cvtColor_gray : ndarray -> result ndarray)
  (clahe_apply : float -> Z -> ndarray -> result ndarray)
  (settings : Settings) (image : ndarray) (plate : pystr) :
  extract_reg_number str_upper isalpha isdigit re_digit ocr cv2_resize
    cv2_cvtColor_gray clahe_apply settings image = Ok (Some plate) ->
  (forall text, length (normalize_to_cyrillic text) = length text
                /\ existsb table_key (normalize_to_cyrillic text) = false)
  /\ existsb table_key plate = false
  /\ contains (ch "0") plate = false.
Proof.
  intros H.
  assert (Hnorm : forall text, existsb table_key (normalize_to_cyrillic text) = false).
  { intros text. destruct (existsb _ _) eqn:E; [|reflexivity].
    apply existsb_exists in E. destruct E as (c & Hc & Hkey).
    rewrite (normalized_no_key text c Hc) in Hkey. discriminate Hkey. }
  assert (Hplate : existsb table_key plate = false).
  { unfold extract_reg_number in H.
    apply bind_ok in H. destruct H as (region & _ & H).
    apply bind_ok in H. destruct H as (sized & _ & H).
    apply bind_ok in H. destruct H as (processed & _ & H).
    apply bind_ok in H. destruct H as (text & _ & H).
    injection H as H. apply plate_chars in H. destruct H as [_ Hsub].
    destruct (existsb table_key plate) eqn:E; [|reflexivity].
    apply existsb_exists in E. destruct E as (c & Hc & Hkey).
    rewrite (normalized_no_key _ c (Hsub c Hc)) in Hkey. discriminate Hkey. }
  split; [|split; [exact Hplate|]].
  - intros text. split; [|apply Hnorm].
    rewrite normalize_as_map. apply length_map.
  - unfold contains.
    destruct (existsb (char_eqb (ch "0")) plate) eqn:E; [|reflexivity].
    apply existsb_exists in E. destruct E as (c & Hc & Hzero).
    apply N.eqb_eq in Hzero. subst c.
    assert (Hkey : existsb table_key plate = true).
    { apply existsb_exists. exists (ch "0"). split; [exact Hc|reflexivity]. }
    congruence.
Qed.

(* ===================================================================== *)
(** * The output document *)
(* ===================================================================== *)




Section Statistics.

Variable str_upper : pystr -> pystr.
Variable isalpha isdigit re_digit : char -> bool.
Variable ocr : ndarray -> pystr -> Z -> result pystr.
Variable cv2_resize : ndarray -> Z * Z -> interpolation -> result ndarray.
Variable cv2_cvtColor_gray : ndarray -> result ndarray.
Variable clahe_apply : float -> Z -> ndarray -> result ndarray.
Variable cv2_imread : pystr -> option ndarray.
Variable settings : Settings.

Local Notation "'parse'" :=
  (parse_document str_upper isalpha isdigit re_digit ocr cv2_resize
     cv2_cvtColor_gray clahe_apply cv2_imread settings).
Local Notation "'batch'" :=
  (process_directory str_upper isalpha isdigit re_digit ocr cv2_resize
     cv2_cvtColor_gray clahe_apply cv2_imread settings).

Lemma found_vin_length (image : ndarray) (s : pystr) :
  extract_vin str_upper isalpha isdigit ocr cv2_resize cv2_cvtColor_gray
    clahe_apply settings image = Ok (Some s) ->
  length s = 17.
Proof.
  unfold extract_vin. intros H.
  apply bind_ok in H. destruct H as (region & _ & H).
  apply bind_ok in H. destruct H as (sized & _ & H).
  apply bind_ok in H. destruct H as (processed & _ & H).
  injection H as H. apply py_max_in in H. apply in_app_or in H.
  destruct H as [H|H]; apply (ocr_candidates_shaped str_upper _ _ H).
Qed.

Lemma found_body_length (image : ndarray) (s : pystr) :
  extract_body_number str_upper isalpha isdigit ocr cv2_resize cv2_cvtColor_gray
    clahe_apply settings image = Ok (Some s) ->
  length s = 17.
Proof.
  unfold extract_body_number, _extract_with_multiple_strategies. intros H.
  apply bind_ok in H. destruct H as (region & _ & H).
  rewrite sweep_outcomes_collected in H.
  apply bind_ok in H. destruct H as (all_candidates & Hall & H).
  apply bind_ok in Hall. destruct Hall as (images & _ & Hall).
  injection Hall as <-. injection H as H.
  apply consensus_in in H. apply in_flat_map in H. destruct H as (outcome & _ & H).
  apply (ocr_candidates_shaped str_upper _ _ H).
Qed.

Lemma found_plate_not_empty (image : ndarray) (s : pystr) :
  extract_reg_number str_upper isalpha isdigit re_digit ocr cv2_resize
    cv2_cvtColor_gray clahe_apply settings image = Ok (Some s) ->
  s <> [].
Proof.
  unfold extract_reg_number. intros H.
  apply bind_ok in H. destruct H as (region & _ & H).
  apply bind_ok in H. destruct H as (sized & _ & H).
  apply bind_ok in H. destruct H as (processed & _ & H).
  apply bind_ok in H. destruct H as (text & _ & H).
  injection H as H. now apply plate_chars in H.
Qed.

Lemma truthy_not_empty (field : option pystr) :
  (forall s, field = Some s -> s <> []) -> truthy field = is_some field.
Proof.
  destruct field as [[|c s]|]; simpl; try reflexivity.
  intros H. now destruct (H [] eq_refl).
Qed.

(** No field of a recorded result is the empty string. *)
Lemma recorded_fields (image_file : Path) :
  let r := recorded (parse image_file) image_file in
  truthy (reg_number r) = is_some (reg_number r)
  /\ truthy (vin r) = is_some (vin r)
  /\ truthy (body_number r) = is_some (body_number r).
Proof.
  cbv zeta. unfold parse_document.
  destruct (cv2_imread (path_str image_file)) as [image|]; [|now repeat split].
  destruct (extract_reg_number _ _ _ _ _ _ _ _ _ image) as [plate|] eqn:Hplate;
    [|now repeat split].
  destruct (extract_vin _ _ _ _ _ _ _ _ image) as [v|] eqn:Hvin;
    [|now repeat split].
  destruct (extract_body_number _ _ _ _ _ _ _ _ image) as [b|] eqn:Hbody;
    [|now repeat split].
  cbn [bind recorded reg_number vin body_number]. repeat split.
  - apply truthy_not_empty. intros s ->. exact (found_plate_not_empty image s Hplate).
  - apply truthy_not_empty. intros s -> E.
    pose proof (found_vin_length image s Hvin) as Hlen. now rewrite E in Hlen.
  - apply truthy_not_empty. intros s -> E.
    pose proof (found_body_length image s Hbody) as Hlen. now rewrite E in Hlen.
Qed.

(** X14. On the results of a batch the three counts of [statistics] are
    the numbers of documents whose field is set: the plate, the VIN and
    the body number that the extractors return are never the empty
    string, so the truth test of [save_results] counts exactly the
    fields that are not [None]; and [total_processed] is the number of
    files. *)
Theorem statistics_count_the_set_fields (image_files : list Path) :
  let results := fst (batch image_files) in
  save_results results
  = JDict [ (py "documents", JList (map to_dict results));
            (py "total_processed", JInt (Z.of_nat (length image_files)));
            (py "statistics",
             JDict [ (py "reg_numbers_found",
                      JInt (Z.of_nat (set_count reg_number results)));
                     (py "vins_found", JInt (Z.of_nat (set_count vin results)));
                     (py "body_numbers_found",
                      JInt (Z.of_nat (set_count body_number results))) ]);
            (py "version", JStr (py "1.0.0")) ].
Proof.
  cbv zeta. unfold save_results. rewrite batch_length.
  assert (Hcount : forall field,
             (forall f, let r := recorded (parse f) f in
                        truthy (field r) = is_some (field r)) ->
             found_count field (fst (batch image_files))
             = Z.of_nat (set_count field (fst (batch image_files)))).
  { intros field Hfield. unfold found_count, set_count. f_equal. f_equal.
    apply filter_ext_in. intros r Hr.
    rewrite batch_results in Hr. apply in_map_iff in Hr.
    destruct Hr as (f & <- & _). apply Hfield. }
  rewrite !Hcount; [reflexivity| | |]; intros f; apply recorded_fields.
Qed.

End Statistics.

(* ===================================================================== *)
(** * More on regions, upscaling and the scales of the sweep *)
(* ===================================================================== *)

Local Open Scope Z_scope.

Lemma int_mul_raises (n : Z) (x : float) (e : exn) :
  int_mul n x = Raise e ->
  e = OverflowError (py "int too large to convert to float")
  \/ e = OverflowError (py "cannot convert float infinity to integer")
  \/ e = ValueError (py "cannot convert float NaN to integer").
Proof.
  unfold int_mul, mul_int_float, float_of_int.
  destruct (binary_normalize prec emax n 0 false) as [s|s| |s m ex]; cbn [bind];
    try (intros [= <-]; now left);
    (destruct (fmul _ x); cbn [int_of_float]; intros [= <-]; auto).
Qed.

(** X15. Whatever the two ratios are, [extract_region] either returns a
    block of consecutive rows of the image, of the width and the number
    of dimensions of the image and of no more rows than the image, or
    raises one of three exceptions: the [OverflowError] of a height too
    large for a float, the [OverflowError] of [int] on an infinite product
    or the [ValueError] of [int] on a NaN. It never reads outside the
    image and never divides. *)
Theorem extract_region_cuts_a_block (image : ndarray) (start_ratio end_ratio : float) :
  (forall region,
      extract_region image start_ratio end_ratio = Ok region ->
      (exists first count,
          nd_rows region = firstn count (skipn first (nd_rows image)))
      /\ shape0 region <= shape0 image
      /\ shape1 region = shape1 image
      /\ nd_ndim region = nd_ndim image
      /\ (rectangular image -> rectangular region))
  /\ (forall e,
         extract_region image start_ratio end_ratio = Raise e ->
         e = OverflowError (py "int too large to convert to float")
         \/ e = OverflowError (py "cannot convert float infinity to integer")
         \/ e = ValueError (py "cannot convert float NaN to integer")).
Proof.
  unfold extract_region. split.
  - intros region H.
    apply bind_ok in H. destruct H as (start_y & _ & H).
    apply bind_ok in H. destruct H as (end_y & _ & H).
    injection H as <-. split; [|split; [|split; [|split]]].
    + eexists _, _. reflexivity.
    + unfold shape0, row_slice. cbn [nd_rows].
      rewrite length_firstn, length_skipn. lia.
    + reflexivity.
    + reflexivity.
    + apply row_slice_rectangular.
  - intros e H. apply bind_raise in H. destruct H as [H|(start_y & _ & H)].
    + now apply int_mul_raises in H.
    + apply bind_raise in H. destruct H as [H|(end_y & _ & H)]; [|discriminate].
      now apply int_mul_raises in H.
Qed.

Lemma row_of_ordered (H : Z) (a b : float) :
  0 <= H < 2 ^ 53 -> unit_ratio a -> unit_ratio b -> fleb a b = true ->
  0 <= row_of H a <= row_of H b /\ row_of H b <= H.
Proof.
  intros HH Ha Hb Hab.
  destruct (int_mul_ordered H a b HH Ha Hb Hab) as (ya & yb & Hya & Hyb & Hord).
  rewrite (int_mul_unit H a HH Ha) in Hya. rewrite (int_mul_unit H b HH Hb) in Hyb.
  injection Hya as ->. injection Hyb as ->. exact Hord.
Qed.

Lemma extract_region_unit (image : ndarray) (a b : float) :
  shape0 image < 2 ^ 53 -> unit_ratio a -> unit_ratio b -> fleb a b = true ->
  extract_region image a b
  = Ok (row_slice (row_of (shape0 image) a) (row_of (shape0 image) b) image)
  /\ nd_rows (row_slice (row_of (shape0 image) a) (row_of (shape0 image) b) image)
     = firstn (Z.to_nat (row_of (shape0 image) b - row_of (shape0 image) a))
         (skipn (Z.to_nat (row_of (shape0 image) a)) (nd_rows image)).
Proof.
  intros HH Ha Hb Hab.
  assert (H0 : 0 <= shape0 image < 2 ^ 53) by (unfold shape0 in *; lia).
  destruct (row_of_ordered _ a b H0 Ha Hb Hab) as [Hord Htop]. split.
  - unfold extract_region. now rewrite (int_mul_unit _ a H0 Ha), (int_mul_unit _ b H0 Hb).
  - apply row_slice_inside; lia.
Qed.

(** X16. With the default settings the three regions are cut from every
    page (of a height below 2^53) without an exception: the plate region
    is the rows [p1, p2), the VIN region the rows [v1, v2) and the body
    region the rows [b1, b2) with
    [0 <= p1 <= v1 <= p2 <= b1 <= v2 <= b2 <= height], so the VIN region
    starts inside the plate region and the body region starts inside the
    VIN region. *)
Theorem default_regions_fit_the_page (image : ndarray) :
  shape0 image < 2 ^ 53 ->
  exists p1 p2 v1 v2 b1 b2 plate_region vin_region body_region,
    extract_region image (reg_number_region_start default_settings)
      (reg_number_region_end default_settings) = Ok plate_region
    /\ extract_region image (vin_region_start default_settings)
         (vin_region_end default_settings) = Ok vin_region
    /\ extract_region image (body_number_region_start default_settings)
         (body_number_region_end default_settings) = Ok body_region
    /\ nd_rows plate_region
       = firstn (Z.to_nat (p2 - p1)) (skipn (Z.to_nat p1) (nd_rows image))
    /\ nd_rows vin_region
       = firstn (Z.to_nat (v2 - v1)) (skipn (Z.to_nat v1) (nd_rows image))
    /\ nd_rows body_region
       = firstn (Z.to_nat (b2 - b1)) (skipn (Z.to_nat b1) (nd_rows image))
    /\ 0 <= p1 <= v1 /\ v1 <= p2 <= b1 /\ b1 <= v2 <= b2 /\ b2 <= shape0 image.
Proof.
  intros HH.
  assert (H0 : 0 <= shape0 image < 2 ^ 53) by (unfold shape0 in *; lia).
  assert (U15 : unit_ratio (dec 15 100)) by (repeat split; vm_compute; reflexivity).
  assert (U25 : unit_ratio (dec 25 100)) by (repeat split; vm_compute; reflexivity).
  assert (U30 : unit_ratio (dec 30 100)) by (repeat split; vm_compute; reflexivity).
  assert (U52 : unit_ratio (dec 52 100)) by (repeat split; vm_compute; reflexivity).
  assert (U60 : unit_ratio (dec 60 100)) by (repeat split; vm_compute; reflexivity).
  assert (U68 : unit_ratio (dec 68 100)) by (repeat split; vm_compute; reflexivity).
  destruct (extract_region_unit image _ _ HH U15 U30 eq_refl) as [Hp Hprows].
  destruct (extract_region_unit image _ _ HH U25 U60 eq_refl) as [Hv Hvrows].
  destruct (extract_region_unit image _ _ HH U52 U68 eq_refl) as [Hb Hbrows].
  pose proof (row_of_ordered _ _ _ H0 U15 U25 eq_refl).
  pose proof (row_of_ordered _ _ _ H0 U25 U30 eq_refl).
  pose proof (row_of_ordered _ _ _ H0 U30 U52 eq_refl).
  pose proof (row_of_ordered _ _ _ H0 U52 U60 eq_refl).
  pose proof (row_of_ordered _ _ _ H0 U60 U68 eq_refl).
  exists (row_of (shape0 image) (dec 15 100)), (row_of (shape0 image) (dec 30 100)),
    (row_of (shape0 image) (dec 25 100)), (row_of (shape0 image) (dec 60 100)),
    (row_of (shape0 image) (dec 52 100)), (row_of (shape0 image) (dec 68 100)).
  eexists _, _, _.
  split; [exact Hp|]. split; [exact Hv|]. split; [exact Hb|].
  split; [exact Hprows|]. split; [exact Hvrows|]. split; [exact Hbrows|]. lia.
Qed.

(** [int(H * x)] for a positive [H] below 2^53 and a positive float of a
    non-positive exponent. *)
Lemma int_mul_finite_pos (H m : positive) (e : Z) :
  Zpos H < 2 ^ 53 -> Zpos (digits2_pos m) <= 53 -> e <= 0 ->
  int_mul (Zpos H) (S754_finite false m e)
  = Ok (row_of (Zpos H) (S754_finite false m e)).
Proof.
  intros HH Hdm He.
  destruct (float_of_int_pos H HH) as (mh & eh & Hf & Heh & Hmh & Hdmh).
  unfold int_mul, mul_int_float. rewrite Hf. cbn [bind fmul SFmul xorb].
  rewrite round_aux_int.
  - f_equal. cbn [row_of]. rewrite Pos2Z.inj_mul, Hmh.
    replace (Zpos H * 2 ^ (- eh) * Zpos m) with (Zpos (H * m) * 2 ^ (- eh))
      by (rewrite Pos2Z.inj_mul; lia).
    replace (eh + e) with (e - (- eh)) by lia.
    fold (rounded_int (Zpos (H * m) * 2 ^ (- eh)) (e - - eh)).
    rewrite rounded_int_rescale by lia. now rewrite Pos2Z.inj_mul.
  - unfold rnd_exp, cexp, fexp, SpecFloat.emin, prec, emax. cbn [Zdigits2].
    assert (Hprod : Zpos (digits2_pos (mh * m)) <= 106).
    { apply digits_le. rewrite Pos2Z.inj_mul.
      pose proof (digits_pos_bounds m) as [_ Hum].
      assert (2 ^ Zpos (digits2_pos m) <= 2 ^ 53) by (apply Z.pow_le_mono_r; lia).
      assert (Zpos mh < 2 ^ 53).
      { pose proof (digits_pos_bounds mh) as [_ Humh]. now rewrite Hdmh in Humh. }
      change (2 ^ 106) with (2 ^ 53 * 2 ^ 53). nia. }
    lia.
Qed.

(** [int(n * x)] when [x] is [k * 2^(e + j)] for a small integer [k]:
    the product is exact. *)
Lemma int_mul_dyadic (n : Z) (m : positive) (e k j : Z) :
  0 < n -> 0 < k -> 0 <= j -> n * k < 2 ^ 53 ->
  Zpos m = k * 2 ^ j -> Zpos (digits2_pos m) <= 53 -> e <= 0 -> -1074 <= e + j ->
  int_mul n (S754_finite false m e) = Ok (Z.shiftl (n * k) (e + j)).
Proof.
  intros Hn Hk Hj Hnk Hm Hdm He Hej.
  destruct n as [|p|p]; try lia. destruct k as [|q|q]; try lia.
  rewrite int_mul_finite_pos by (try assumption; nia).
  f_equal. cbn [row_of]. rewrite Hm.
  replace (Zpos p * (Zpos q * 2 ^ j)) with (Zpos (p * q) * 2 ^ j)
    by (rewrite Pos2Z.inj_mul; lia).
  replace e with (e + j - j) at 1 by lia.
  rewrite rounded_int_rescale by lia.
  rewrite rounded_int_small by (try rewrite Pos2Z.inj_mul; lia).
  now rewrite Pos2Z.inj_mul.
Qed.

Lemma sweep_scale_products (n : Z) :
  0 <= n < 2 ^ 50 ->
  int_mul n (dec 15 10) = Ok (3 * n / 2)
  /\ int_mul n (dec 2 1) = Ok (2 * n)
  /\ int_mul n (dec 25 10) = Ok (5 * n / 2)
  /\ int_mul n (dec 3 1) = Ok (3 * n).
Proof.
  intros Hn.
  assert (E15 : dec 15 10 = S754_finite false 6755399441055744 (-52))
    by (vm_compute; reflexivity).
  assert (E20 : dec 2 1 = S754_finite false 4503599627370496 (-51))
    by (vm_compute; reflexivity).
  assert (E25 : dec 25 10 = S754_finite false 5629499534213120 (-51))
    by (vm_compute; reflexivity).
  assert (E30 : dec 3 1 = S754_finite false 6755399441055744 (-51))
    by (vm_compute; reflexivity).
  rewrite E15, E20, E25, E30.
  destruct (Z.eq_dec n 0) as [->|Hpos]; [repeat split; reflexivity|].
  assert (H50 : 2 ^ 53 = 8 * 2 ^ 50) by reflexivity.
  repeat split.
  - rewrite (int_mul_dyadic n _ (-52) 3 51);
      [|solve [reflexivity | lia | vm_compute; discriminate] ..].
    f_equal. change (-52 + 51) with (- 1). rewrite Z.shiftl_div_pow2 by lia.
    f_equal. lia.
  - rewrite (int_mul_dyadic n _ (-51) 1 52);
      [|solve [reflexivity | lia | vm_compute; discriminate] ..].
    f_equal. change (-51 + 52) with 1. rewrite Z.shiftl_mul_pow2 by lia.
    change (2 ^ 1) with 2. lia.
  - rewrite (int_mul_dyadic n _ (-51) 5 50);
      [|solve [reflexivity | lia | vm_compute; discriminate] ..].
    f_equal. change (-51 + 50) with (- 1). rewrite Z.shiftl_div_pow2 by lia.
    f_equal. lia.
  - rewrite (int_mul_dyadic n _ (-51) 3 51);
      [|solve [reflexivity | lia | vm_compute; discriminate] ..].
    f_equal. change (-51 + 51) with 0. rewrite Z.shiftl_0_r. lia.
Qed.

(** X17. The scales of the sweep are binary fractions, so the sizes it
    asks [cv2.resize] for are exact: for a region of [H] rows and [W]
    columns (below 2^50) the scales 1.5, 2.0, 2.5 and 3.0 give
    [(3W/2, 3H/2)], [(2W, 2H)], [(5W/2, 5H/2)] and [(3W, 3H)] with the
    divisions rounded down, and the scale 1.0 resizes nothing. *)
Theorem sweep_sizes_are_exact
  (cv2_resize : ndarray -> Z * Z -> interpolation -> result ndarray)
  (cv2_cvtColor_gray : ndarray -> result ndarray)
  (clahe_apply : float -> Z -> ndarray -> result ndarray)
  (region : ndarray) (clip_limit : float) (tile_size : Z) :
  shape0 region < 2 ^ 50 -> shape1 region < 2 ^ 50 ->
  enhanced_variant cv2_resize cv2_cvtColor_gray clahe_apply region
    clip_limit tile_size (dec 1 1)
  = (gray <- to_gray cv2_cvtColor_gray region ;; clahe_apply clip_limit tile_size gray)
  /\ forall scale num den,
       In (scale, (num, den))
          [(dec 15 10, (3, 2)); (dec 2 1, (2, 1)); (dec 25 10, (5, 2));
           (dec 3 1, (3, 1))] ->
       enhanced_variant cv2_resize cv2_cvtColor_gray clahe_apply region
         clip_limit tile_size scale
       = (scaled <- cv2_resize region
                      (num * shape1 region / den, num * shape0 region / den)
                      INTER_CUBIC ;;
          gray <- to_gray cv2_cvtColor_gray scaled ;;
          clahe_apply clip_limit tile_size gray).
Proof.
  intros HH HW.
  assert (H0 : 0 <= shape0 region < 2 ^ 50) by (unfold shape0 in *; lia).
  assert (W0 : 0 <= shape1 region < 2 ^ 50) by (unfold shape1 in *; lia).
  destruct (sweep_scale_products _ H0) as (Hh15 & Hh20 & Hh25 & Hh30).
  destruct (sweep_scale_products _ W0) as (Hw15 & Hw20 & Hw25 & Hw30).
  split; [reflexivity|].
  intros scale num den Hin. unfold enhanced_variant.
  destruct Hin as [E|[E|[E|[E|[]]]]]; injection E as <- <- <-.
  - change (feqb (dec 15 10) (dec 1 1)) with false. cbn [negb].
    rewrite Hh15, Hw15. reflexivity.
  - change (feqb (dec 2 1) (dec 1 1)) with false. cbn [negb].
    rewrite Hh20, Hw20. cbn [bind]. now rewrite !Z.div_1_r.
  - change (feqb (dec 25 10) (dec 1 1)) with false. cbn [negb].
    rewrite Hh25, Hw25. reflexivity.
  - change (feqb (dec 3 1) (dec 1 1)) with false. cbn [negb].
    rewrite Hh30, Hw30. cbn [bind]. now rewrite !Z.div_1_r.
Qed.

Lemma int_mul_nonneg (W : Z) (m : positive) (e : Z) :
  0 <= W < 2 ^ 53 -> is_float (S754_finite false m e) = true -> e <= 0 ->
  fleb (dec 1 1) (S754_finite false m e) = true ->
  exists w, int_mul W (S754_finite false m e) = Ok w /\ W <= w.
Proof.
  intros HW Hv He Hone. destruct W as [|p|p]; try lia.
  - exists 0. split; [reflexivity|lia].
  - destruct (valid_digits m e Hv) as (Hdm & _).
    exists (row_of (Zpos p) (S754_finite false m e)).
    split; [apply int_mul_finite_pos; lia|].
    rewrite <- (row_of_one p) at 1 by lia.
    revert Hone. rewrite one_float. intros Hone.
    apply row_of_mono; [reflexivity|exact Hv|exact Hone].
Qed.

(** X18. With the default minimum of 800 rows, every region of 1 to 799
    rows (and of a width below 2^53) is sent to [cv2.resize] with the
    cubic interpolation and a target of 799 or 800 rows, never fewer and
    never more, and of at least the width of the region. *)
Theorem default_upscale_asks_799_or_800
  (cv2_resize : ndarray -> Z * Z -> interpolation -> result ndarray)
  (image : ndarray) :
  0 < shape0 image < 800 -> shape1 image < 2 ^ 53 ->
  exists scale new_width new_height,
    int_truediv 800 (shape0 image) = Ok scale
    /\ int_mul (shape1 image) scale = Ok new_width
    /\ int_mul (shape0 image) scale = Ok new_height
    /\ upscale_if_needed cv2_resize default_settings image
       = cv2_resize image (new_width, new_height) INTER_CUBIC
    /\ 799 <= new_height <= 800
    /\ shape1 image <= new_width.
Proof.
  intros Hh Hw.
  set (check := fun h : Z =>
         match int_truediv 800 h with
         | Ok (S754_finite false m e) =>
             is_float (S754_finite false m e) && (e <=? 0)
             && fleb (dec 1 1) (S754_finite false m e)
             && match int_mul h (S754_finite false m e) with
                | Ok n => (799 <=? n) && (n <=? 800)
                | Raise _ => false
                end
         | _ => false
         end).
  assert (Hall : forallb check (map Z.of_nat (seq 1 799)) = true)
    by (vm_compute; reflexivity).
  rewrite forallb_forall in Hall.
  assert (Hin : In (shape0 image) (map Z.of_nat (seq 1 799))).
  { apply in_map_iff. exists (Z.to_nat (shape0 image)). split; [lia|].
    apply in_seq. lia. }
  specialize (Hall _ Hin). unfold check in Hall. clear check Hin.
  destruct (int_truediv 800 (shape0 image)) as [[ | | |[|] m e]|] eqn:Hscale;
    try discriminate Hall.
  apply andb_prop in Hall. destruct Hall as [Hall Hnew].
  apply andb_prop in Hall. destruct Hall as [Hall Hone].
  apply andb_prop in Hall. destruct Hall as [Hv He]. apply Z.leb_le in He.
  destruct (int_mul (shape0 image) (S754_finite false m e)) as [new_height|] eqn:Hheight;
    [|discriminate Hnew].
  apply andb_prop in Hnew. destruct Hnew as [Hlo Hhi].
  apply Z.leb_le in Hlo. apply Z.leb_le in Hhi.
  destruct (int_mul_nonneg (shape1 image) m e) as (new_width & Hwidth & Hwide);
    [unfold shape1 in *; lia|exact Hv|exact He|exact Hone|].
  exists (S754_finite false m e), new_width, new_height.
  split; [reflexivity|]. split; [exact Hwidth|]. split; [exact Hheight|].
  split; [|split; [lia|exact Hwide]].
  unfold upscale_if_needed. change (min_image_height default_settings) with 800.
  destruct (Z.geb_spec (shape0 image) 800); [lia|].
  rewrite Hscale. cbn [bind]. rewrite Hwidth. cbn [bind]. rewrite Hheight.
  reflexivity.
Qed.

Local Close Scope Z_scope.

(* ===================================================================== *)
(** * More statements on concrete inputs *)
(* ===================================================================== *)

Lemma extract_vin_returns_first_best_witness :
  exists region processed,
    extract_region (Double.blank 2400 2) (vin_region_start default_settings)
      (vin_region_end default_settings) = Ok region
    /\ preprocess_for_ocr Double.cv2_resize Double.cv2_cvtColor_gray
         Double.clahe_apply default_settings region = Ok processed
    /\ exists before after,
         ocr_candidates Double.str_upper
           (Double.ocr processed (tesseract_lang default_settings) 3%Z)
         ++ ocr_candidates Double.str_upper
              (Double.ocr processed (tesseract_lang default_settings) 6%Z)
         = before ++ py "WP1ZZZ9PZ9LA42290" :: after
         /\ (forall c, In c before ->
                       vin_score Double.isalpha Double.isdigit c
                       < vin_score Double.isalpha Double.isdigit
                           (py "WP1ZZZ9PZ9LA42290"))
         /\ (forall c, In c after ->
                       vin_score Double.isalpha Double.isdigit c
                       <= vin_score Double.isalpha Double.isdigit
                            (py "WP1ZZZ9PZ9LA42290")).
Proof.
  apply (extract_vin_returns_first_best Double.str_upper Double.isalpha
           Double.isdigit Double.ocr Double.cv2_resize Double.cv2_cvtColor_gray
           Double.clahe_apply default_settings (Double.blank 2400 2)
           (Some (py "WP1ZZZ9PZ9LA42290"))).
  vm_compute. reflexivity.
Defined.

Lemma ocr_failures_stay_inside_witness :
  extract_vin Double.str_upper Double.isalpha Double.isdigit Sample.ocr_fails
    Double.cv2_resize Double.cv2_cvtColor_gray Double.clahe_apply
    default_settings (Double.blank 1 4)
  = Raise ZeroDivisionError.
Proof.
  apply (proj1
           (ocr_failures_stay_inside Double.str_upper Double.isalpha Double.isdigit
              Double.ocr Double.cv2_resize Double.cv2_cvtColor_gray
              Double.clahe_apply default_settings Sample.ocr_fails
              (Double.blank 1 4))).
  vm_compute. reflexivity.
Defined.



Lemma empty_region_divides_by_zero_witness :
  upscale_if_needed Double.cv2_resize default_settings (Double.blank 0 4)
  = Raise ZeroDivisionError
  /\ preprocess_for_ocr Double.cv2_resize Double.cv2_cvtColor_gray
       Double.clahe_apply default_settings (Double.blank 0 4)
     = Raise ZeroDivisionError
  /\ extract_vin Double.str_upper Double.isalpha Double.isdigit Double.ocr
       Double.cv2_resize Double.cv2_cvtColor_gray Double.clahe_apply
       default_settings (Double.blank 1 4)
     = Raise ZeroDivisionError.
Proof.
  apply (empty_region_divides_by_zero Double.str_upper Double.isalpha
           Double.isdigit Double.ocr Double.cv2_resize Double.cv2_cvtColor_gray
           Double.clahe_apply default_settings (Double.blank 1 4)
           (Double.blank 0 4)); vm_compute; reflexivity.
Defined.

Lemma plate_region_of_tall_page_not_resized_witness :
  extract_reg_number Double.str_upper Double.isalpha Double.isdigit Double.isdigit
    Sample.ocr_plate Double.cv2_resize Double.cv2_cvtColor_gray Double.clahe_apply
    default_settings (Double.blank 2400 2)
  = extract_reg_number Double.str_upper Double.isalpha Double.isdigit Double.isdigit
      Sample.ocr_plate Sample.resize_fails Double.cv2_cvtColor_gray
      Double.clahe_apply default_settings (Double.blank 2400 2).
Proof.
  apply (plate_region_of_tall_page_not_resized Double.str_upper Double.isalpha
           Double.isdigit Double.isdigit Sample.ocr_plate Double.cv2_resize
           Double.cv2_cvtColor_gray Double.clahe_apply default_settings
           Sample.resize_fails (Double.blank 2400 2)).
  vm_compute. discriminate.
Defined.

Lemma matched_plate_is_first_match_witness :
  plate_of_text Double.isalpha Double.isdigit Double.isdigit default_settings
    (py "РЕГ В883ВО799 RUS") = Some (py "В883ВО799")
  /\ plate_grammar Double.isdigit (py "В883ВО799") = true
  /\ (length (py "В883ВО799") = 8 \/ length (py "В883ВО799") = 9)
  /\ exists i, py "В883ВО799"
               = firstn (length (py "В883ВО799")) (skipn i (py "РЕГ В883ВО799 RUS")).
Proof.
  apply (matched_plate_is_first_match Double.isalpha Double.isdigit Double.isdigit
           default_settings (py "РЕГ В883ВО799 RUS") (py "В883ВО799") []);
    reflexivity.
Defined.

Lemma fallback_plate_is_first_passing_line_witness :
  exists before line after,
    str_split NL (py "СЕРИЯ" ++ NL :: py "АВ 1234 56Е") = before ++ line :: after
    /\ Forall (fun l => plate_fallback_line Double.isalpha Double.isdigit
                          Double.isdigit default_settings l = None) before
    /\ py "АВ123456Е" = filter cyr_or_digit line
    /\ (min_reg_number_length default_settings
        <= Z.of_nat (length (py "АВ123456Е"))
        <= max_reg_number_length default_settings)%Z
    /\ existsb cyr_upper (py "АВ123456Е") = true
    /\ existsb Double.isdigit (py "АВ123456Е") = true
    /\ 3 <= length (filter Double.isalpha (py "АВ123456Е")) <= 4
    /\ 4 <= length (filter Double.isdigit (py "АВ123456Е")) <= 6.
Proof.
  apply (fallback_plate_is_first_passing_line Double.isalpha Double.isdigit
           Double.isdigit default_settings
           (py "СЕРИЯ" ++ NL :: py "АВ 1234 56Е") (py "АВ123456Е"));
    reflexivity.
Defined.

Lemma plate_never_holds_a_table_key_witness :
  (forall text, length (normalize_to_cyrillic text) = length text
                /\ existsb table_key (normalize_to_cyrillic text) = false)
  /\ existsb table_key (py "В883ВО799") = false
  /\ contains (ch "0") (py "В883ВО799") = false.
Proof.
  apply (plate_never_holds_a_table_key Double.str_upper Double.isalpha
           Double.isdigit Double.isdigit Sample.ocr_plate Double.cv2_resize
           Double.cv2_cvtColor_gray Double.clahe_apply default_settings
           (Double.blank 2400 2) (py "В883ВО799")).
  vm_compute. reflexivity.
Defined.

Lemma default_regions_fit_the_page_witness :
  exists p1 p2 v1 v2 b1 b2 plate_region vin_region body_region,
    extract_region (Double.blank 1000 4) (reg_number_region_start default_settings)
      (reg_number_region_end default_settings) = Ok plate_region
    /\ extract_region (Double.blank 1000 4) (vin_region_start default_settings)
         (vin_region_end default_settings) = Ok vin_region
    /\ extract_region (Double.blank 1000 4)
         (body_number_region_start default_settings)
         (body_number_region_end default_settings) = Ok body_region
    /\ nd_rows plate_region
       = firstn (Z.to_nat (p2 - p1))
           (skipn (Z.to_nat p1) (nd_rows (Double.blank 1000 4)))
    /\ nd_rows vin_region
       = firstn (Z.to_nat (v2 - v1))
           (skipn (Z.to_nat v1) (nd_rows (Double.blank 1000 4)))
    /\ nd_rows body_region
       = firstn (Z.to_nat (b2 - b1))
           (skipn (Z.to_nat b1) (nd_rows (Double.blank 1000 4)))
    /\ (0 <= p1 <= v1)%Z /\ (v1 <= p2 <= b1)%Z /\ (b1 <= v2 <= b2)%Z
    /\ (b2 <= shape0 (Double.blank 1000 4))%Z.
Proof.
  apply (default_regions_fit_the_page (Double.blank 1000 4)).
  vm_compute. reflexivity.
Defined.

Lemma sweep_sizes_are_exact_witness :
  enhanced_variant Double.cv2_resize Double.cv2_cvtColor_gray Double.clahe_apply
    (Double.blank 300 4) (dec 2 1) 8 (dec 1 1)
  = (gray <- to_gray Double.cv2_cvtColor_gray (Double.blank 300 4) ;;
     Double.clahe_apply (dec 2 1) 8 gray)
  /\ forall scale num den,
       In (scale, (num, den))
          [(dec 15 10, (3, 2)); (dec 2 1, (2, 1)); (dec 25 10, (5, 2));
           (dec 3 1, (3, 1))]%Z ->
       enhanced_variant Double.cv2_resize Double.cv2_cvtColor_gray
         Double.clahe_apply (Double.blank 300 4) (dec 2 1) 8 scale
       = (scaled <- Double.cv2_resize (Double.blank 300 4)
                      (num * shape1 (Double.blank 300 4) / den,
                       num * shape0 (Double.blank 300 4) / den)%Z
                      INTER_CUBIC ;;
          gray <- to_gray Double.cv2_cvtColor_gray scaled ;;
          Double.clahe_apply (dec 2 1) 8 gray).
Proof.
  apply (sweep_sizes_are_exact Double.cv2_resize Double.cv2_cvtColor_gray
           Double.clahe_apply (Double.blank 300 4) (dec 2 1) 8);
    vm_compute; reflexivity.
Defined.

Lemma default_upscale_asks_799_or_800_witness :
  exists scale new_width new_height,
    int_truediv 800 (shape0 (Double.blank 97 4)) = Ok scale
    /\ int_mul (shape1 (Double.blank 97 4)) scale = Ok new_width
    /\ int_mul (shape0 (Double.blank 97 4)) scale = Ok new_height
    /\ upscale_if_needed Double.cv2_resize default_settings (Double.blank 97 4)
       = Double.cv2_resize (Double.blank 97 4) (new_width, new_height) INTER_CUBIC
    /\ (799 <= new_height <= 800)%Z
    /\ (shape1 (Double.blank 97 4) <= new_width)%Z.
Proof.
  apply (default_upscale_asks_799_or_800 Double.cv2_resize (Double.blank 97 4)).
  - vm_compute. split; reflexivity.
  - vm_compute. reflexivity.
Defined.
